(** * whatsmiau: event routing, webhook delivery, instance cache and
      always-online scheduling

    A shallow embedding of the Go package [lib/whatsmiau] (event emitter,
    send commands and chat commands) into Rocq.  Stateful methods of
    [*Whatsmiau] become
    computations of a state-and-panic monad over the fields of the struct;
    the collaborators the package consumes (repository, session runtime,
    HTTP client) are functions of a record [World], and every call made
    against them is appended to an audit trail kept in the state. *)

From Stdlib Require Import ZArith String Ascii List Lia Bool.
From stdpp Require Import base option list gmap strings.

Open Scope string_scope.
Open Scope list_scope.

(** ** time.Duration and instants (int64 nanoseconds) *)
Module time.
Abbreviation Duration := Z.
Definition Nanosecond : Duration := 1%Z.
Definition Second : Duration := 1000000000%Z.
Definition Minute : Duration := (60 * Second)%Z.
End time.

(** ** types.JID and the errors the package returns *)
Record JID := mkJID { User : string; Server : string }.

Inductive error :=
| ErrClientIsNil
| ErrOther (msg : string).

#[global] Instance JID_eq_dec : EqDecision JID.
Proof. solve_decision. Defined.

#[global] Instance error_eq_dec : EqDecision error.
Proof. solve_decision. Defined.

(** ** models.Instance *)
Module models.
Record InstanceWebhook := mkWebhook {
  Url : string;
  Events : list string;
  Base64 : option bool
}.

(** Modelled from the spec: the declaration of [models.Instance] is not
    part of the sources at hand.  The fields the handlers read ([ID],
    [Webhook], [GroupsIgnore], [ReadMessages]) keep the names the source
    uses; [SkipBroadcasts], [SkipOwnMessages], [AutoReceipt] and
    [AlwaysOnline] stand for the remaining policy flags of the data
    model (skip broadcasts, skip own messages, auto-read-receipt,
    always-online). *)
Record Instance := mkInstance {
  ID : string;
  Webhook : InstanceWebhook;
  GroupsIgnore : bool;
  ReadMessages : bool;
  SkipBroadcasts : bool;
  SkipOwnMessages : bool;
  AutoReceipt : bool;
  AlwaysOnline : bool
}.
End models.
Import models.

(** ** patrickmn/go-cache, as far as the package uses it *)
Module cache.
Record Item := mkItem { Object : Instance; Expiration : Z }.

Record Cache := mkCache {
  defaultExpiration : time.Duration;
  items : gmap string Item
}.

Definition DefaultExpiration : time.Duration := 0%Z.
Definition NoExpiration : time.Duration := (-1)%Z.

(** [Get]: an item is reported only while [now] has not passed its
    expiration; expiration 0 means that the item never expires. *)
Definition Get (c : Cache) (k : string) (now : Z) : option Instance :=
  match items c !! k with
  | None => None
  | Some it =>
      if ((0 <? Expiration it) && (Expiration it <? now))%Z then None
      else Some (Object it)
  end.

(** [Set]: duration [DefaultExpiration] selects the cache's own default;
    a positive duration gives expiration [now + d]. *)
Definition Set_ (c : Cache) (k : string) (x : Instance) (d : time.Duration)
    (now : Z) : Cache :=
  let d := if (d =? DefaultExpiration)%Z then defaultExpiration c else d in
  let e := if (0 <? d)%Z then (now + d)%Z else 0%Z in
  mkCache (defaultExpiration c) (<[k := mkItem x e]> (items c)).

(** The janitor's sweep. *)
Definition DeleteExpired (c : Cache) (now : Z) : Cache :=
  mkCache (defaultExpiration c)
    (filter (fun kv => ¬ ((0 < Expiration kv.2)%Z ∧ (Expiration kv.2 < now)%Z))
            (items c)).
End cache.

(** ** The session runtime (whatsmeow.Client), seen from outside *)
Record Device := mkDevice { DeviceID : option JID }.

Record Client := mkClient {
  handle : nat;
  IsConnected : bool;
  IsLoggedIn : bool;
  Store : option Device
}.

(** A [*whatsmeow.Client]; [None] is the nil pointer. *)
Abbreviation ClientPtr := (option Client).

#[global] Instance Device_eq_dec : EqDecision Device.
Proof. solve_decision. Defined.

#[global] Instance Client_eq_dec : EqDecision Client.
Proof. solve_decision. Defined.

(** ** whatsmeow events, with the fields the handlers read *)
Module events.
Record MessageInfo := mkInfo {
  Chat : JID;
  Sender : JID;
  IsFromMe : bool;
  MsgID : string;
  Timestamp : option Z;      (* [None] is the zero time *)
  PushName : string
}.

Record ContextInfo := mkContextInfo {
  StanzaID : string;
  HasExternalAdReply : bool
}.

Record MediaMessage := mkMedia {
  Mimetype : string;
  FileName : string;
  MediaContext : option ContextInfo
}.

(** waE2E.Message: the optional parts [parseWAMessage] looks at. *)
Record WAMessage := mkWAMessage {
  ReactionMessage : option string;
  ListResponseMessage : option string;
  ImageMessage : option MediaMessage;
  AudioMessage : option MediaMessage;
  DocumentMessage : option MediaMessage;
  VideoMessage : option MediaMessage;
  ContactMessage : option (string * option ContextInfo);
  ContactsArrayMessage : option (list string * option ContextInfo);
  Conversation : string;
  ExtendedTextMessage : option (string * option ContextInfo)
}.

Record Message := mkMessage {
  Info : MessageInfo;
  Message_ : option WAMessage   (* [None] is a nil [*waE2E.Message] *)
}.

Inductive ReceiptType :=
| ReceiptTypeDelivered | ReceiptTypeRead | ReceiptTypeOther (t : string).

Record Receipt := mkReceipt {
  RChat : JID;
  RSender : JID;
  RIsFromMe : bool;
  MessageIDs : list string;
  RTimestamp : Z;
  Type_ : ReceiptType
}.

Record VerifiedName := mkVerifiedName {
  Details : option string      (* Details.GetVerifiedName(), when Details is set *)
}.

Record BusinessMessageInfo := mkBMI {
  BPushName : string;
  BVerifiedName : option VerifiedName
}.

Record BusinessName := mkBusinessName {
  BJID : JID;
  OldBusinessName : string;
  NewBusinessName : string;
  BMessage : option BusinessMessageInfo
}.

(** Contact: the getters of the sync action give the empty string when
    the action or the field is unset. *)
Record Contact := mkContact {
  CJID : JID;
  FirstName : string;
  FullName : string;
  Username : string
}.

Record Picture := mkPicture { PJID : JID; PTimestamp : Z }.

Record Pushname := mkPushname { PnID : string; PnPushname : string }.

Record Conversation_ := mkConversation {
  CvID : string;
  CvName : string;
  CvDisplayName : string;
  CvUsername : string
}.

Record HistorySync := mkHistorySync {
  Pushnames : list Pushname;
  Conversations : list Conversation_
}.

Record GroupInfo := mkGroupInfo {
  GJID : JID;
  GName : option string        (* evt.Name, and then evt.Name.Name *)
}.

Record PushName_ := mkPushName {
  PNJID : JID;
  OldPushName : string;
  NewPushName : string
}.

(** The dynamic type of the [evt any] handed to the event handler. *)
Inductive Event :=
| LoggedOut
| EvMessage (e : Message)
| EvReceipt (e : Receipt)
| EvBusinessName (e : BusinessName)
| EvContact (e : Contact)
| EvPicture (e : Picture)
| EvHistorySync (e : HistorySync)
| EvGroupInfo (e : GroupInfo)
| EvPushName (e : PushName_)
| EvUnknown (type_name : string).
End events.

(** ** Webhook payloads *)
Inductive WookEventType :=
| WookMessagesUpsert
| WookMessagesUpdate
| WookContactsUpsert
| WookConnectionUpdate.

#[global] Instance WookEventType_eq_dec : EqDecision WookEventType.
Proof. solve_decision. Defined.

Record WookKey := mkKey {
  KRemoteJid : string;
  KRemoteLid : string;
  KFromMe : bool;
  KId : string;
  KParticipant : string
}.

Record WookMessageRaw := mkRaw {
  RawConversation : string;
  MediaURL : string;
  RawBase64 : string
}.

Record WookMessageData := mkMessageData {
  Key : WookKey;
  MDPushName : string;
  Status : string;
  MDMessage : WookMessageRaw;
  HasAdReply : bool;
  MessageType : string;
  MessageTimestamp : Z;
  MDInstanceId : string;
  Source : string
}.

Inductive WookMessageUpdateStatus := MessageStatusRead | MessageStatusDeliveryAck.

Record WookMessageUpdateData := mkUpdateData {
  UMessageId : string;
  UKeyId : string;
  URemoteJid : string;
  URemoteLid : string;
  UFromMe : bool;
  UParticipant : string;
  UStatus : WookMessageUpdateStatus;
  UInstanceId : string
}.

Record WookContact := mkWookContact {
  RemoteJid : string;
  RemoteLid : string;
  CPushName : string;
  ProfilePicUrl : string;
  Base64Pic : string;
  CInstanceId : string
}.

Inductive WookData :=
| DataMessage (d : WookMessageData)
| DataMessageUpdate (d : WookMessageUpdateData)
| DataContacts (l : list WookContact)
| DataConnection (status : string).

Record WookEvent := mkWookEvent {
  WInstance : string;
  WData : WookData;
  WDateTime : Z;
  WEvent : WookEventType
}.

(** [type emitter struct { url string; data any }] *)
Record emitter := mkEmitter { url : string; data : WookEvent }.

(** ** The state of a [*Whatsmiau] and of its surroundings *)
Inductive Goroutine :=
| GoSendDeliveryReceipt (id : string) (e : events.Message)
| GoMarkAsReadAfterDelay (id : string) (e : events.Message) (delay : time.Duration).

Inductive Level := Debug | Info | Warn | Error_ | Panic_.

Record LogEntry := mkLog { level : Level; msg : string }.

Inductive MediaType := MediaAudio | MediaImage | MediaVideo | MediaDocument.

(** What a command hands to [client.SendMessage]. *)
Inductive OutMessage :=
| OutText (text : string) (extended : bool)
| OutAudio (url : string) (view_once : bool)
| OutDocument (url mimetype file_name caption : string)
| OutImage (url mimetype caption : string) (view_once : bool)
| OutVideo (url mimetype caption : string) (view_once : bool)
| OutReaction (chat sender : JID) (message_id reaction : string)
| OutCallLog (is_video : bool).

Inductive Patch :=
| BuildDeleteChat (target : JID) (at_ : Z)
| BuildArchive (target : JID) (archive : bool) (at_ : Z).

(** Calls made against the collaborators, in the order they are made. *)
Inductive Call :=
| CallRepoList (id : string)
| CallHttpPost (url body : string)
| CallHttpGet (url : string)
| CallSleep (d : time.Duration)
| CallDeleteDevice (c : ClientPtr)
| CallMarkRead (c : ClientPtr) (ids : list string) (at_ : option Z)
    (chat sender : JID) (receipt : option events.ReceiptType)
| CallSendPresence (c : ClientPtr)
| CallSendChatPresence (c : ClientPtr) (to : JID) (presence media : string)
| CallGetProfilePictureInfo (c : ClientPtr) (jid : JID)
| CallDownload (c : ClientPtr) (mimetype : string)
| CallStorageUpload (name mimetype : string)
| CallUpload (c : ClientPtr) (bytes : string) (kind : MediaType)
| CallSendMessage (c : ClientPtr) (to : JID) (m : OutMessage)
| CallSendAppState (c : ClientPtr) (p : Patch).

Record State := mkState {
  instanceCache : cache.Cache;
  clients : gmap string ClientPtr;
  alwaysOnlineIDs : gmap string bool;
  emitter_chan : list emitter;       (* the channel [s.emitter], oldest first *)
  goroutines : list Goroutine;       (* started with [go], not yet run *)
  logs : list LogEntry;
  calls : list Call;
  clock : Z                          (* what [time.Now()] reads *)
}.

Definition set_instanceCache (c : cache.Cache) (s : State) : State :=
  mkState c (clients s) (alwaysOnlineIDs s) (emitter_chan s) (goroutines s)
          (logs s) (calls s) (clock s).
Definition set_clients (m : gmap string ClientPtr) (s : State) : State :=
  mkState (instanceCache s) m (alwaysOnlineIDs s) (emitter_chan s)
          (goroutines s) (logs s) (calls s) (clock s).
Definition set_alwaysOnlineIDs (m : gmap string bool) (s : State) : State :=
  mkState (instanceCache s) (clients s) m (emitter_chan s) (goroutines s)
          (logs s) (calls s) (clock s).
Definition set_emitter_chan (q : list emitter) (s : State) : State :=
  mkState (instanceCache s) (clients s) (alwaysOnlineIDs s) q (goroutines s)
          (logs s) (calls s) (clock s).
Definition set_goroutines (g : list Goroutine) (s : State) : State :=
  mkState (instanceCache s) (clients s) (alwaysOnlineIDs s) (emitter_chan s) g
          (logs s) (calls s) (clock s).
Definition set_logs (l : list LogEntry) (s : State) : State :=
  mkState (instanceCache s) (clients s) (alwaysOnlineIDs s) (emitter_chan s)
          (goroutines s) l (calls s) (clock s).
Definition set_calls (c : list Call) (s : State) : State :=
  mkState (instanceCache s) (clients s) (alwaysOnlineIDs s) (emitter_chan s)
          (goroutines s) (logs s) c (clock s).
Definition set_clock (t : Z) (s : State) : State :=
  mkState (instanceCache s) (clients s) (alwaysOnlineIDs s) (emitter_chan s)
          (goroutines s) (logs s) (calls s) t.

(** ** The monad: state, and a panic that unwinds the goroutine *)
Inductive Res (A : Type) :=
| Ok (a : A) (s : State)
| Panicked (why : string) (s : State).
Arguments Ok {A} a s.
Arguments Panicked {A} why s.

Definition M (A : Type) : Type := State -> Res A.

#[global] Instance M_ret : MRet M := fun A a s => Ok a s.
#[global] Instance M_bind : MBind M := fun A B f m s =>
  match m s with
  | Ok a s' => f a s'
  | Panicked why s' => Panicked why s'
  end.

Definition final {A} (r : Res A) : State :=
  match r with Ok _ s => s | Panicked _ s => s end.

Definition gets {A} (f : State -> A) : M A := fun s => Ok (f s) s.
Definition modify (f : State -> State) : M unit := fun s => Ok tt (f s).
Definition panic {A} (why : string) : M A := fun s => Panicked why s.
Definition zap (l : Level) (m : string) : M unit :=
  modify (fun s => set_logs (logs s ++ [mkLog l m]) s).
Definition call (c : Call) : M unit :=
  modify (fun s => set_calls (calls s ++ [c]) s).
Definition now : M Z := gets clock.
(** [time.Sleep]: the clock moves on by the duration slept. *)
Definition Sleep (d : time.Duration) : M unit :=
  _ ← call (CallSleep d); modify (fun s => set_clock (clock s + d)%Z s).
(** [go f(...)]: the goroutine is recorded and the caller carries on. *)
Definition go (g : Goroutine) : M unit :=
  modify (fun s => set_goroutines (goroutines s ++ [g]) s).

(** ** The collaborators *)
Inductive result (A : Type) :=
| Success (a : A)
| Failure (err : error).
Arguments Success {A} a.
Arguments Failure {A} err.

Record HttpResponse := mkResponse {
  StatusCode : Z;
  Body : result string           (* what [io.ReadAll(resp.Body)] gives *)
}.

Record SendResponse := mkSendResponse { RespID : string; RespTimestamp : Z }.
Record UploadResponse := mkUploadResponse { UploadURL : string }.

Definition StatusOK : Z := 200%Z.

Record World := mkWorld {
  (* persistence: [s.repo.List(ctx, id)] *)
  repo_List : string -> result (list Instance);
  (* webhook delivery: serialisation, request construction, and the answer
     of the destination to the POST of a given attempt *)
  json_Marshal : WookEvent -> result string;
  NewRequest_ok : string -> bool;
  http_Do : string -> string -> nat -> result HttpResponse;
  http_Get : string -> result string;
  (* the session runtime; [deleteDeviceIfExists] is a method of the package
     that wraps it, declared in a file that is not at hand *)
  deleteDeviceIfExists : ClientPtr -> option error;
  rt_MarkRead : ClientPtr -> list string -> JID -> JID ->
                option events.ReceiptType -> option error;
  rt_SendPresence : ClientPtr -> option error;
  rt_SendChatPresence : ClientPtr -> JID -> string -> string -> option error;
  rt_SendMessage : ClientPtr -> JID -> OutMessage -> result SendResponse;
  rt_Upload : ClientPtr -> string -> MediaType -> result UploadResponse;
  rt_SendAppState : ClientPtr -> Patch -> option error;
  rt_GetProfilePictureInfo : ClientPtr -> JID -> result (option string);
  rt_DownloadToFile : ClientPtr -> events.MediaMessage -> result string;
  UnwrapRaw : events.Message -> events.Message;
  (* helpers of the package declared in files that are not at hand *)
  GetJidLid : string -> JID -> string * string;
  canIgnoreGroup : events.Event -> Instance -> bool;
  canIgnoreMessage : events.Message -> bool;
  getCtx : string -> result string;
  processBase64Audio : string -> result (string * string * Z);
  convertAudio : string -> result (string * string * Z);
  processBase64Image : string -> result string;
  extractMimetype : string -> string -> result string;
  extractExtFromFile : string -> string -> string -> string;
  (* libraries *)
  ParseJID : string -> result JID;
  TrimSpace : string -> string;
  EncodeToString : string -> string;
  NewString : nat -> string;                       (* uuid *)
  CreateTemp_ok : bool;
  fileStorage : option (string -> string -> string -> result string)
}.

Section Whatsmiau.
Context (W : World).

(** *** Instance cache *)

Definition getInstanceCached (id : string) : M (option Instance) :=
  t ← now;
  c ← gets instanceCache;
  match cache.Get c id t with
  | Some instance => mret (Some instance)
  | None =>
      call (CallRepoList id);;
      match repo_List W id with
      | Failure err =>
          (* zap.L().Panic writes the entry and then panics *)
          zap Panic_ "failed to get instanceCached by instance";;
          panic "failed to get instanceCached by instance"
      | Success res =>
          match res with
          | [] =>
              zap Warn "no instanceCached found by instance";;
              mret None
          | r0 :: _ =>
              t' ← now;
              modify (fun s => set_instanceCache
                        (cache.Set_ (instanceCache s) id r0
                                    cache.DefaultExpiration t') s);;
              mret (Some r0)
          end
      end
  end.

(** *** Delivery queue and worker *)

(** [s.emitter <- emitter{url, body}].  The channel is buffered and a send
    on a full channel waits for the worker: no task is ever dropped, so
    the model keeps the channel as a list without a bound. *)
Definition emit (body : WookEvent) (url : string) : M unit :=
  modify (fun s => set_emitter_chan (emitter_chan s ++ [mkEmitter url body]) s).

Definition maxRetries : nat := 3.

Definition retryDelays : list time.Duration :=
  [ (2 * time.Second)%Z; (5 * time.Second)%Z; (10 * time.Second)%Z ].

(** How the loop of [sendWebhookWithRetry] was left. *)
Inductive Delivery :=
| Delivered
| Exhausted (lastErr : option string) (lastStatusCode : Z)
| NotMarshalled.

(** The loop [for attempt := 0; attempt <= maxRetries; attempt++]:
    [remaining] iterations are left, the next one being [attempt]. *)
Fixpoint retryLoop (remaining attempt : nat) (url body : string)
    (lastErr : option string) (lastStatusCode : Z) : M Delivery :=
  match remaining with
  | O => mret (Exhausted lastErr lastStatusCode)
  | S remaining' =>
      (if (0 <? attempt)%nat then
         match retryDelays !! (attempt - 1)%nat with
         | None => panic "index out of range"
         | Some delay =>
             zap Warn "retrying webhook after delay";;
             Sleep delay
         end
       else mret tt);;
      if negb (NewRequest_ok W url) then
        zap Error_ "webhook request creation failed";;
        retryLoop remaining' (S attempt) url body
                  (Some "failed to create request") lastStatusCode
      else
        call (CallHttpPost url body);;
        match http_Do W url body attempt with
        | Failure err =>
            zap Error_ "webhook send failed";;
            retryLoop remaining' (S attempt) url body
                      (Some "failed to send request") lastStatusCode
        | Success resp =>
            if (StatusCode resp =? StatusOK)%Z then
              (if (0 <? attempt)%nat
               then zap Info "webhook succeeded after retry"
               else mret tt);;
              mret Delivered
            else
              zap Warn "webhook failed";;
              retryLoop remaining' (S attempt) url body
                        (Some match Body resp with
                              | Failure _ => "status, failed to read response"
                              | Success b => b
                              end)
                        (StatusCode resp)
        end
  end.

Definition sendWebhookWithRetry (event : emitter) : M Delivery :=
  match json_Marshal W (data event) with
  | Failure err =>
      zap Error_ "failed to marshal event";;
      mret NotMarshalled
  | Success body =>
      r ← retryLoop (S maxRetries) 0 (url event) body None 0%Z;
      match r with
      | Exhausted e c =>
          zap Error_ "webhook failed after all retries";;
          mret (Exhausted e c)
      | r => mret r
      end
  end.

(** One turn of [startEmitter]: the worker takes the oldest task off the
    channel and delivers it. *)
Definition startEmitter_turn : M (option Delivery) :=
  q ← gets emitter_chan;
  match q with
  | [] => mret None
  | event :: rest =>
      modify (set_emitter_chan rest);;
      r ← sendWebhookWithRetry event;
      mret (Some r)
  end.

(** *** Event router *)

(** The [eventMap] built from [instance.Webhook.Events]; reading a key
    that is absent gives [false]. *)
Definition make_eventMap (evs : list string) : gmap string bool :=
  foldl (fun m event => <[event := true]> m) ∅ evs.

Definition eventMap_get (m : gmap string bool) (k : string) : bool :=
  default false (m !! k).

Definition emitConnectionUpdate (id status : string) : M unit :=
  instance ← getInstanceCached id;
  match instance with
  | None => zap Warn "no instance found for connection event"
  | Some instance =>
      let eventMap := make_eventMap (Events (Webhook instance)) in
      if negb (eventMap_get eventMap "CONNECTION_UPDATE") then mret tt
      else
        t ← now;
        let payload :=
          mkWookEvent (ID instance) (DataConnection status) t
                      WookConnectionUpdate in
        zap Info "emitting connection update";;
        emit payload (Url (Webhook instance))
  end.

Definition handleLoggedOut (id : string) : M unit :=
  emitConnectionUpdate id "close";;
  cs ← gets clients;
  match cs !! id with
  | Some client =>
      call (CallDeleteDevice client);;
      match deleteDeviceIfExists W client with
      | Some err => zap Error_ "failed to delete device for instance"
      | None => modify (fun s => set_clients (delete id (clients s)) s)
      end
  | None => modify (fun s => set_clients (delete id (clients s)) s)
  end.

(** [strings.Split(s, sep)] for a separator of one byte. *)
Fixpoint Split (s : string) (sep : ascii) : list string :=
  match s with
  | EmptyString => [EmptyString]
  | String c rest =>
      if Ascii.eqb c sep then EmptyString :: Split rest sep
      else match Split rest sep with
           | hd :: tl => String c hd :: tl
           | [] => [String c EmptyString]
           end
  end.

(** The test every contact conversion applies to the name it resolved:
    [dt := strings.Split(name, "@"); len(dt) == 2 &&
     (dt[1] == "g.us" || dt[1] == "s.whatsapp.net")]. *)
Definition isChatIdentifier (name : string) : bool :=
  match Split name "@"%char with
  | [_; dt1] => (dt1 =? "g.us")%string || (dt1 =? "s.whatsapp.net")%string
  | _ => false
  end.

Definition getPic (id : string) (jid : JID) : M (string * string * option error) :=
  cs ← gets clients;
  match cs !! id with
  | None | Some None =>
      zap Warn "no client for event";;
      mret ("", "", Some (ErrOther "no client for event"))
  | Some client =>
      call (CallGetProfilePictureInfo client jid);;
      match rt_GetProfilePictureInfo W client jid with
      | Failure _ => mret ("", "", None)
      | Success None => mret ("", "", None)
      | Success (Some picURL) =>
          call (CallHttpGet picURL);;
          match http_Get W picURL with
          | Failure err =>
              zap Error_ "get profile picture error";;
              mret ("", "", Some err)
          | Success picRaw => mret (picURL, EncodeToString W picRaw, None)
          end
      end
  end.

(** The prologue shared by the contact conversions: fetch the picture and
    report a failure without giving up. *)
Definition getPic_logged (id : string) (jid : JID) : M (string * string) :=
  r ← getPic id jid;
  match r with
  | (u, b64, Some _) => zap Error_ "failed to get pic";; mret (u, b64)
  | (u, b64, None) => mret (u, b64)
  end.

Definition convertContact (id : string) (evt : events.Contact)
    : M (option WookContact) :=
  '(url, _) ← getPic_logged id (events.CJID evt);
  let name := events.FirstName evt in
  let name := if (name =? "")%string then events.FullName evt else name in
  let name := if (name =? "")%string then events.Username evt else name in
  if (name =? "")%string then mret None
  else if isChatIdentifier name then mret None
  else
    let '(jid, lid) := GetJidLid W id (events.CJID evt) in
    mret (Some (mkWookContact jid lid name url "" id)).

Definition convertGroupInfo (id : string) (evt : events.GroupInfo)
    : M (option WookContact) :=
  '(url, _) ← getPic_logged id (events.GJID evt);
  match events.GName evt with
  | None => mret None
  | Some gname =>
      if (String.length gname =? 0)%nat then mret None
      else if isChatIdentifier gname then mret None
      else
        let '(jid, lid) := GetJidLid W id (events.GJID evt) in
        mret (Some (mkWookContact jid lid gname url "" id))
  end.

Definition convertPushName (id : string) (evt : events.PushName_)
    : M (option WookContact) :=
  '(url, _) ← getPic_logged id (events.PNJID evt);
  let name := events.NewPushName evt in
  let name := if (String.length name =? 0)%nat
              then events.OldPushName evt else name in
  if (name =? "")%string then mret None
  else if isChatIdentifier name then mret None
  else
    let '(jid, lid) := GetJidLid W id (events.PNJID evt) in
    mret (Some (mkWookContact jid lid (events.NewPushName evt) url "" id)).

Definition convertPicture (id : string) (evt : events.Picture)
    : M (option WookContact) :=
  '(url, b64) ← getPic_logged id (events.PJID evt);
  if (String.length url <=? 0)%nat then mret None
  else
    let '(jid, lid) := GetJidLid W id (events.PJID evt) in
    mret (Some (mkWookContact jid lid "" url b64 id)).

Definition convertBusinessName (id : string) (evt : events.BusinessName)
    : M (option WookContact) :=
  '(url, b64) ← getPic_logged id (events.BJID evt);
  let name := events.NewBusinessName evt in
  let name := if (name =? "")%string then events.OldBusinessName evt else name in
  let name :=
    match events.BMessage evt with
    | Some m => if (name =? "")%string then events.BPushName m else name
    | None => name
    end in
  let name :=
    match events.BMessage evt with
    | Some (events.mkBMI _ (Some (events.mkVerifiedName (Some verified)))) =>
        if (name =? "")%string then verified else name
    | _ => name
    end in
  if isChatIdentifier name then mret None
  else
    let '(jid, lid) := GetJidLid W id (events.BJID evt) in
    mret (Some (mkWookContact jid lid name url b64 id)).

(** [convertContactHistorySync].  The two [for] loops fill [resultMap];
    [None] stands for the [return nil] that leaves the function from
    inside a loop. *)
Fixpoint historyPushnames (id : string) (event : list events.Pushname)
    (resultMap : gmap string WookContact)
    : M (option (gmap string WookContact)) :=
  match event with
  | [] => mret (Some resultMap)
  | pushName :: rest =>
      let pn := events.PnPushname pushName in
      if (String.length pn =? 0)%nat then historyPushnames id rest resultMap
      else if isChatIdentifier pn then mret None
      else
        match ParseJID W (events.PnID pushName) with
        | Failure _ => zap Error_ "failed to parse jid";; mret None
        | Success jid =>
            let '(jidParsed, lid) := GetJidLid W id jid in
            historyPushnames id rest
              (<[jidParsed := mkWookContact jidParsed lid pn "" "" id]> resultMap)
        end
  end.

Definition conversationName (conversation : events.Conversation_) : string :=
  let name := events.CvName conversation in
  let name := if (String.length name =? 0)%nat
              then events.CvDisplayName conversation else name in
  let name := if (String.length name =? 0)%nat
              then events.CvUsername conversation else name in
  name.

Fixpoint historyConversations (id : string)
    (conversations : list events.Conversation_)
    (resultMap : gmap string WookContact)
    : M (option (gmap string WookContact)) :=
  match conversations with
  | [] => mret (Some resultMap)
  | conversation :: rest =>
      let name := conversationName conversation in
      if (String.length name =? 0)%nat
      then historyConversations id rest resultMap
      else if isChatIdentifier name then mret None
      else
        match ParseJID W (events.CvID conversation) with
        | Failure _ => zap Error_ "failed to parse jid";; mret None
        | Success jid =>
            let '(jidParsed, lid) := GetJidLid W id jid in
            historyConversations id rest
              (<[events.CvID conversation :=
                   mkWookContact jidParsed lid name "" "" id]> resultMap)
        end
  end.

(** The closing loop ranges over [resultMap]; Go fixes no order for it,
    the model takes the order of [map_to_list]. *)
Fixpoint historyPictures (id : string) (cs : list WookContact)
    : M (list WookContact) :=
  match cs with
  | [] => mret []
  | c :: rest =>
      match ParseJID W (RemoteJid c) with
      | Failure _ => historyPictures id rest
      | Success jid =>
          '(url, _) ← getPic_logged id jid;
          result ← historyPictures id rest;
          mret (mkWookContact (RemoteJid c) (RemoteLid c) (CPushName c) url
                              (Base64Pic c) (CInstanceId c) :: result)
      end
  end.

(** The result is a slice; the empty list is the nil slice. *)
Definition convertContactHistorySync (id : string)
    (event : list events.Pushname)
    (conversations : list events.Conversation_) : M (list WookContact) :=
  r ← historyPushnames id event ∅;
  match r with
  | None => mret []
  | Some resultMap =>
      r ← historyConversations id conversations resultMap;
      match r with
      | None => mret []
      | Some resultMap => historyPictures id (snd <$> map_to_list resultMap)
      end
  end.

Definition convertEventReceipt (id : string) (evt : events.Receipt)
    : list WookMessageUpdateData :=
  let status :=
    match events.Type_ evt with
    | events.ReceiptTypeRead => Some MessageStatusRead
    | events.ReceiptTypeDelivered => Some MessageStatusDeliveryAck
    | events.ReceiptTypeOther _ => None
    end in
  match status with
  | None => []
  | Some status =>
      let '(chatJid, chatLid) := GetJidLid W id (events.RChat evt) in
      let '(participantJid, _) := GetJidLid W id (events.RSender evt) in
      (fun messageID =>
         mkUpdateData messageID messageID chatJid chatLid
                      (events.RIsFromMe evt) participantJid status id)
        <$> events.MessageIDs evt
  end.

(** *** Message conversion and media relay *)

Definition parseWAMessage (m : option events.WAMessage)
    : string * WookMessageRaw * option events.ContextInfo :=
  let raw := mkRaw "" "" "" in
  match m with
  | None => ("unknown", raw, None)
  | Some m =>
      match events.ReactionMessage m, events.ListResponseMessage m,
            events.ImageMessage m, events.AudioMessage m,
            events.DocumentMessage m, events.VideoMessage m,
            events.ContactMessage m, events.ContactsArrayMessage m with
      | Some _, _, _, _, _, _, _, _ => ("reactionMessage", raw, None)
      | None, Some _, _, _, _, _, _, _ => ("listResponseMessage", raw, None)
      | None, None, Some img, _, _, _, _, _ =>
          ("imageMessage", raw, events.MediaContext img)
      | None, None, None, Some aud, _, _, _, _ =>
          ("audioMessage", raw, events.MediaContext aud)
      | None, None, None, None, Some doc, _, _, _ =>
          ("documentMessage", raw, events.MediaContext doc)
      | None, None, None, None, None, Some video, _, _ =>
          ("videoMessage", raw, events.MediaContext video)
      | None, None, None, None, None, None, Some contact, _ =>
          ("contactMessage", raw, snd contact)
      | None, None, None, None, None, None, None, Some contactArray =>
          ("contactsArrayMessage", raw, snd contactArray)
      | None, None, None, None, None, None, None, None =>
          let conv := TrimSpace W (events.Conversation m) in
          if negb (conv =? "")%string then ("conversation", mkRaw conv "" "", None)
          else match events.ExtendedTextMessage m with
               | Some (text, ci) =>
                   if (0 <? String.length text)%nat
                   then ("conversation", mkRaw text "" "", ci)
                   else ("unknown", raw, None)
               | None => ("unknown", raw, None)
               end
      end
  end.

Definition uploadMessageFile (instance : Instance) (client : ClientPtr)
    (fileMessage : events.MediaMessage) (mimetype fileName : string)
    : M (string * string) :=
  if negb (CreateTemp_ok W) then panic "os.CreateTemp"
  else
    call (CallDownload client mimetype);;
    match rt_DownloadToFile W client fileMessage with
    | Failure _ => zap Error_ "failed to download image";; mret ("", "")
    | Success content =>
        let ext := extractExtFromFile W fileName mimetype content in
        let b64Result :=
          match Base64 (Webhook instance) with
          | Some true => EncodeToString W content
          | _ => ""
          end in
        match fileStorage W with
        | None => mret ("", b64Result)
        | Some upload =>
            n ← gets (fun s => length (calls s));
            let name := (NewString W n ++ "." ++ ext)%string in
            call (CallStorageUpload name mimetype);;
            match upload name mimetype content with
            | Failure _ => zap Error_ "failed to upload image";; mret ("", b64Result)
            | Success urlResult => mret (urlResult, b64Result)
            end
        end
    end.

Definition convertEventMessage (id : string) (instance : Instance)
    (evt : events.Message) : M (option WookMessageData) :=
  cs ← gets clients;
  match cs !! id with
  | None => zap Warn "no client for event";; mret None
  | Some client =>
      match events.Message_ evt with
      | None => mret None
      | Some _ =>
          let '(jid, lid) := GetJidLid W id (events.Chat (events.Info evt)) in
          let '(senderJid, _) := GetJidLid W id (events.Sender (events.Info evt)) in
          let e := UnwrapRaw W evt in
          let m := events.Message_ e in
          let key := mkKey jid lid (events.IsFromMe (events.Info e))
                           (events.MsgID (events.Info e)) senderJid in
          let status := if events.IsFromMe (events.Info e)
                        then "sent" else "received" in
          t ← now;
          let ts := default t (events.Timestamp (events.Info e)) in
          let '(messageType, raw, ci) := parseWAMessage m in
          '(mediaURL, b64) ←
            match m with
            | None => mret (MediaURL raw, RawBase64 raw)
            | Some wm =>
                if (messageType =? "imageMessage")%string then
                  match events.ImageMessage wm with
                  | Some img => uploadMessageFile instance client img
                                  (events.Mimetype img) ""
                  | None => mret (MediaURL raw, RawBase64 raw)
                  end
                else if (messageType =? "audioMessage")%string then
                  match events.AudioMessage wm with
                  | Some aud => uploadMessageFile instance client aud
                                  (events.Mimetype aud) ""
                  | None => mret (MediaURL raw, RawBase64 raw)
                  end
                else if (messageType =? "documentMessage")%string then
                  match events.DocumentMessage wm with
                  | Some doc => uploadMessageFile instance client doc
                                  (events.Mimetype doc) (events.FileName doc)
                  | None => mret (MediaURL raw, RawBase64 raw)
                  end
                else if (messageType =? "videoMessage")%string then
                  match events.VideoMessage wm with
                  | Some vid => uploadMessageFile instance client vid
                                  (events.Mimetype vid) ""
                  | None => mret (MediaURL raw, RawBase64 raw)
                  end
                else mret (MediaURL raw, RawBase64 raw)
            end;
          let raw := mkRaw (RawConversation raw) mediaURL b64 in
          let adReply :=
            match ci with
            | Some ci => events.HasExternalAdReply ci
            | None => false
            end in
          let messageType := if adReply then "conversation" else messageType in
          mret (Some (mkMessageData key
                        (TrimSpace W (events.PushName (events.Info e)))
                        status raw adReply messageType ts id "whatsapp"))
      end
  end.

(** *** Handlers *)

Definition handleMessageEvent (id : string) (instance : Instance)
    (e : events.Message) (eventMap : gmap string bool) : M unit :=
  if negb (eventMap_get eventMap "MESSAGES_UPSERT") then mret tt
  else if canIgnoreGroup W (events.EvMessage e) instance then mret tt
  else if canIgnoreMessage W e then mret tt
  else
    messageData ← convertEventMessage id instance e;
    match messageData with
    | None => zap Error_ "failed to convert event"
    | Some md =>
        let messageData :=
          mkMessageData (Key md) (MDPushName md) (Status md) (MDMessage md)
                        (HasAdReply md) (MessageType md) (MessageTimestamp md)
                        (ID instance) (Source md) in
        let inbound :=
          negb (events.IsFromMe (events.Info e)) &&
          negb (Server (events.Chat (events.Info e)) =? "broadcast")%string in
        (if inbound then go (GoSendDeliveryReceipt id e) else mret tt);;
        (if ReadMessages instance && inbound
         then go (GoMarkAsReadAfterDelay id e (8 * time.Second)%Z)
         else mret tt);;
        let wookMessage :=
          mkWookEvent (ID instance) (DataMessage messageData)
                      (MessageTimestamp messageData) WookMessagesUpsert in
        zap Debug "message event";;
        emit wookMessage (Url (Webhook instance))
    end.

Fixpoint forM_ {A} (l : list A) (f : A -> M unit) : M unit :=
  match l with
  | [] => mret tt
  | x :: rest => f x;; forM_ rest f
  end.

Definition handleReceiptEvent (id : string) (instance : Instance)
    (e : events.Receipt) (eventMap : gmap string bool) : M unit :=
  if negb (eventMap_get eventMap "MESSAGES_UPDATE") then mret tt
  else if canIgnoreGroup W (events.EvReceipt e) instance then mret tt
  else
    forM_ (convertEventReceipt id e) (fun event =>
      emit (mkWookEvent (ID instance) (DataMessageUpdate event)
                        (events.RTimestamp e) WookMessagesUpdate)
           (Url (Webhook instance))).

Definition emitContact (instance : Instance) (c : WookContact) (at_ : Z)
    : M unit :=
  emit (mkWookEvent (ID instance) (DataContacts [c]) at_ WookContactsUpsert)
       (Url (Webhook instance)).

Definition handleBusinessNameEvent (id : string) (instance : Instance)
    (e : events.BusinessName) (eventMap : gmap string bool) : M unit :=
  if negb (eventMap_get eventMap "CONTACTS_UPSERT") then mret tt
  else
    data ← convertBusinessName id e;
    match data with
    | None => zap Error_ "failed to convert business name"
    | Some c => t ← now; emitContact instance c t
    end.

Definition handleContactEvent (id : string) (instance : Instance)
    (e : events.Contact) (eventMap : gmap string bool) : M unit :=
  if negb (eventMap_get eventMap "CONTACTS_UPSERT") then mret tt
  else if canIgnoreGroup W (events.EvContact e) instance then mret tt
  else
    data ← convertContact id e;
    match data with
    | None => zap Error_ "failed to convert contact"
    | Some c => t ← now; emitContact instance c t
    end.

Definition handlePictureEvent (id : string) (instance : Instance)
    (e : events.Picture) (eventMap : gmap string bool) : M unit :=
  if negb (eventMap_get eventMap "CONTACTS_UPSERT") then mret tt
  else
    data ← convertPicture id e;
    match data with
    | None => mret tt
    | Some c => emitContact instance c (events.PTimestamp e)
    end.

Definition handleHistorySyncEvent (id : string) (instance : Instance)
    (e : events.HistorySync) (eventMap : gmap string bool) : M unit :=
  if negb (eventMap_get eventMap "CONTACTS_UPSERT") then mret tt
  else
    data ← convertContactHistorySync id (events.Pushnames e)
                                     (events.Conversations e);
    match data with
    | [] => mret tt
    | _ :: _ =>
        t ← now;
        emit (mkWookEvent (ID instance) (DataContacts data) t WookContactsUpsert)
             (Url (Webhook instance))
    end.

Definition handleGroupInfoEvent (id : string) (instance : Instance)
    (e : events.GroupInfo) (eventMap : gmap string bool) : M unit :=
  if negb (eventMap_get eventMap "CONTACTS_UPSERT") then mret tt
  else if GroupsIgnore instance then mret tt
  else
    data ← convertGroupInfo id e;
    match data with
    | None => zap Debug "failed to convert group info"
    | Some c => t ← now; emitContact instance c t
    end.

Definition handlePushNameEvent (id : string) (instance : Instance)
    (e : events.PushName_) (eventMap : gmap string bool) : M unit :=
  if negb (eventMap_get eventMap "CONTACTS_UPSERT") then mret tt
  else if canIgnoreGroup W (events.EvPushName e) instance then mret tt
  else
    data ← convertPushName id e;
    match data with
    | None => zap Error_ "failed to convert pushname"
    | Some c => t ← now; emitContact instance c t
    end.

(** The body of the goroutine [Handle(id)] starts for an event; the slot
    of [handlerSemaphore] taken before and given back after is not part
    of the model. *)
Definition Handle (id : string) (evt : events.Event) : M unit :=
  instance ← getInstanceCached id;
  match instance with
  | None => zap Warn "no instance found for event"
  | Some instance =>
      let eventMap := make_eventMap (Events (Webhook instance)) in
      match evt with
      | events.LoggedOut => handleLoggedOut id
      | events.EvMessage e => handleMessageEvent id instance e eventMap
      | events.EvReceipt e => handleReceiptEvent id instance e eventMap
      | events.EvBusinessName e => handleBusinessNameEvent id instance e eventMap
      | events.EvContact e => handleContactEvent id instance e eventMap
      | events.EvPicture e => handlePictureEvent id instance e eventMap
      | events.EvHistorySync e => handleHistorySyncEvent id instance e eventMap
      | events.EvGroupInfo e => handleGroupInfoEvent id instance e eventMap
      | events.EvPushName e => handlePushNameEvent id instance e eventMap
      | events.EvUnknown _ => zap Debug "unknown event"
      end
  end.

(** *** The goroutines started by [handleMessageEvent] *)

Definition sendDeliveryReceipt (id : string) (e : events.Message) : M unit :=
  cs ← gets clients;
  match cs !! id with
  | None | Some None => mret tt
  | Some client =>
      let info := events.Info e in
      call (CallMarkRead client [events.MsgID info] (events.Timestamp info)
              (events.Chat info) (events.Sender info)
              (Some events.ReceiptTypeDelivered));;
      match rt_MarkRead W client [events.MsgID info] (events.Chat info)
              (events.Sender info) (Some events.ReceiptTypeDelivered) with
      | Some err => zap Debug "failed to send delivery receipt"
      | None => mret tt
      end
  end.

Definition markAsReadAfterDelay (id : string) (e : events.Message)
    (delay : time.Duration) : M unit :=
  Sleep delay;;
  cs ← gets clients;
  match cs !! id with
  | None | Some None => mret tt
  | Some client =>
      let info := events.Info e in
      t ← now;
      call (CallMarkRead client [events.MsgID info] (Some t)
              (events.Chat info) (events.Sender info) None);;
      match rt_MarkRead W client [events.MsgID info] (events.Chat info)
              (events.Sender info) None with
      | Some err => zap Debug "failed to mark message as read"
      | None => mret tt
      end
  end.

Definition run_goroutine (g : Goroutine) : M unit :=
  match g with
  | GoSendDeliveryReceipt id e => sendDeliveryReceipt id e
  | GoMarkAsReadAfterDelay id e delay => markAsReadAfterDelay id e delay
  end.

(** *** Presence scheduler *)

Definition enableAlwaysOnline (id : string) : M unit :=
  modify (fun s => set_alwaysOnlineIDs (<[id := true]> (alwaysOnlineIDs s)) s);;
  zap Info "AlwaysOnline enabled".

Definition disableAlwaysOnline (id : string) : M unit :=
  modify (fun s => set_alwaysOnlineIDs (delete id (alwaysOnlineIDs s)) s);;
  zap Info "AlwaysOnline disabled".

(** The ids [Range] collects: the keys whose value is [true]. *)
Definition alwaysOnlineBatch (m : gmap string bool) : list string :=
  fst <$> filter (fun kv => snd kv = true) (map_to_list m).

(** What the worker started for one id of the batch does. *)
Definition alwaysOnlineWorker (instanceID : string) : M unit :=
  cs ← gets clients;
  match cs !! instanceID with
  | None | Some None =>
      modify (fun s => set_alwaysOnlineIDs
                         (delete instanceID (alwaysOnlineIDs s)) s)
  | Some (Some client) =>
      if negb (IsConnected client) || negb (IsLoggedIn client) then
        zap Debug "Skipping AlwaysOnline - client not connected"
      else
        call (CallSendPresence (Some client));;
        match rt_SendPresence W (Some client) with
        | Some err => zap Debug "Failed to send presence in batch"
        | None => mret tt
        end
  end.

(** The workers of a batch touch disjoint ids; they are run one after
    the other, in the order the ids were collected. *)
Definition processAlwaysOnlineInstances : M unit :=
  m ← gets alwaysOnlineIDs;
  let instanceIDs := alwaysOnlineBatch m in
  match instanceIDs with
  | [] => mret tt
  | _ :: _ =>
      zap Info "Processing AlwaysOnline batch";;
      forM_ instanceIDs alwaysOnlineWorker;;
      zap Info "AlwaysOnline batch completed"
  end.

(** *** Commands *)

Record SendTextReq := mkSendText {
  st_Text : string;
  st_InstanceID : string;
  st_RemoteJID : option JID;
  st_QuoteMessageID : string;
  st_QuoteMessage : string
}.

Record SendAudioRequest := mkSendAudio {
  sa_AudioURL : string;
  sa_InstanceID : string;
  sa_RemoteJID : option JID;
  sa_ViewOnce : bool
}.

Record SendMediaRequest := mkSendMedia {
  sm_InstanceID : string;
  sm_MediaURL : string;
  sm_Caption : string;
  sm_FileName : string;
  sm_RemoteJID : option JID;
  sm_Mimetype : string;
  sm_ViewOnce : bool
}.

Record SendReactionRequest := mkSendReaction {
  sr_InstanceID : string;
  sr_Reaction : string;
  sr_RemoteJID : option JID;
  sr_MessageID : string;
  sr_FromMe : bool
}.

Record SendMissedCallRequest := mkSendMissedCall {
  mc_InstanceID : string;
  mc_RemoteJID : option JID;
  mc_VideoCall : bool
}.

Record ReadMessageRequest := mkReadMessage {
  rm_MessageIDs : list string;
  rm_InstanceID : string;
  rm_RemoteJID : option JID;
  rm_Sender : option JID
}.

Record ChatPresenceRequest := mkChatPresence {
  cp_InstanceID : string;
  cp_RemoteJID : option JID;
  cp_Presence : string;
  cp_Media : string
}.

Record DeleteChatRequest := mkDeleteChat {
  dc_InstanceID : string;
  dc_RemoteJID : option JID
}.

Record ArchiveChatRequest := mkArchiveChat {
  ac_InstanceID : string;
  ac_RemoteJID : option JID;
  ac_Archive : bool
}.

(** [*p] for a pointer that may be nil. *)
Definition deref {A} (p : option A) : M A :=
  match p with
  | Some a => mret a
  | None => panic "invalid memory address or nil pointer dereference"
  end.

Definition sendMessage (client : ClientPtr) (to : JID) (m : OutMessage)
    : M (result SendResponse) :=
  call (CallSendMessage client to m);;
  mret (rt_SendMessage W client to m).

Definition upload (client : ClientPtr) (bytes : string) (kind : MediaType)
    : M (result UploadResponse) :=
  call (CallUpload client bytes kind);;
  mret (rt_Upload W client bytes kind).

Definition fetch (url_ : string) : M (result string) :=
  call (CallHttpGet url_);;
  mret (getCtx W url_).

Definition SendText (data : SendTextReq) : M (result SendResponse) :=
  cs ← gets clients;
  match cs !! st_InstanceID data with
  | None => mret (Failure ErrClientIsNil)
  | Some client =>
      let extended := (0 <? String.length (st_QuoteMessage data))%nat &&
                      (0 <? String.length (st_QuoteMessageID data))%nat in
      to ← deref (st_RemoteJID data);
      sendMessage client to (OutText (st_Text data) extended)
  end.

Definition SendAudio (data : SendAudioRequest) : M (result SendResponse) :=
  cs ← gets clients;
  match cs !! sa_InstanceID data with
  | None => mret (Failure ErrClientIsNil)
  | Some client =>
      converted ←
        (if String.prefix "data:audio/ogg" (sa_AudioURL data) ||
            String.prefix "data:audio/opus" (sa_AudioURL data)
         then mret (processBase64Audio W (sa_AudioURL data))
         else
           resAudio ← fetch (sa_AudioURL data);
           match resAudio with
           | Failure err => mret (Failure err)
           | Success dataBytes => mret (convertAudio W dataBytes)
           end);
      match converted with
      | Failure err => mret (Failure err)
      | Success (audioData, waveForm, secs) =>
          uploaded ← upload client audioData MediaAudio;
          match uploaded with
          | Failure err => mret (Failure err)
          | Success up =>
              to ← deref (sa_RemoteJID data);
              sendMessage client to (OutAudio (UploadURL up) (sa_ViewOnce data))
          end
      end
  end.

Definition SendDocument (data : SendMediaRequest) : M (result SendResponse) :=
  cs ← gets clients;
  match cs !! sm_InstanceID data with
  | None => mret (Failure ErrClientIsNil)
  | Some client =>
      resMedia ← fetch (sm_MediaURL data);
      match resMedia with
      | Failure err => mret (Failure err)
      | Success dataBytes =>
          uploaded ← upload client dataBytes MediaDocument;
          match uploaded with
          | Failure err => mret (Failure err)
          | Success up =>
              to ← deref (sm_RemoteJID data);
              sendMessage client to
                (OutDocument (UploadURL up) (sm_Mimetype data)
                             (sm_FileName data) (sm_Caption data))
          end
      end
  end.

Definition SendImage (data : SendMediaRequest) : M (result SendResponse) :=
  cs ← gets clients;
  match cs !! sm_InstanceID data with
  | None => mret (Failure ErrClientIsNil)
  | Some client =>
      loaded ←
        (if String.prefix "data:image/" (sm_MediaURL data)
         then mret (processBase64Image W (sm_MediaURL data))
         else fetch (sm_MediaURL data));
      match loaded with
      | Failure err => mret (Failure err)
      | Success dataBytes =>
          uploaded ← upload client dataBytes MediaImage;
          match uploaded with
          | Failure err => mret (Failure err)
          | Success up =>
              let mimetype :=
                if (sm_Mimetype data =? "")%string then
                  match extractMimetype W dataBytes (UploadURL up) with
                  | Success mt => mt
                  | Failure _ => sm_Mimetype data
                  end
                else sm_Mimetype data in
              to ← deref (sm_RemoteJID data);
              sendMessage client to
                (OutImage (UploadURL up) mimetype (sm_Caption data)
                          (sm_ViewOnce data))
          end
      end
  end.

Definition SendReaction (data : SendReactionRequest) : M (result SendResponse) :=
  cs ← gets clients;
  match cs !! sr_InstanceID data with
  | None => mret (Failure ErrClientIsNil)
  | Some client =>
      if (String.length (sr_Reaction data) <=? 0)%nat then
        mret (Failure (ErrOther "empty reaction"))
      else if (String.length (sr_MessageID data) <=? 0)%nat then
        mret (Failure (ErrOther "invalid message_id"))
      else
        c ← deref client;
        match Store c with
        | None | Some (mkDevice None) =>
            mret (Failure (ErrOther "device is not connected"))
        | Some (mkDevice (Some own)) =>
            to ← deref (sr_RemoteJID data);
            let sender := if sr_FromMe data then own else to in
            sendMessage client to
              (OutReaction to sender (sr_MessageID data) (sr_Reaction data))
        end
  end.

Definition SendVideo (data : SendMediaRequest) : M (result SendResponse) :=
  cs ← gets clients;
  match cs !! sm_InstanceID data with
  | None => mret (Failure ErrClientIsNil)
  | Some client =>
      resMedia ← fetch (sm_MediaURL data);
      match resMedia with
      | Failure err => mret (Failure err)
      | Success dataBytes =>
          uploaded ← upload client dataBytes MediaVideo;
          match uploaded with
          | Failure err => mret (Failure err)
          | Success up =>
              let mimetype :=
                if (sm_Mimetype data =? "")%string then
                  match extractMimetype W dataBytes (UploadURL up) with
                  | Success mt => mt
                  | Failure _ => "video/mp4"
                  end
                else sm_Mimetype data in
              to ← deref (sm_RemoteJID data);
              sendMessage client to
                (OutVideo (UploadURL up) mimetype (sm_Caption data)
                          (sm_ViewOnce data))
          end
      end
  end.

Definition SendMissedCall (data : SendMissedCallRequest)
    : M (result SendResponse) :=
  cs ← gets clients;
  match cs !! mc_InstanceID data with
  | None => mret (Failure ErrClientIsNil)
  | Some client =>
      to ← deref (mc_RemoteJID data);
      sendMessage client to (OutCallLog (mc_VideoCall data))
  end.

Definition ReadMessage (data : ReadMessageRequest) : M (option error) :=
  cs ← gets clients;
  match cs !! rm_InstanceID data with
  | None => mret (Some ErrClientIsNil)
  | Some client =>
      remote ← deref (rm_RemoteJID data);
      let sender := default remote (rm_Sender data) in
      t ← now;
      call (CallMarkRead client (rm_MessageIDs data) (Some t) remote sender None);;
      mret (rt_MarkRead W client (rm_MessageIDs data) remote sender None)
  end.

Definition ChatPresence (data : ChatPresenceRequest) : M (option error) :=
  cs ← gets clients;
  match cs !! cp_InstanceID data with
  | None => mret (Some ErrClientIsNil)
  | Some client =>
      remote ← deref (cp_RemoteJID data);
      call (CallSendChatPresence client remote (cp_Presence data) (cp_Media data));;
      mret (rt_SendChatPresence W client remote (cp_Presence data) (cp_Media data))
  end.

Definition DeleteChat (data : DeleteChatRequest) : M (option error) :=
  cs ← gets clients;
  match cs !! dc_InstanceID data with
  | None => mret (Some ErrClientIsNil)
  | Some client =>
      remote ← deref (dc_RemoteJID data);
      t ← now;
      let patch := BuildDeleteChat remote t in
      call (CallSendAppState client patch);;
      mret (rt_SendAppState W client patch)
  end.

Definition ArchiveChat (data : ArchiveChatRequest) : M (option error) :=
  cs ← gets clients;
  match cs !! ac_InstanceID data with
  | None => mret (Some ErrClientIsNil)
  | Some client =>
      remote ← deref (ac_RemoteJID data);
      t ← now;
      let patch := BuildArchive remote (ac_Archive data) t in
      call (CallSendAppState client patch);;
      mret (rt_SendAppState W client patch)
  end.

(** The commands, as one type, so that a statement can range over them. *)
Inductive Command :=
| CmdSendText (d : SendTextReq)
| CmdSendAudio (d : SendAudioRequest)
| CmdSendImage (d : SendMediaRequest)
| CmdSendVideo (d : SendMediaRequest)
| CmdSendDocument (d : SendMediaRequest)
| CmdSendReaction (d : SendReactionRequest)
| CmdSendMissedCall (d : SendMissedCallRequest)
| CmdReadMessage (d : ReadMessageRequest)
| CmdChatPresence (d : ChatPresenceRequest)
| CmdDeleteChat (d : DeleteChatRequest)
| CmdArchiveChat (d : ArchiveChatRequest).

Definition instanceOf (c : Command) : string :=
  match c with
  | CmdSendText d => st_InstanceID d
  | CmdSendAudio d => sa_InstanceID d
  | CmdSendImage d | CmdSendVideo d | CmdSendDocument d => sm_InstanceID d
  | CmdSendReaction d => sr_InstanceID d
  | CmdSendMissedCall d => mc_InstanceID d
  | CmdReadMessage d => rm_InstanceID d
  | CmdChatPresence d => cp_InstanceID d
  | CmdDeleteChat d => dc_InstanceID d
  | CmdArchiveChat d => ac_InstanceID d
  end.

Definition errorOf {A} (r : result A) : option error :=
  match r with Success _ => None | Failure e => Some e end.

(** Run a command and keep the error it returns to its caller. *)
Definition runCommand (c : Command) : M (option error) :=
  match c with
  | CmdSendText d => r ← SendText d; mret (errorOf r)
  | CmdSendAudio d => r ← SendAudio d; mret (errorOf r)
  | CmdSendImage d => r ← SendImage d; mret (errorOf r)
  | CmdSendVideo d => r ← SendVideo d; mret (errorOf r)
  | CmdSendDocument d => r ← SendDocument d; mret (errorOf r)
  | CmdSendReaction d => r ← SendReaction d; mret (errorOf r)
  | CmdSendMissedCall d => r ← SendMissedCall d; mret (errorOf r)
  | CmdReadMessage d => ReadMessage d
  | CmdChatPresence d => ChatPresence d
  | CmdDeleteChat d => DeleteChat d
  | CmdArchiveChat d => ArchiveChat d
  end.
End Whatsmiau.

(** ** Content policy *)

Definition GroupServer : string := "g.us".
Definition BroadcastServer : string := "broadcast".

(** The chat an event concerns, for the kinds that concern one. *)
Definition chatOf (e : events.Event) : option JID :=
  match e with
  | events.EvMessage m => Some (events.Chat (events.Info m))
  | events.EvReceipt r => Some (events.RChat r)
  | events.EvContact c => Some (events.CJID c)
  | events.EvPushName p => Some (events.PNJID p)
  | _ => None
  end.

(** Modelled from the spec: [canIgnoreGroup] is declared in a file of the
    package that is not at hand.  It is the only one of the two policy
    helpers that receives the instance, so it carries the two rules that
    depend on a flag: "drop if the event concerns a group chat and the
    instance has group-skip enabled" and "drop if it is a self-sent message
    and own-message-skip is enabled". *)
Definition canIgnoreGroup_spec (e : events.Event) (instance : Instance) : bool :=
  (GroupsIgnore instance &&
   match chatOf e with
   | Some chat => (Server chat =? GroupServer)%string
   | None => false
   end)
  || (SkipOwnMessages instance &&
      match e with
      | events.EvMessage m => events.IsFromMe (events.Info m)
      | _ => false
      end).

(** Modelled from the spec: [canIgnoreMessage] is declared in a file of the
    package that is not at hand.  It carries the rules that need no flag:
    "drop if it concerns a broadcast/status chat" and "drop events lacking
    required fields (e.g. an empty message body after unwrapping)". *)
Definition canIgnoreMessage_spec (e : events.Message) : bool :=
  (Server (events.Chat (events.Info e)) =? BroadcastServer)%string
  || match events.Message_ e with
     | None => true
     | Some _ => false
     end.

(** A world whose policy helpers are the two above. *)
Definition withSpecPolicy (W : World) : World :=
  mkWorld (repo_List W) (json_Marshal W) (NewRequest_ok W) (http_Do W)
          (http_Get W) (deleteDeviceIfExists W) (rt_MarkRead W)
          (rt_SendPresence W) (rt_SendChatPresence W) (rt_SendMessage W)
          (rt_Upload W) (rt_SendAppState W) (rt_GetProfilePictureInfo W)
          (rt_DownloadToFile W) (UnwrapRaw W) (GetJidLid W)
          canIgnoreGroup_spec canIgnoreMessage_spec
          (getCtx W) (processBase64Audio W) (convertAudio W)
          (processBase64Image W) (extractMimetype W) (extractExtFromFile W)
          (ParseJID W) (TrimSpace W) (EncodeToString W) (NewString W)
          (CreateTemp_ok W) (fileStorage W).

(** ** Observations on a run *)

(** The subscription name each handler looks up before it emits a payload
    of a kind. *)
Definition subscriptionKey (k : WookEventType) : string :=
  match k with
  | WookMessagesUpsert => "MESSAGES_UPSERT"
  | WookMessagesUpdate => "MESSAGES_UPDATE"
  | WookContactsUpsert => "CONTACTS_UPSERT"
  | WookConnectionUpdate => "CONNECTION_UPDATE"
  end.

(** The kind of payload [Handle] produces for a raw event. *)
Definition kindOf (e : events.Event) : option WookEventType :=
  match e with
  | events.LoggedOut => Some WookConnectionUpdate
  | events.EvMessage _ => Some WookMessagesUpsert
  | events.EvReceipt _ => Some WookMessagesUpdate
  | events.EvBusinessName _ | events.EvContact _ | events.EvPicture _
  | events.EvHistorySync _ | events.EvGroupInfo _ | events.EvPushName _ =>
      Some WookContactsUpsert
  | events.EvUnknown _ => None
  end.

Definition isRepoList (c : Call) : bool :=
  match c with CallRepoList _ => true | _ => false end.

Definition isHttpPost (c : Call) : bool :=
  match c with CallHttpPost _ _ => true | _ => false end.

(** How many lookups the repository has served so far. *)
Definition lookups (s : State) : nat := length (List.filter isRepoList (calls s)).

(** An attempt fails: transport error, or a status other than 200. *)
Definition failedAttempt (r : result HttpResponse) : Prop :=
  match r with
  | Failure _ => True
  | Success resp => StatusCode resp ≠ StatusOK
  end.

(** The calls a delivery makes when attempts [0 .. k] are sent: a POST,
    then for each retry the pause and the next POST. *)
Definition deliverySchedule (url_ body : string) (k : nat) : list Call :=
  CallHttpPost url_ body ::
  flat_map (fun d => [CallSleep d; CallHttpPost url_ body]) (take k retryDelays).

(** Running every goroutine that was started, oldest first. *)
Definition run_goroutines (W : World) : M unit :=
  gs ← gets goroutines;
  modify (set_goroutines []);;
  forM_ gs (run_goroutine W).

(** The operations that act on a [*Whatsmiau], as steps of one system. *)
Inductive Op :=
| OpHandle (id : string) (evt : events.Event)
| OpEmitterTurn
| OpGoroutines
| OpEnableAlwaysOnline (id : string)
| OpDisableAlwaysOnline (id : string)
| OpSchedulerTick
| OpCommand (c : Command)
| OpTime (t : Z).

Definition step (W : World) (op : Op) (s : State) : State :=
  match op with
  | OpHandle id evt => final (Handle W id evt s)
  | OpEmitterTurn => final (startEmitter_turn W s)
  | OpGoroutines => final (run_goroutines W s)
  | OpEnableAlwaysOnline id => final (enableAlwaysOnline id s)
  | OpDisableAlwaysOnline id => final (disableAlwaysOnline id s)
  | OpSchedulerTick => final (processAlwaysOnlineInstances W s)
  | OpCommand c => final (runCommand W c s)
  | OpTime t => set_clock t s
  end.

(** [evolves R m]: whatever [m] does, and however it ends, the state it
    leaves is related by [R] to the state it started from. *)
Definition evolves (R : relation State) {A} (m : M A) : Prop :=
  ∀ s, R s (final (m s)).

(** The part of the state that routing decisions rest on, left alone by
    computations that only log, call collaborators or let time pass. *)
Definition sameCore (s s' : State) : Prop :=
  emitter_chan s' = emitter_chan s ∧ goroutines s' = goroutines s ∧
  clients s' = clients s ∧ alwaysOnlineIDs s' = alwaysOnlineIDs s ∧
  instanceCache s' = instanceCache s.

(** The channel only grew, and by tasks that satisfy [P]. *)
Definition emits (P : emitter -> Prop) (s s' : State) : Prop :=
  ∃ q, emitter_chan s' = emitter_chan s ++ q ∧ Forall P q.

(** A task that passed the subscription filter of [instance]: its payload
    is of kind [k], the instance subscribed to the name of that kind, and
    the task is addressed to the instance's webhook. *)
Definition approved (instance : Instance) (k : WookEventType) (task : emitter)
    : Prop :=
  WEvent (data task) = k ∧
  subscriptionKey k ∈ Events (Webhook instance) ∧
  url task = Url (Webhook instance) ∧
  WInstance (data task) = ID instance.

(** ** A small world and state to run the model on *)

Definition quietWorld : World :=
  mkWorld (fun _ => Success []) (fun _ => Success "{}") (fun _ => true)
          (fun _ _ _ => Success (mkResponse 200 (Success "ok")))
          (fun _ => Success "")
          (fun _ => None) (fun _ _ _ _ _ => None) (fun _ => None)
          (fun _ _ _ _ => None)
          (fun _ _ _ => Success (mkSendResponse "id" 0))
          (fun _ _ _ => Success (mkUploadResponse "u"))
          (fun _ _ => None) (fun _ _ => Success None)
          (fun _ _ => Success "")
          (fun e => e) (fun _ jid => (User jid ++ "@" ++ Server jid, "")%string)
          (fun _ _ => false) (fun _ => false)
          (fun _ => Success "") (fun _ => Success ("", "", 0%Z))
          (fun _ => Success ("", "", 0%Z)) (fun _ => Success "")
          (fun _ _ => Success "") (fun _ _ _ => "bin")
          (fun j => Success (mkJID j "s.whatsapp.net")) (fun x => x)
          (fun x => x) (fun _ => "uuid") true None.

Definition withRepo (f : string -> result (list Instance)) (W : World) : World :=
  mkWorld f (json_Marshal W) (NewRequest_ok W) (http_Do W)
          (http_Get W) (deleteDeviceIfExists W) (rt_MarkRead W)
          (rt_SendPresence W) (rt_SendChatPresence W) (rt_SendMessage W)
          (rt_Upload W) (rt_SendAppState W) (rt_GetProfilePictureInfo W)
          (rt_DownloadToFile W) (UnwrapRaw W) (GetJidLid W)
          (canIgnoreGroup W) (canIgnoreMessage W)
          (getCtx W) (processBase64Audio W) (convertAudio W)
          (processBase64Image W) (extractMimetype W) (extractExtFromFile W)
          (ParseJID W) (TrimSpace W) (EncodeToString W) (NewString W)
          (CreateTemp_ok W) (fileStorage W).

Definition withDestination (f : string -> string -> nat -> result HttpResponse)
    (W : World) : World :=
  mkWorld (repo_List W) (json_Marshal W) (NewRequest_ok W) f
          (http_Get W) (deleteDeviceIfExists W) (rt_MarkRead W)
          (rt_SendPresence W) (rt_SendChatPresence W) (rt_SendMessage W)
          (rt_Upload W) (rt_SendAppState W) (rt_GetProfilePictureInfo W)
          (rt_DownloadToFile W) (UnwrapRaw W) (GetJidLid W)
          (canIgnoreGroup W) (canIgnoreMessage W)
          (getCtx W) (processBase64Audio W) (convertAudio W)
          (processBase64Image W) (extractMimetype W) (extractExtFromFile W)
          (ParseJID W) (TrimSpace W) (EncodeToString W) (NewString W)
          (CreateTemp_ok W) (fileStorage W).

Definition emptyState : State :=
  mkState (cache.mkCache (5 * time.Minute)%Z ∅) ∅ ∅ [] [] [] [] 0%Z.

Definition allEvents : list string :=
  ["MESSAGES_UPSERT"; "MESSAGES_UPDATE"; "CONTACTS_UPSERT"; "CONNECTION_UPDATE"].

Definition acme (evs : list string) : Instance :=
  mkInstance "acme" (mkWebhook "http://hook" evs None)
             false false false false false false.

Definition alice : JID := mkJID "5511999990000" "s.whatsapp.net".

Definition helloFrom (fromMe : bool) : events.Message :=
  events.mkMessage
    (events.mkInfo alice alice fromMe "MSG1" (Some 1700000000%Z) "Alice")
    (Some (events.mkWAMessage None None None None None None None None "hello" None)).

Definition phone : Client := mkClient 1 true true (Some (mkDevice (Some alice))).

Definition closeNotice : emitter :=
  mkEmitter "http://hook"
    (mkWookEvent "acme" (DataConnection "close") 0%Z WookConnectionUpdate).

(** A destination that answers 500 whatever it is sent. *)
Definition always500 : string -> string -> nat -> result HttpResponse :=
  fun _ _ _ => Success (mkResponse 500 (Success "internal error")).

(** A destination that answers 500 to the first POST of a task and 200 to
    those that follow. *)
Definition okOnSecond : string -> string -> nat -> result HttpResponse :=
  fun _ _ attempt =>
    match attempt with
    | O => Success (mkResponse 500 (Success "internal error"))
    | S _ => Success (mkResponse 200 (Success "ok"))
    end.

(** An instance with every policy flag off except own-message-skip. *)
Definition acmeSkipOwn : Instance :=
  mkInstance "acme" (mkWebhook "http://hook" allEvents None)
             false false false true false false.

(** The registry with one live session, for instance "acme". *)
Definition oneSession : State := set_clients {[ "acme" := Some phone ]} emptyState.

(** The receipt goroutines [handleMessageEvent] starts for a message it
    forwards: the delivery receipt for every inbound message, the read
    receipt eight seconds later when the instance reads messages. *)
Definition receiptsFor (id : string) (instance : Instance) (e : events.Message)
    : list Goroutine :=
  let inbound :=
    negb (events.IsFromMe (events.Info e)) &&
    negb (Server (events.Chat (events.Info e)) =? "broadcast")%string in
  (if inbound then [GoSendDeliveryReceipt id e] else []) ++
  (if ReadMessages instance && inbound
   then [GoMarkAsReadAfterDelay id e (8 * time.Second)%Z] else []).

(** The notice [emitConnectionUpdate] builds for an instance. *)
Definition connectionNotice (instance : Instance) (status : string) (at_ : Z)
    : emitter :=
  mkEmitter (Url (Webhook instance))
    (mkWookEvent (ID instance) (DataConnection status) at_ WookConnectionUpdate).

(** A session runtime that cannot delete the device it is asked to. *)
Definition withStuckDevice (W : World) : World :=
  mkWorld (repo_List W) (json_Marshal W) (NewRequest_ok W) (http_Do W)
          (http_Get W) (fun _ => Some (ErrOther "database is locked"))
          (rt_MarkRead W)
          (rt_SendPresence W) (rt_SendChatPresence W) (rt_SendMessage W)
          (rt_Upload W) (rt_SendAppState W) (rt_GetProfilePictureInfo W)
          (rt_DownloadToFile W) (UnwrapRaw W) (GetJidLid W)
          (canIgnoreGroup W) (canIgnoreMessage W)
          (getCtx W) (processBase64Audio W) (convertAudio W)
          (processBase64Image W) (extractMimetype W) (extractExtFromFile W)
          (ParseJID W) (TrimSpace W) (EncodeToString W) (NewString W)
          (CreateTemp_ok W) (fileStorage W).

(** The first non-empty string of a list of candidates, in order; the empty
    string when there is none. *)
Fixpoint firstNonEmpty (candidates : list string) : string :=
  match candidates with
  | [] => ""
  | c :: rest => if (c =? "")%string then firstNonEmpty rest else c
  end.

(** The candidate names of each source, in the order the source tries them. *)
Definition contactCandidates (evt : events.Contact) : list string :=
  [events.FirstName evt; events.FullName evt; events.Username evt].

Definition businessCandidates (evt : events.BusinessName) : list string :=
  [events.NewBusinessName evt; events.OldBusinessName evt] ++
  match events.BMessage evt with
  | None => []
  | Some m =>
      events.BPushName m ::
      match events.BVerifiedName m with
      | Some (events.mkVerifiedName (Some verified)) => [verified]
      | _ => []
      end
  end.

Definition pushNameCandidates (evt : events.PushName_) : list string :=
  [events.NewPushName evt; events.OldPushName evt].

Definition conversationCandidates (cv : events.Conversation_) : list string :=
  [events.CvName cv; events.CvDisplayName cv; events.CvUsername cv].

(** A push-name event that only carries the previous name. *)
Definition renamedAway : events.PushName_ := events.mkPushName alice "Alice" "".

(** The session handle of an id is gone: nothing is registered for it, or
    what is registered is the nil pointer. *)
Definition sessionGone (s : State) (id : string) : Prop :=
  clients s !! id = None ∨ clients s !! id = Some None.

(** The always-online side-table is as it was. *)
Definition sameFlags (s s' : State) : Prop :=
  alwaysOnlineIDs s' = alwaysOnlineIDs s.

Definition isPresenceFor (s : State) (c : Call) : Prop :=
  ∃ id client,
    c = CallSendPresence (Some client) ∧
    clients s !! id = Some (Some client) ∧
    alwaysOnlineIDs s !! id = Some true ∧
    IsConnected client = true ∧ IsLoggedIn client = true.

(** What the workers of a batch over [ids] may do to a state: the registry
    and the queues stay, a flag is either kept or, for an id of the batch
    whose session is gone, cleared, and the only calls made are presence
    commands to registered, connected sessions of the batch. *)
Definition batchStep (ids : list string) (s s' : State) : Prop :=
  clients s' = clients s ∧
  (∀ id, alwaysOnlineIDs s' !! id = alwaysOnlineIDs s !! id ∨
         (alwaysOnlineIDs s' !! id = None ∧ id ∈ ids ∧ sessionGone s id)) ∧
  ∃ added, calls s' = calls s ++ added ∧
           Forall (fun c => ∃ id client,
                      c = CallSendPresence (Some client) ∧ id ∈ ids ∧
                      clients s !! id = Some (Some client) ∧
                      IsConnected client = true ∧ IsLoggedIn client = true)
                  added.

(** A registry where "acme" is flagged always-online but has no session,
    and "globex" is flagged and connected. *)
Definition office : Client := mkClient 2 true true (Some (mkDevice None)).

Definition twoFlags : State :=
  set_alwaysOnlineIDs {[ "acme" := true; "globex" := true ]}
    (set_clients {[ "globex" := Some office ]} emptyState).

(** A text for an instance nobody registered a session for. *)
Definition textToNobody : Command :=
  CmdSendText (mkSendText "hi" "ghost" (Some alice) "" "").


(** ** The rest of the package *)

(** [getInstance]: the lookup without the cache in front; it asks the
    repository every time and stores what it finds. *)
Definition getInstance (W : World) (id : string) : M (option Instance) :=
  call (CallRepoList id);;
  match repo_List W id with
  | Failure err =>
      zap Panic_ "failed to get instanceCached by instance";;
      panic "failed to get instanceCached by instance"
  | Success res =>
      match res with
      | [] =>
          zap Warn "no instanceCached found by instance";;
          mret None
      | r0 :: _ =>
          t ← now;
          modify (fun s => set_instanceCache
                    (cache.Set_ (instanceCache s) id r0
                                cache.DefaultExpiration t) s);;
          mret (Some r0)
      end
  end.

(** [strings.Join(parts, sep)], the inverse of [Split]. *)
Fixpoint Join (parts : list string) (sep : string) : string :=
  match parts with
  | [] => ""
  | [p] => p
  | p :: rest => (p ++ sep ++ Join rest sep)%string
  end.

(** The byte [c] occurs in [s]. *)
Fixpoint contains (c : ascii) (s : string) : bool :=
  match s with
  | EmptyString => false
  | String x rest => Ascii.eqb x c || contains c rest
  end.

(** What a receipt goroutine asks of the runtime for a message. *)
Definition deliveryReceiptCall (client : ClientPtr) (e : events.Message) : Call :=
  CallMarkRead client [events.MsgID (events.Info e)]
    (events.Timestamp (events.Info e)) (events.Chat (events.Info e))
    (events.Sender (events.Info e)) (Some events.ReceiptTypeDelivered).

Definition readReceiptCall (client : ClientPtr) (e : events.Message) (at_ : Z)
    : Call :=
  CallMarkRead client [events.MsgID (events.Info e)] (Some at_)
    (events.Chat (events.Info e)) (events.Sender (events.Info e)) None.


Definition isSendMessage (c : Call) : bool :=
  match c with CallSendMessage _ _ _ => true | _ => false end.

Definition isSleep (c : Call) : bool :=
  match c with CallSleep _ => true | _ => false end.

Definition isStorageUpload (c : Call) : bool :=
  match c with CallStorageUpload _ _ => true | _ => false end.

(** The status a receipt type is reported with, if it is reported. *)
Definition receiptStatus (t : events.ReceiptType) : option WookMessageUpdateStatus :=
  match t with
  | events.ReceiptTypeRead => Some MessageStatusRead
  | events.ReceiptTypeDelivered => Some MessageStatusDeliveryAck
  | events.ReceiptTypeOther _ => None
  end.

(** The message types [parseWAMessage] can answer. *)
Definition messageTypes : list string :=
  [ "reactionMessage"; "listResponseMessage"; "imageMessage"; "audioMessage";
    "documentMessage"; "videoMessage"; "contactMessage"; "contactsArrayMessage";
    "conversation"; "unknown" ].

Definition mediaTypes : list string :=
  [ "imageMessage"; "audioMessage"; "documentMessage"; "videoMessage" ].

(** A contact fit to be sent: it has a name, the name is not a chat
    identifier, and it belongs to the instance. *)
Definition presentable (id : string) (c : WookContact) : Prop :=
  CPushName c ≠ "" ∧ isChatIdentifier (CPushName c) = false ∧ CInstanceId c = id.

(** A cache that holds a stale snapshot of "acme". *)
Definition staleCache : State :=
  set_instanceCache
    (cache.mkCache (5 * time.Minute)%Z
       {[ "acme" := cache.mkItem (acme []) 0%Z ]})
    emptyState.

(** "acme" is connected and flagged always-online. *)
Definition acmeOnline : State :=
  set_alwaysOnlineIDs {[ "acme" := true ]} oneSession.

(** A call of a delivery: a POST of [body] to [url_], or one of the pauses
    of the retry schedule. *)
Definition isDeliveryCall (url_ body : string) (c : Call) : Prop :=
  c = CallHttpPost url_ body ∨ ∃ d, c = CallSleep d ∧ d ∈ retryDelays.

(** "globex" is registered and flagged, but its session is not connected. *)
Definition offline : Client := mkClient 3 false true (Some (mkDevice None)).

Definition globexOffline : State :=
  set_alwaysOnlineIDs {[ "globex" := true ]}
    (set_clients {[ "globex" := Some offline ]} emptyState).

(** The commands that send a message. *)
Definition isSendCommand (c : Command) : bool :=
  match c with
  | CmdSendText _ | CmdSendAudio _ | CmdSendImage _ | CmdSendVideo _
  | CmdSendDocument _ | CmdSendReaction _ | CmdSendMissedCall _ => true
  | _ => false
  end.


(** ** The HTTP controllers of [server/controllers/message.go]

    A controller binds the request body, validates it, resolves the
    number to a JID, runs a command of the package and answers.  The
    request DTOs keep the fields the controllers read; [ctx.Bind], the
    validator, [numberToJid] and the emoji pattern are collaborators. *)

Definition time_Millisecond : time.Duration := 1000000%Z.

(** An int64 product, wrapped as the machine does. *)
Definition int64 (z : Z) : Z := ((z + 2 ^ 63) mod 2 ^ 64 - 2 ^ 63)%Z.

(** [time.Sleep] for a duration that is not known to be positive: a zero
    or negative duration returns at once. *)
Definition time_Sleep (d : time.Duration) : M unit :=
  call (CallSleep d);;
  modify (fun s => set_clock (clock s + Z.max 0 d)%Z s).

(** [t.Unix()] and [t.UnixMicro()] of an instant in nanoseconds. *)
Definition Unix (t : Z) : Z := (t / 1000000000)%Z.
Definition UnixMicro (t : Z) : Z := (t / 1000)%Z.

Definition StatusBadRequest : Z := 400%Z.
Definition StatusUnprocessableEntity : Z := 422%Z.
Definition StatusInternalServerError : Z := 500%Z.

Definition ChatPresenceComposing : string := "composing".
Definition ChatPresenceMediaAudio : string := "audio".

Module dto.
Record QuotedMessage := mkQuoted {
  KeyId : string;               (* Quoted.Key.Id *)
  Conversation : string         (* Quoted.Message.Conversation *)
}.

Record SendTextRequest := mkSendTextRequest {
  text_Number : string;
  text_Text : string;
  text_InstanceID : string;
  text_Quoted : option QuotedMessage;
  text_Delay : Z
}.

Record SendAudioRequest := mkSendAudioRequest {
  audio_Number : string;
  audio_Audio : string;
  audio_InstanceID : string;
  audio_ViewOnce : bool;
  audio_Quoted : option QuotedMessage;
  audio_Delay : Z
}.

Record SendDocumentRequest := mkSendDocumentRequest {
  doc_Number : string;
  doc_InstanceID : string;
  doc_Media : string;
  doc_Caption : string;
  doc_FileName : string;
  doc_Mimetype : string;
  doc_Delay : Z;
  doc_ViewOnce : bool
}.

Record SendMediaRequest := mkSendMediaRequest {
  Mediatype : string;
  Document : SendDocumentRequest     (* the embedded SendDocumentRequest *)
}.

Record SendVideoRequest := mkSendVideoRequest {
  video_Number : string;
  video_InstanceID : string;
  video_Video : string;
  video_Caption : string;
  video_Mimetype : string;
  video_Delay : Z;
  video_ViewOnce : bool
}.

Record SendReactionRequest := mkSendReactionRequest {
  reaction_InstanceID : string;
  reaction_Reaction : string;
  reaction_KeyRemoteJid : string;
  reaction_KeyId : string;
  reaction_KeyFromMe : bool
}.

Record SendMissedCallRequest := mkSendMissedCallRequest {
  call_Number : string;
  call_InstanceID : string;
  call_VideoCall : bool
}.

(** The answer of a successful send: the response DTOs share these
    fields; [RConversation] is set by the text controller only. *)
Record MessageResponse := mkMessageResponse {
  KeyRemoteJid : string;
  KeyFromMe : bool;
  KeyID : string;
  Status : string;
  RConversation : option string;
  MessageType : string;
  MessageTimestamp : Z;
  InstanceId : string
}.
End dto.

(** What a controller answers: [utils.HTTPFail(ctx, code, err, message)]
    or [ctx.JSON(code, body)]. *)
Inductive Reply :=
| HTTPFail (code : Z) (err : option error) (message : string)
| JSON (code : Z) (body : dto.MessageResponse).

Definition statusOf (r : Reply) : Z :=
  match r with HTTPFail code _ _ => code | JSON code _ => code end.

(** What [sendVideo] is handed as its [interface{}] argument. *)
Inductive VideoInput :=
| OfVideoRequest (req : dto.SendVideoRequest)
| OfDocumentRequest (req : dto.SendDocumentRequest)
| OfOther.

(** [request.Quoted != nil && len(Key.Id) > 0 && len(Conversation) > 0] *)
Definition quotes (q : option dto.QuotedMessage) : bool :=
  match q with
  | Some q => (0 <? String.length (dto.KeyId q))%nat &&
              (0 <? String.length (dto.Conversation q))%nat
  | None => false
  end.

Module controllers.
Section Message.
Variable W : World.
(* [numberToJid]: a [*types.JID] and an error *)
Variable numberToJid : string -> result (option JID).
(* [validator.New().Struct(&request)], for each request type *)
Variable Struct_text : dto.SendTextRequest -> option error.
Variable Struct_audio : dto.SendAudioRequest -> option error.
Variable Struct_media : dto.SendMediaRequest -> option error.
Variable Struct_document : dto.SendDocumentRequest -> option error.
Variable Struct_video : dto.SendVideoRequest -> option error.
Variable Struct_reaction : dto.SendReactionRequest -> option error.
Variable Struct_missedCall : dto.SendMissedCallRequest -> option error.
(* [emojiRegex.MatchString] *)
Variable emojiRegex_MatchString : string -> bool.

Local Abbreviation whatsmiau_ChatPresence := (ChatPresence W).
Local Abbreviation whatsmiau_SendText := (SendText W).
Local Abbreviation whatsmiau_SendAudio := (SendAudio W).
Local Abbreviation whatsmiau_SendDocument := (SendDocument W).
Local Abbreviation whatsmiau_SendImage := (SendImage W).
Local Abbreviation whatsmiau_SendVideo := (SendVideo W).
Local Abbreviation whatsmiau_SendReaction := (SendReaction W).
Local Abbreviation whatsmiau_SendMissedCall := (SendMissedCall W).

Definition sent (number id_ : string) (conversation : option string)
    (messageType : string) (timestamp : Z) (instanceID : string) : Reply :=
  JSON StatusOK
    (dto.mkMessageResponse number true id_ "sent" conversation messageType
                           timestamp instanceID).

(** The body is what [ctx.Bind] made of the request. *)
Definition SendText (body : result dto.SendTextRequest) : M Reply :=
  match body with
  | Failure err =>
      mret (HTTPFail StatusUnprocessableEntity (Some err) "failed to bind request body")
  | Success request =>
      match Struct_text request with
      | Some err => mret (HTTPFail StatusBadRequest (Some err) "invalid request body")
      | None =>
          match numberToJid (dto.text_Number request) with
          | Failure err =>
              zap Error_ "error converting number to jid";;
              mret (HTTPFail StatusBadRequest (Some err) "invalid number format")
          | Success jid =>
              let quoted := quotes (dto.text_Quoted request) in
              let sendText :=
                mkSendText (dto.text_Text request) (dto.text_InstanceID request) jid
                  (if quoted then from_option dto.KeyId "" (dto.text_Quoted request)
                   else "")
                  (if quoted
                   then from_option dto.Conversation "" (dto.text_Quoted request)
                   else "") in
              err ← whatsmiau_ChatPresence
                      (mkChatPresence (dto.text_InstanceID request) jid
                                      ChatPresenceComposing "");
              match err with
              | Some _ => zap Error_ "Whatsmiau.ChatPresence"
              | None =>
                  time_Sleep (int64 (time_Millisecond * dto.text_Delay request))
              end;;
              res ← whatsmiau_SendText sendText;
              match res with
              | Failure err =>
                  zap Error_ "Whatsmiau.SendText failed";;
                  mret (HTTPFail StatusInternalServerError (Some err)
                                 "failed to send text")
              | Success res =>
                  mret (sent (dto.text_Number request) (RespID res)
                             (Some (dto.text_Text request)) "conversation"
                             (Unix (RespTimestamp res) ÷ 1000)
                             (dto.text_InstanceID request))
              end
          end
      end
  end.

(** The quoted message the controller copies into the command is not read
    by [whatsmiau.SendAudio]; the command record has no field for it. *)
Definition SendAudio (body : result dto.SendAudioRequest) : M Reply :=
  match body with
  | Failure err =>
      mret (HTTPFail StatusUnprocessableEntity (Some err) "failed to bind request body")
  | Success request =>
      match Struct_audio request with
      | Some err => mret (HTTPFail StatusBadRequest (Some err) "invalid request body")
      | None =>
          match numberToJid (dto.audio_Number request) with
          | Failure err =>
              zap Error_ "error converting number to jid";;
              mret (HTTPFail StatusBadRequest (Some err) "invalid number format")
          | Success jid =>
              let sendText :=
                mkSendAudio (dto.audio_Audio request) (dto.audio_InstanceID request)
                            jid (dto.audio_ViewOnce request) in
              err ← whatsmiau_ChatPresence
                      (mkChatPresence (dto.audio_InstanceID request) jid
                                      ChatPresenceComposing ChatPresenceMediaAudio);
              match err with
              | Some _ => zap Error_ "Whatsmiau.ChatPresence"
              | None =>
                  time_Sleep (int64 (time_Millisecond * dto.audio_Delay request))
              end;;
              res ← whatsmiau_SendAudio sendText;
              match res with
              | Failure err =>
                  zap Error_ "Whatsmiau.SendAudioRequest failed";;
                  mret (HTTPFail StatusInternalServerError (Some err)
                                 "failed to send audio")
              | Success res =>
                  mret (sent (dto.audio_Number request) (RespID res) None
                             "audioMessage" (Unix (RespTimestamp res) ÷ 1000)
                             (dto.audio_InstanceID request))
              end
          end
      end
  end.

Definition sendDocument (request : dto.SendDocumentRequest) : M Reply :=
  match numberToJid (dto.doc_Number request) with
  | Failure err =>
      zap Error_ "error converting number to jid";;
      mret (HTTPFail StatusBadRequest (Some err) "invalid number format")
  | Success jid =>
      let sendData :=
        mkSendMedia (dto.doc_InstanceID request) (dto.doc_Media request)
                    (dto.doc_Caption request) (dto.doc_FileName request) jid
                    (dto.doc_Mimetype request) false in
      time_Sleep (int64 (time_Millisecond * dto.doc_Delay request));;
      res ← whatsmiau_SendDocument sendData;
      match res with
      | Failure err =>
          zap Error_ "Whatsmiau.SendDocument failed";;
          mret (HTTPFail StatusInternalServerError (Some err)
                         "failed to send document")
      | Success res =>
          mret (sent (dto.doc_Number request) (RespID res) None "documentMessage"
                     (Unix (RespTimestamp res) ÷ 1000)
                     (dto.doc_InstanceID request))
      end
  end.

Definition sendImage (request : dto.SendDocumentRequest) : M Reply :=
  match numberToJid (dto.doc_Number request) with
  | Failure err =>
      zap Error_ "error converting number to jid";;
      mret (HTTPFail StatusBadRequest (Some err) "invalid number format")
  | Success jid =>
      let sendData :=
        mkSendMedia (dto.doc_InstanceID request) (dto.doc_Media request)
                    (dto.doc_Caption request) "" jid
                    (dto.doc_Mimetype request) (dto.doc_ViewOnce request) in
      time_Sleep (int64 (time_Millisecond * dto.doc_Delay request));;
      res ← whatsmiau_SendImage sendData;
      match res with
      | Failure err =>
          zap Error_ "Whatsmiau.SendDocument failed";;
          mret (HTTPFail StatusInternalServerError (Some err)
                         "failed to send document")
      | Success res =>
          mret (sent (dto.doc_Number request) (RespID res) None "imageMessage"
                     (Unix (RespTimestamp res) ÷ 1000)
                     (dto.doc_InstanceID request))
      end
  end.

Definition sendVideo (request : VideoInput) : M Reply :=
  match
    match request with
    | OfVideoRequest req =>
        Some (dto.video_Number req, dto.video_InstanceID req, dto.video_Video req,
              dto.video_Caption req, dto.video_Mimetype req, dto.video_Delay req,
              dto.video_ViewOnce req)
    | OfDocumentRequest req =>
        Some (dto.doc_Number req, dto.doc_InstanceID req, dto.doc_Media req,
              dto.doc_Caption req, dto.doc_Mimetype req, dto.doc_Delay req,
              dto.doc_ViewOnce req)
    | OfOther => None
    end
  with
  | None => mret (HTTPFail StatusBadRequest None "invalid request type")
  | Some (number, instanceID, videoURL, caption, mimetype, delay, viewOnce) =>
      match numberToJid number with
      | Failure err =>
          zap Error_ "error converting number to jid";;
          mret (HTTPFail StatusBadRequest (Some err) "invalid number format")
      | Success jid =>
          let sendData :=
            mkSendMedia instanceID videoURL caption "" jid mimetype viewOnce in
          time_Sleep (int64 (time_Millisecond * delay));;
          res ← whatsmiau_SendVideo sendData;
          match res with
          | Failure err =>
              zap Error_ "Whatsmiau.SendVideo failed";;
              mret (HTTPFail StatusInternalServerError (Some err)
                             "failed to send video")
          | Success res =>
              mret (sent number (RespID res) None "videoMessage"
                         (Unix (RespTimestamp res) ÷ 1000) instanceID)
          end
      end
  end.

Definition withMimetype (mimetype : string) (r : dto.SendDocumentRequest)
    : dto.SendDocumentRequest :=
  dto.mkSendDocumentRequest (dto.doc_Number r) (dto.doc_InstanceID r)
    (dto.doc_Media r) (dto.doc_Caption r) (dto.doc_FileName r) mimetype
    (dto.doc_Delay r) (dto.doc_ViewOnce r).

Definition SendMedia (body : result dto.SendMediaRequest) : M Reply :=
  match body with
  | Failure err =>
      mret (HTTPFail StatusUnprocessableEntity (Some err) "failed to bind request body")
  | Success request =>
      match Struct_media request with
      | Some err => mret (HTTPFail StatusBadRequest (Some err) "invalid request body")
      | None =>
          if (dto.Mediatype request =? "image")%string then
            sendImage (withMimetype "image/png" (dto.Document request))
          else if (dto.Mediatype request =? "video")%string then
            sendVideo (OfDocumentRequest (dto.Document request))
          else sendDocument (dto.Document request)
      end
  end.

Definition SendDocument (body : result dto.SendDocumentRequest) : M Reply :=
  match body with
  | Failure err =>
      mret (HTTPFail StatusUnprocessableEntity (Some err) "failed to bind request body")
  | Success request =>
      match Struct_document request with
      | Some err => mret (HTTPFail StatusBadRequest (Some err) "invalid request body")
      | None => sendDocument request
      end
  end.

Definition SendImage (body : result dto.SendDocumentRequest) : M Reply :=
  match body with
  | Failure err =>
      mret (HTTPFail StatusUnprocessableEntity (Some err) "failed to bind request body")
  | Success request =>
      match Struct_document request with
      | Some err => mret (HTTPFail StatusBadRequest (Some err) "invalid request body")
      | None => sendImage request
      end
  end.

Definition SendVideo (body : result dto.SendVideoRequest) : M Reply :=
  match body with
  | Failure err =>
      mret (HTTPFail StatusUnprocessableEntity (Some err) "failed to bind request body")
  | Success request =>
      match Struct_video request with
      | Some err => mret (HTTPFail StatusBadRequest (Some err) "invalid request body")
      | None => sendVideo (OfVideoRequest request)
      end
  end.

(** When the pattern does not match, [err] is the nil error left by the
    conversion of the number. *)
Definition SendReaction (body : result dto.SendReactionRequest) : M Reply :=
  match body with
  | Failure err =>
      mret (HTTPFail StatusUnprocessableEntity (Some err) "failed to bind request body")
  | Success request =>
      match Struct_reaction request with
      | Some err => mret (HTTPFail StatusBadRequest (Some err) "invalid request body")
      | None =>
          match numberToJid (dto.reaction_KeyRemoteJid request) with
          | Failure err =>
              zap Error_ "error converting number to jid";;
              mret (HTTPFail StatusBadRequest (Some err) "invalid number format")
          | Success jid =>
              if negb (emojiRegex_MatchString (dto.reaction_Reaction request)) then
                mret (HTTPFail StatusBadRequest None
                               "invalid reaction, must be a emoji")
              else
                let sendReaction :=
                  mkSendReaction (dto.reaction_InstanceID request)
                    (dto.reaction_Reaction request) jid
                    (dto.reaction_KeyId request) (dto.reaction_KeyFromMe request) in
                res ← whatsmiau_SendReaction sendReaction;
                match res with
                | Failure err =>
                    zap Error_ "Whatsmiau.SendReaction failed";;
                    mret (HTTPFail StatusInternalServerError (Some err)
                                   "failed to send reaction")
                | Success res =>
                    mret (sent (dto.reaction_KeyRemoteJid request) (RespID res) None
                               "reactionMessage"
                               (UnixMicro (RespTimestamp res) ÷ 1000)
                               (dto.reaction_InstanceID request))
                end
          end
      end
  end.

Definition SendMissedCall (body : result dto.SendMissedCallRequest) : M Reply :=
  match body with
  | Failure err =>
      mret (HTTPFail StatusUnprocessableEntity (Some err) "failed to bind request body")
  | Success request =>
      match Struct_missedCall request with
      | Some err => mret (HTTPFail StatusBadRequest (Some err) "invalid request body")
      | None =>
          match numberToJid (dto.call_Number request) with
          | Failure err =>
              zap Error_ "error converting number to jid";;
              mret (HTTPFail StatusBadRequest (Some err) "invalid number format")
          | Success jid =>
              let missedCallData :=
                mkSendMissedCall (dto.call_InstanceID request) jid
                                 (dto.call_VideoCall request) in
              res ← whatsmiau_SendMissedCall missedCallData;
              match res with
              | Failure err =>
                  zap Error_ "Whatsmiau.SendMissedCall failed";;
                  mret (HTTPFail StatusInternalServerError (Some err)
                                 "failed to send missed call notification")
              | Success res =>
                  mret (sent (dto.call_Number request) (RespID res) None
                             "missedCallNotification"
                             (Unix (RespTimestamp res) ÷ 1000)
                             (dto.call_InstanceID request))
              end
          end
      end
  end.

(** The endpoints, as one type, so that a statement can range over them. *)
Inductive Endpoint :=
| PostSendText (body : result dto.SendTextRequest)
| PostSendAudio (body : result dto.SendAudioRequest)
| PostSendMedia (body : result dto.SendMediaRequest)
| PostSendDocument (body : result dto.SendDocumentRequest)
| PostSendImage (body : result dto.SendDocumentRequest)
| PostSendReaction (body : result dto.SendReactionRequest)
| PostSendVideo (body : result dto.SendVideoRequest)
| PostSendMissedCall (body : result dto.SendMissedCallRequest).

Definition serve (e : Endpoint) : M Reply :=
  match e with
  | PostSendText body => SendText body
  | PostSendAudio body => SendAudio body
  | PostSendMedia body => SendMedia body
  | PostSendDocument body => SendDocument body
  | PostSendImage body => SendImage body
  | PostSendReaction body => SendReaction body
  | PostSendVideo body => SendVideo body
  | PostSendMissedCall body => SendMissedCall body
  end.
End Message.
End controllers.



(** The chat a command is addressed to: its [RemoteJID], a pointer. *)
Definition remoteOf (c : Command) : option JID :=
  match c with
  | CmdSendText d => st_RemoteJID d
  | CmdSendAudio d => sa_RemoteJID d
  | CmdSendImage d | CmdSendVideo d | CmdSendDocument d => sm_RemoteJID d
  | CmdSendReaction d => sr_RemoteJID d
  | CmdSendMissedCall d => mc_RemoteJID d
  | CmdReadMessage d => rm_RemoteJID d
  | CmdChatPresence d => cp_RemoteJID d
  | CmdDeleteChat d => dc_RemoteJID d
  | CmdArchiveChat d => ac_RemoteJID d
  end.

(** A download or an upload of media. *)
Definition isTransfer (c : Call) : bool :=
  match c with
  | CallHttpGet _ | CallUpload _ _ _ => true
  | _ => false
  end.

(** A text for "acme" that names no chat. *)
Definition textToNoChat : Command :=
  CmdSendText (mkSendText "hi" "acme" None "" "").

(** A group whose subject is not part of the event (a change of
    something else). *)
Definition groupTouched : events.GroupInfo :=
  events.mkGroupInfo (mkJID "12036304" "g.us") None.

(** * Properties *)

(** ** Reasoning about runs of the monad *)

Lemma bind_Ok {A B} (m : M A) (f : A -> M B) s a s' :
  m s = Ok a s' -> (m ≫= f) s = f a s'.
Proof. intros H. unfold mbind, M_bind. by rewrite H. Qed.

Lemma bind_Panicked {A B} (m : M A) (f : A -> M B) s why s' :
  m s = Panicked why s' -> (m ≫= f) s = Panicked why s'.
Proof. intros H. unfold mbind, M_bind. by rewrite H. Qed.

Section Evolves.
Context (R : relation State) `{!PreOrder R}.

Lemma evolves_ret {A} (a : A) : evolves R (mret a).
Proof. intros s. simpl. reflexivity. Qed.

Lemma evolves_panic {A} why : evolves R (@panic A why).
Proof. intros s. simpl. reflexivity. Qed.

Lemma evolves_gets {A} (f : State -> A) : evolves R (gets f).
Proof. intros s. simpl. reflexivity. Qed.

Lemma evolves_now : evolves R now.
Proof. apply evolves_gets. Qed.

Lemma evolves_modify f : (∀ s, R s (f s)) -> evolves R (modify f).
Proof. intros H s. apply H. Qed.

Lemma evolves_bind {A B} (m : M A) (f : A -> M B) :
  evolves R m -> (∀ a, evolves R (f a)) -> evolves R (m ≫= f).
Proof.
  intros Hm Hf s. specialize (Hm s).
  unfold mbind, M_bind. destruct (m s) as [a s'|why s']; simpl in *.
  - etransitivity; [exact Hm | apply Hf].
  - exact Hm.
Qed.

Lemma evolves_forM_ {A} (l : list A) (f : A -> M unit) :
  (∀ a, evolves R (f a)) -> evolves R (forM_ l f).
Proof.
  intros Hf. induction l as [|x l IH]; simpl.
  - apply evolves_ret.
  - apply evolves_bind; [apply Hf | intros _; exact IH].
Qed.
End Evolves.

(** One step of a syntactic walk through a computation. *)
Ltac evolve_step :=
  match goal with
  | |- evolves _ (mbind _ _) => apply evolves_bind; [ tc_solve | | intros ? ]
  | |- evolves _ (mret _) => apply evolves_ret; tc_solve
  | |- evolves _ (panic _) => apply evolves_panic; tc_solve
  | |- evolves _ (gets _) => apply evolves_gets; tc_solve
  | |- evolves _ now => apply evolves_now; tc_solve
  | |- evolves _ (forM_ _ _) => apply evolves_forM_; [ tc_solve | intros ? ]
  | |- evolves _ (match ?x with _ => _ end) => destruct x eqn:?
  | |- evolves _ (if ?x then _ else _) => destruct x eqn:?
  | |- evolves _ (let '(_, _) := ?x in _) => destruct x eqn:?
  end.

(** ** Instance cache *)

Lemma cache_Get_Set c k x now_ :
  cache.Get (cache.Set_ c k x cache.DefaultExpiration now_) k now_ = Some x.
Proof.
  unfold cache.Get, cache.Set_. simpl. rewrite lookup_insert_eq. simpl.
  destruct (0 <? cache.defaultExpiration c)%Z eqn:E; simpl; [|done].
  apply Z.ltb_lt in E.
  replace (0 <? now_ + cache.defaultExpiration c)%Z with
    (negb (now_ + cache.defaultExpiration c <=? 0)%Z) by (rewrite Z.leb_antisym; by rewrite negb_involutive).
  destruct (now_ + cache.defaultExpiration c <? now_)%Z eqn:E2.
  - apply Z.ltb_lt in E2. lia.
  - by rewrite andb_false_r.
Qed.

Lemma getInstanceCached_hit W id s instance :
  cache.Get (instanceCache s) id (clock s) = Some instance ->
  getInstanceCached W id s = Ok (Some instance) s.
Proof.
  intros H. unfold getInstanceCached, now, gets, mbind, M_bind. by rewrite H.
Qed.

Lemma getInstanceCached_miss_found W id s r0 rest :
  cache.Get (instanceCache s) id (clock s) = None ->
  repo_List W id = Success (r0 :: rest) ->
  getInstanceCached W id s =
    Ok (Some r0)
       (set_instanceCache
          (cache.Set_ (instanceCache s) id r0 cache.DefaultExpiration (clock s))
          (set_calls (calls s ++ [CallRepoList id]) s)).
Proof.
  intros H Hr. unfold getInstanceCached, now, gets, mbind, M_bind.
  rewrite H. simpl. by rewrite Hr.
Qed.

Lemma getInstanceCached_miss_empty W id s :
  cache.Get (instanceCache s) id (clock s) = None ->
  repo_List W id = Success [] ->
  getInstanceCached W id s =
    Ok None (set_logs (logs s ++ [mkLog Warn "no instanceCached found by instance"])
              (set_calls (calls s ++ [CallRepoList id]) s)).
Proof.
  intros H Hr. unfold getInstanceCached, now, gets, mbind, M_bind.
  rewrite H. simpl. by rewrite Hr.
Qed.

Lemma getInstanceCached_miss_failure W id s err :
  cache.Get (instanceCache s) id (clock s) = None ->
  repo_List W id = Failure err ->
  getInstanceCached W id s =
    Panicked "failed to get instanceCached by instance"
      (set_logs (logs s ++ [mkLog Panic_ "failed to get instanceCached by instance"])
         (set_calls (calls s ++ [CallRepoList id]) s)).
Proof.
  intros H Hr. unfold getInstanceCached, now, gets, mbind, M_bind.
  rewrite H. simpl. by rewrite Hr.
Qed.

(** Once an instance was resolved, resolving it again at the same instant
    gives the same snapshot and changes nothing. *)
Lemma getInstanceCached_again W id s instance s1 :
  getInstanceCached W id s = Ok (Some instance) s1 ->
  getInstanceCached W id s1 = Ok (Some instance) s1.
Proof.
  intros H.
  destruct (cache.Get (instanceCache s) id (clock s)) as [i|] eqn:Hg.
  - rewrite (getInstanceCached_hit _ _ _ _ Hg) in H. inversion H; subst.
    by apply getInstanceCached_hit.
  - destruct (repo_List W id) as [[|r0 rest]|err] eqn:Hr.
    + by rewrite (getInstanceCached_miss_empty _ _ _ Hg Hr) in H.
    + rewrite (getInstanceCached_miss_found _ _ _ _ _ Hg Hr) in H.
      inversion H; subst. apply getInstanceCached_hit. simpl.
      apply cache_Get_Set.
    + by rewrite (getInstanceCached_miss_failure _ _ _ _ Hg Hr) in H.
Qed.

Lemma lookups_app s c :
  lookups (set_calls (calls s ++ [c]) s) = (lookups s + (if isRepoList c then 1 else 0))%nat.
Proof.
  unfold lookups. simpl. rewrite List.filter_app, length_app. simpl.
  by destruct (isRepoList c).
Qed.

(** C3, as the source has it: on a miss or an expired entry, an empty
    answer of the repository gives nil to the caller, a warning in the log
    and no change to the cache; a failure of the repository does not give
    nil: [zap.L().Panic] writes the entry and panics. *)
Theorem getInstanceCached_not_found_or_panic W id s :
  cache.Get (instanceCache s) id (clock s) = None ->
  (repo_List W id = Success [] ->
     ∃ s', getInstanceCached W id s = Ok None s' ∧
           instanceCache s' = instanceCache s ∧
           lookups s' = S (lookups s)) ∧
  (∀ err, repo_List W id = Failure err ->
     ∃ why s', getInstanceCached W id s = Panicked why s' ∧
               instanceCache s' = instanceCache s ∧
               lookups s' = S (lookups s)).
Proof.
  intros Hmiss. split.
  - intros Hr. eexists. split; [by apply getInstanceCached_miss_empty|].
    split; [done|]. unfold lookups. simpl.
    rewrite List.filter_app, length_app. simpl. lia.
  - intros err Hr. do 2 eexists.
    split; [by eapply getInstanceCached_miss_failure|].
    split; [done|]. unfold lookups. simpl.
    rewrite List.filter_app, length_app. simpl. lia.
Qed.

Lemma getInstanceCached_not_found_or_panic_witness :
  cache.Get (instanceCache emptyState) "acme" (clock emptyState) = None ∧
  (∃ s', getInstanceCached quietWorld "acme" emptyState = Ok None s' ∧
         instanceCache s' = instanceCache emptyState ∧
         lookups s' = S (lookups emptyState)).
Proof.
  split; [reflexivity|].
  apply (getInstanceCached_not_found_or_panic quietWorld "acme" emptyState);
    reflexivity.
Defined.

(** C3, as stated, fails: with an empty cache and a repository whose lookup
    fails, the call panics and hands nothing to its caller. *)
Lemma getInstanceCached_lookup_failure_panics :
  ¬ (∀ W id s,
       cache.Get (instanceCache s) id (clock s) = None ->
       (repo_List W id = Success [] ∨ ∃ err, repo_List W id = Failure err) ->
       ∃ s', getInstanceCached W id s = Ok None s').
Proof.
  intros H.
  destruct (H (withRepo (fun _ => Failure (ErrOther "connection refused")) quietWorld)
              "acme" emptyState) as [s' Hs'].
  - reflexivity.
  - right. by eexists.
  - vm_compute in Hs'. discriminate.
Qed.

Lemma cache_Get_fresh c k x now_ t :
  (0 < cache.defaultExpiration c)%Z ->
  cache.items c !! k = Some (cache.mkItem x (now_ + cache.defaultExpiration c)%Z) ->
  (0 <= now_)%Z ->
  cache.Get c k t =
    if (now_ + cache.defaultExpiration c <? t)%Z then None else Some x.
Proof.
  intros Hd Hk Hn. unfold cache.Get. rewrite Hk. simpl.
  replace (0 <? now_ + cache.defaultExpiration c)%Z with true; [done|].
  symmetry. apply Z.ltb_lt. lia.
Qed.

(** The janitor only removes what [Get] already reports as absent: a sweep
    at [t] changes no answer of the cache from [t] on. *)
Lemma cache_Get_DeleteExpired c k t t' :
  (t <= t')%Z ->
  cache.Get (cache.DeleteExpired c t) k t' = cache.Get c k t'.
Proof.
  intros Ht. unfold cache.Get, cache.DeleteExpired. simpl.
  destruct (cache.items c !! k) as [it|] eqn:Hk.
  - destruct (decide ((0 < cache.Expiration it)%Z ∧ (cache.Expiration it < t)%Z))
      as [[H0 H1]|Hkeep].
    + rewrite (proj2 (map_lookup_filter_None _ _ k)).
      * replace (0 <? cache.Expiration it)%Z with true
          by (symmetry; by apply Z.ltb_lt).
        replace (cache.Expiration it <? t')%Z with true
          by (symmetry; apply Z.ltb_lt; lia).
        done.
      * right. intros x Hx. rewrite Hk in Hx. injection Hx as <-. simpl. tauto.
    + rewrite (proj2 (map_lookup_filter_Some _ _ k it)); [done|].
      split; [done|]. exact Hkeep.
  - rewrite (proj2 (map_lookup_filter_None _ _ k)); [done|]. by left.
Qed.

(** C4: a lookup that misses (first access, or entry expired) asks the
    repository exactly once and, when the repository answers with an
    instance, stores that snapshot with expiry now + TTL and returns it;
    from then on every lookup made no later than that expiry returns the
    stored snapshot and asks the repository nothing, and a lookup made
    after it asks the repository exactly once more. *)
Theorem getInstanceCached_ttl W id s r0 rest :
  (0 < cache.defaultExpiration (instanceCache s))%Z ->
  (0 <= clock s)%Z ->
  cache.Get (instanceCache s) id (clock s) = None ->
  repo_List W id = Success (r0 :: rest) ->
  let ttl := cache.defaultExpiration (instanceCache s) in
  ∃ s1,
    getInstanceCached W id s = Ok (Some r0) s1 ∧
    lookups s1 = S (lookups s) ∧
    instanceCache s1 =
      cache.mkCache ttl (<[id := cache.mkItem r0 (clock s + ttl)%Z]>
                           (cache.items (instanceCache s))) ∧
    (∀ s2, instanceCache s2 = instanceCache s1 ->
           (clock s2 <= clock s + ttl)%Z ->
           getInstanceCached W id s2 = Ok (Some r0) s2) ∧
    (∀ s2, instanceCache s2 = instanceCache s1 ->
           (clock s + ttl < clock s2)%Z ->
           ∃ s3, getInstanceCached W id s2 = Ok (Some r0) s3 ∧
                 lookups s3 = S (lookups s2) ∧
                 cache.items (instanceCache s3) !! id =
                   Some (cache.mkItem r0 (clock s2 + ttl)%Z)).
Proof.
  intros Httl Hclock Hmiss Hrepo ttl.
  eexists. split; [exact (getInstanceCached_miss_found W id s r0 rest Hmiss Hrepo)|].
  assert (Hc : cache.Set_ (instanceCache s) id r0 cache.DefaultExpiration (clock s)
               = cache.mkCache ttl (<[id := cache.mkItem r0 (clock s + ttl)%Z]>
                                      (cache.items (instanceCache s)))).
  { unfold cache.Set_. simpl. fold ttl.
    replace (0 <? ttl)%Z with true; [done|]. symmetry. by apply Z.ltb_lt. }
  split; [|split; [exact Hc|split]].
  - unfold lookups. simpl. rewrite List.filter_app, length_app. simpl. lia.
  - intros s2 Hs2 Ht. apply getInstanceCached_hit. rewrite Hs2. simpl. rewrite Hc.
    rewrite (cache_Get_fresh _ id r0 (clock s)); simpl;
      [|done|by rewrite lookup_insert_eq|done].
    replace (clock s + ttl <? clock s2)%Z with false; [done|].
    symmetry. apply Z.ltb_ge. lia.
  - intros s2 Hs2 Ht.
    assert (Hg : cache.Get (instanceCache s2) id (clock s2) = None).
    { rewrite Hs2. simpl. rewrite Hc.
      rewrite (cache_Get_fresh _ id r0 (clock s)); simpl;
        [|done|by rewrite lookup_insert_eq|done].
      replace (clock s + ttl <? clock s2)%Z with true; [done|].
      symmetry. apply Z.ltb_lt. lia. }
    eexists. split; [exact (getInstanceCached_miss_found W id s2 r0 rest Hg Hrepo)|].
    split.
    + unfold lookups. simpl. rewrite List.filter_app, length_app. simpl. lia.
    + simpl. rewrite lookup_insert_eq, Hs2. simpl. fold ttl.
      replace (0 <? ttl)%Z with true by (symmetry; by apply Z.ltb_lt).
      done.
Qed.

Lemma getInstanceCached_ttl_witness :
  ∃ s1,
    getInstanceCached (withRepo (fun _ => Success [acme allEvents]) quietWorld)
                      "acme" emptyState = Ok (Some (acme allEvents)) s1 ∧
    lookups s1 = 1%nat ∧
    getInstanceCached (withRepo (fun _ => Success [acme allEvents]) quietWorld)
                      "acme" (set_clock (5 * time.Minute)%Z s1)
      = Ok (Some (acme allEvents)) (set_clock (5 * time.Minute)%Z s1).
Proof.
  destruct (getInstanceCached_ttl
              (withRepo (fun _ => Success [acme allEvents]) quietWorld)
              "acme" emptyState (acme allEvents) [])
    as (s1 & H1 & H2 & H3 & H4 & H5).
  - reflexivity.
  - reflexivity.
  - reflexivity.
  - reflexivity.
  - exists s1. split; [exact H1|]. split; [exact H2|].
    apply H4; [reflexivity|]. simpl. unfold time.Minute, time.Second. lia.
Defined.

(** ** Delivery worker *)

Lemma status_not_ok resp :
  StatusCode resp ≠ StatusOK -> (StatusCode resp =? StatusOK)%Z = false.
Proof. intros H. by apply Z.eqb_neq. Qed.

(** What one failed attempt does to the loop: it posts (after the pause,
    when it is a retry), logs, and leaves the rest to the next attempt. *)
Lemma retryLoop_failed_first W remaining url_ body le lc s :
  NewRequest_ok W url_ = true ->
  failedAttempt (http_Do W url_ body 0) ->
  ∃ le' lc' lg,
    retryLoop W (S remaining) 0 url_ body le lc s =
    retryLoop W remaining 1 url_ body le' lc'
      (set_logs (logs s ++ [lg]) (set_calls (calls s ++ [CallHttpPost url_ body]) s)).
Proof.
  intros Hreq Hfail. simpl. rewrite Hreq. simpl.
  unfold mbind, M_bind, mret, M_ret, call, modify. simpl.
  destruct (http_Do W url_ body 0) as [resp|err]; simpl in *.
  - rewrite (status_not_ok _ Hfail). simpl. by do 3 eexists.
  - by do 3 eexists.
Qed.

Lemma retryLoop_failed_retry W remaining attempt delay url_ body le lc s :
  NewRequest_ok W url_ = true ->
  retryDelays !! attempt = Some delay ->
  failedAttempt (http_Do W url_ body (S attempt)) ->
  ∃ le' lc' lg,
    retryLoop W (S remaining) (S attempt) url_ body le lc s =
    retryLoop W remaining (S (S attempt)) url_ body le' lc'
      (set_logs (logs s ++ [mkLog Warn "retrying webhook after delay"; lg])
         (set_clock (clock s + delay)%Z
            (set_calls (calls s ++ [CallSleep delay; CallHttpPost url_ body]) s))).
Proof.
  intros Hreq Hdelay Hfail. cbn [retryLoop].
  change (0 <? S attempt)%nat with true. cbv iota.
  replace (S attempt - 1)%nat with attempt by lia.
  rewrite Hdelay, Hreq. cbn [negb].
  unfold mbind, M_bind, mret, M_ret, call, modify, Sleep, zap, modify. simpl.
  unfold mbind, M_bind, call, modify. simpl.
  rewrite <- !app_assoc. simpl.
  destruct (http_Do W url_ body (S attempt)) as [resp|err]; simpl in *.
  - rewrite (status_not_ok _ Hfail). simpl. rewrite <- !app_assoc. by do 3 eexists.
  - rewrite <- !app_assoc. by do 3 eexists.
Qed.

Lemma retryLoop_delivered_first W remaining url_ body le lc s resp :
  NewRequest_ok W url_ = true ->
  http_Do W url_ body 0 = Success resp ->
  StatusCode resp = StatusOK ->
  retryLoop W (S remaining) 0 url_ body le lc s =
  Ok Delivered (set_calls (calls s ++ [CallHttpPost url_ body]) s).
Proof.
  intros Hreq Hdo Hok. simpl. rewrite Hreq. simpl.
  unfold mbind, M_bind, mret, M_ret, call, modify. simpl.
  rewrite Hdo, Hok. done.
Qed.

Lemma retryLoop_delivered_retry W remaining attempt delay url_ body le lc s resp :
  NewRequest_ok W url_ = true ->
  retryDelays !! attempt = Some delay ->
  http_Do W url_ body (S attempt) = Success resp ->
  StatusCode resp = StatusOK ->
  retryLoop W (S remaining) (S attempt) url_ body le lc s =
  Ok Delivered
    (set_logs (logs s ++ [mkLog Warn "retrying webhook after delay";
                          mkLog Info "webhook succeeded after retry"])
       (set_clock (clock s + delay)%Z
          (set_calls (calls s ++ [CallSleep delay; CallHttpPost url_ body]) s))).
Proof.
  intros Hreq Hdelay Hdo Hok. cbn [retryLoop].
  change (0 <? S attempt)%nat with true. cbv iota.
  replace (S attempt - 1)%nat with attempt by lia.
  rewrite Hdelay, Hreq. cbn [negb].
  unfold mbind, M_bind, mret, M_ret, call, modify, Sleep, zap, modify. simpl.
  unfold mbind, M_bind, call, modify. simpl.
  rewrite Hdo, Hok. simpl. by rewrite <- !app_assoc.
Qed.

(** Consume one failed attempt of the loop in the goal. *)
Ltac loop_fails_first H :=
  match goal with
  | Hreq : NewRequest_ok ?W ?u = true
    |- context [retryLoop ?W (S ?r) 0 ?u ?b ?e ?c ?s] =>
      let E := fresh "E" in
      destruct (retryLoop_failed_first W r u b e c s Hreq H) as (? & ? & ? & E);
      rewrite E; clear E
  end.

Ltac loop_fails_retry H :=
  match goal with
  | Hreq : NewRequest_ok ?W ?u = true
    |- context [retryLoop ?W (S ?r) (S ?a) ?u ?b ?e ?c ?s] =>
      let E := fresh "E" in
      destruct (retryLoop_failed_retry W r a _ u b e c s Hreq eq_refl H)
        as (? & ? & ? & E);
      rewrite E; clear E
  end.

Lemma deliverySchedule_posts url_ body k :
  (k <= maxRetries)%nat ->
  length (List.filter isHttpPost (deliverySchedule url_ body k)) = S k.
Proof.
  intros Hk. unfold maxRetries in Hk.
  destruct k as [|[|[|[|k]]]]; try reflexivity. lia.
Qed.

(** C2: a task that serialises and whose request can be built is first
    posted at once.  When every attempt fails (transport error or a status
    other than 200) the worker makes exactly four POSTs, pausing 2s, 5s
    and 10s between them, then gives the task up: the loop ends, nothing
    goes back on the channel.  When attempt [k] (counted from 0) is the
    first to answer 200, the worker stops right there: [k+1] POSTs, no
    pause and no call after the successful one. *)
Theorem sendWebhookWithRetry_attempts W event body s :
  json_Marshal W (data event) = Success body ->
  NewRequest_ok W (url event) = true ->
  ((∀ n, (n <= maxRetries)%nat -> failedAttempt (http_Do W (url event) body n)) ->
   ∃ lastErr lastStatusCode s',
     sendWebhookWithRetry W event s = Ok (Exhausted lastErr lastStatusCode) s' ∧
     calls s' = calls s ++
       [ CallHttpPost (url event) body;
         CallSleep (2 * time.Second); CallHttpPost (url event) body;
         CallSleep (5 * time.Second); CallHttpPost (url event) body;
         CallSleep (10 * time.Second); CallHttpPost (url event) body ] ∧
     clock s' = (clock s + 17 * time.Second)%Z ∧
     emitter_chan s' = emitter_chan s ∧
     goroutines s' = goroutines s) ∧
  (∀ k resp,
     (k <= maxRetries)%nat ->
     (∀ n, (n < k)%nat -> failedAttempt (http_Do W (url event) body n)) ->
     http_Do W (url event) body k = Success resp ->
     StatusCode resp = StatusOK ->
     ∃ s',
       sendWebhookWithRetry W event s = Ok Delivered s' ∧
       calls s' = calls s ++ deliverySchedule (url event) body k ∧
       length (List.filter isHttpPost (deliverySchedule (url event) body k)) = S k ∧
       last (calls s') = Some (CallHttpPost (url event) body) ∧
       emitter_chan s' = emitter_chan s).
Proof.
  intros Hm Hreq. split.
  - intros Hfail. unfold sendWebhookWithRetry. rewrite Hm.
    unfold mbind at 1, M_bind at 1. unfold maxRetries in *.
    loop_fails_first (Hfail 0%nat ltac:(lia)).
    loop_fails_retry (Hfail 1%nat ltac:(lia)).
    loop_fails_retry (Hfail 2%nat ltac:(lia)).
    loop_fails_retry (Hfail 3%nat ltac:(lia)).
    simpl. do 3 eexists. split; [reflexivity|]. simpl.
    rewrite <- !app_assoc. simpl. split; [done|]. split; [|done].
    unfold time.Second. lia.
  - intros k resp Hk Hfail Hdo Hok.
    unfold sendWebhookWithRetry. rewrite Hm.
    unfold mbind at 1, M_bind at 1. unfold maxRetries in *.
    assert (Hposts := deliverySchedule_posts (url event) body k Hk).
    destruct k as [|[|[|[|k]]]]; [| | | |lia].
    + rewrite (retryLoop_delivered_first W 3 _ _ _ _ _ resp Hreq Hdo Hok).
      eexists. split; [reflexivity|]. simpl. split; [done|]. split; [done|].
      split; [|done]. by rewrite last_snoc.
    + loop_fails_first (Hfail 0%nat ltac:(lia)).
      rewrite (retryLoop_delivered_retry W 2 0 _ _ _ _ _ _ resp Hreq eq_refl Hdo Hok).
      eexists. split; [reflexivity|]. simpl. rewrite <- !app_assoc. simpl.
      split; [done|]. split; [done|]. split; [|done].
      by rewrite last_app_cons.
    + loop_fails_first (Hfail 0%nat ltac:(lia)).
      loop_fails_retry (Hfail 1%nat ltac:(lia)).
      rewrite (retryLoop_delivered_retry W 1 1 _ _ _ _ _ _ resp Hreq eq_refl Hdo Hok).
      eexists. split; [reflexivity|]. simpl. rewrite <- !app_assoc. simpl.
      split; [done|]. split; [done|]. split; [|done].
      by rewrite last_app_cons.
    + loop_fails_first (Hfail 0%nat ltac:(lia)).
      loop_fails_retry (Hfail 1%nat ltac:(lia)).
      loop_fails_retry (Hfail 2%nat ltac:(lia)).
      rewrite (retryLoop_delivered_retry W 0 2 _ _ _ _ _ _ resp Hreq eq_refl Hdo Hok).
      eexists. split; [reflexivity|]. simpl. rewrite <- !app_assoc. simpl.
      split; [done|]. split; [done|]. split; [|done].
      by rewrite last_app_cons.
Qed.

Lemma sendWebhookWithRetry_attempts_witness :
  (∃ lastErr lastStatusCode s',
     sendWebhookWithRetry (withDestination always500 quietWorld) closeNotice
                          emptyState = Ok (Exhausted lastErr lastStatusCode) s' ∧
     calls s' =
       [ CallHttpPost "http://hook" "{}";
         CallSleep 2000000000; CallHttpPost "http://hook" "{}";
         CallSleep 5000000000; CallHttpPost "http://hook" "{}";
         CallSleep 10000000000; CallHttpPost "http://hook" "{}" ]) ∧
  (∃ s',
     sendWebhookWithRetry (withDestination okOnSecond quietWorld) closeNotice
                          emptyState = Ok Delivered s' ∧
     calls s' =
       [ CallHttpPost "http://hook" "{}";
         CallSleep 2000000000; CallHttpPost "http://hook" "{}" ]).
Proof.
  split.
  - destruct (sendWebhookWithRetry_attempts
                (withDestination always500 quietWorld) closeNotice "{}"
                emptyState eq_refl eq_refl) as [Hall _].
    destruct Hall as (e & c & s' & Hrun & Hcalls & _).
    + intros n _. simpl. unfold StatusOK. lia.
    + exists e, c, s'. split; [exact Hrun|exact Hcalls].
  - destruct (sendWebhookWithRetry_attempts
                (withDestination okOnSecond quietWorld) closeNotice "{}"
                emptyState eq_refl eq_refl) as [_ Hone].
    destruct (Hone 1%nat (mkResponse 200 (Success "ok")))
      as (s' & Hrun & Hcalls & _).
    + unfold maxRetries. lia.
    + intros n Hn. assert (n = 0%nat) as -> by lia. simpl. unfold StatusOK. lia.
    + reflexivity.
    + reflexivity.
    + exists s'. split; [exact Hrun|exact Hcalls].
Defined.

(** The worker takes a task off the channel for good: whatever the outcome
    of the delivery, the channel is left with the tasks that were behind. *)
Lemma startEmitter_turn_consumes W event rest s :
  emitter_chan s = event :: rest ->
  emitter_chan (final (startEmitter_turn W s)) = rest.
Proof.
  intros Hq. unfold startEmitter_turn.
  unfold mbind at 1, M_bind at 1. simpl. rewrite Hq.
  unfold mbind at 1, M_bind at 1. simpl.
  assert (H : evolves (fun a b => emitter_chan b = emitter_chan a)
                      (sendWebhookWithRetry W event)).
  { assert (PreOrder (fun a b : State => emitter_chan b = emitter_chan a)).
    { split; [by intros ?|]. intros a b c H1 H2. by rewrite H2. }
    unfold sendWebhookWithRetry.
    assert (Hloop : ∀ r a u b e c, evolves (fun a b => emitter_chan b = emitter_chan a)
                                     (retryLoop W r a u b e c)).
    { induction r as [|r IH]; intros; simpl; [by apply evolves_ret|].
      unfold Sleep, zap, call.
      repeat (first [ apply IH | apply evolves_modify; intros; done
                    | evolve_step; try done ]). }
    unfold zap.
    repeat (first [ apply Hloop | apply evolves_modify; intros; done
                  | evolve_step; try done ]). }
  unfold mbind, M_bind.
  specialize (H (set_emitter_chan rest s)).
  destruct (sendWebhookWithRetry W event (set_emitter_chan rest s)); simpl in *;
    by rewrite H.
Qed.

(** ** Event router *)

Lemma make_eventMap_lookup evs (m0 : gmap string bool) k :
  foldl (fun m event => <[event := true]> m) m0 evs !! k =
    if decide (k ∈ evs) then Some true else m0 !! k.
Proof.
  revert m0. induction evs as [|ev evs IH]; intros m0.
  - cbn [foldl]. case_decide as Hin; [|done]. by apply elem_of_nil in Hin.
  - cbn [foldl]. rewrite IH.
    destruct (decide (k ∈ evs)) as [Hin|Hnin].
    + case_decide as Hc; [done|]. exfalso. apply Hc. by right.
    + destruct (decide (k = ev)) as [->|Hne].
      * rewrite lookup_insert_eq. case_decide as Hc; [done|].
        exfalso. apply Hc. by left.
      * rewrite lookup_insert_ne by done.
        case_decide as Hc; [|done].
        apply elem_of_cons in Hc as [?|?]; done.
Qed.

(** The map built from the subscription answers [true] exactly for the
    names the subscription lists. *)
Lemma eventMap_get_subscribed evs k :
  eventMap_get (make_eventMap evs) k = true <-> k ∈ evs.
Proof.
  unfold eventMap_get, make_eventMap. rewrite make_eventMap_lookup.
  destruct (decide (k ∈ evs)); simpl; [done|].
  rewrite lookup_empty. simpl. split; [done|]. intros. done.
Qed.

#[local] Instance sameCore_preorder : PreOrder sameCore.
Proof.
  split.
  - by intros s.
  - intros a b c (?&?&?&?&?) (?&?&?&?&?). unfold sameCore.
    repeat split; congruence.
Qed.

Lemma evolves_weaken (R1 R2 : relation State) {A} (m : M A) :
  (∀ s s', R1 s s' -> R2 s s') -> evolves R1 m -> evolves R2 m.
Proof. intros H Hm s. apply H, Hm. Qed.

Lemma sameCore_zap l m : evolves sameCore (zap l m).
Proof. by intros s. Qed.

Lemma sameCore_call c : evolves sameCore (call c).
Proof. by intros s. Qed.

Lemma sameCore_Sleep d : evolves sameCore (Sleep d).
Proof. by intros s. Qed.

(** Walk through a computation that stays within [sameCore]. *)
Ltac quiet :=
  repeat first
    [ apply sameCore_zap | apply sameCore_call | apply sameCore_Sleep
    | assumption
    | evolve_step ].

Lemma sameCore_getPic W id jid : evolves sameCore (getPic W id jid).
Proof. unfold getPic. quiet. Qed.

Lemma sameCore_getPic_logged W id jid : evolves sameCore (getPic_logged W id jid).
Proof. unfold getPic_logged. pose proof (sameCore_getPic W id jid). quiet. Qed.

Lemma sameCore_convertContact W id evt : evolves sameCore (convertContact W id evt).
Proof.
  unfold convertContact. pose proof (sameCore_getPic_logged W id (events.CJID evt)).
  quiet.
Qed.

Lemma sameCore_convertGroupInfo W id evt : evolves sameCore (convertGroupInfo W id evt).
Proof.
  unfold convertGroupInfo. pose proof (sameCore_getPic_logged W id (events.GJID evt)).
  quiet.
Qed.

Lemma sameCore_convertPushName W id evt : evolves sameCore (convertPushName W id evt).
Proof.
  unfold convertPushName. pose proof (sameCore_getPic_logged W id (events.PNJID evt)).
  quiet.
Qed.

Lemma sameCore_convertPicture W id evt : evolves sameCore (convertPicture W id evt).
Proof.
  unfold convertPicture. pose proof (sameCore_getPic_logged W id (events.PJID evt)).
  quiet.
Qed.

Lemma sameCore_convertBusinessName W id evt :
  evolves sameCore (convertBusinessName W id evt).
Proof.
  unfold convertBusinessName.
  pose proof (sameCore_getPic_logged W id (events.BJID evt)).
  quiet.
Qed.

Lemma sameCore_historyPushnames W id event resultMap :
  evolves sameCore (historyPushnames W id event resultMap).
Proof.
  revert resultMap. induction event as [|pn rest IH]; intros resultMap; simpl.
  - quiet.
  - quiet; apply IH.
Qed.

Lemma sameCore_historyConversations W id conversations resultMap :
  evolves sameCore (historyConversations W id conversations resultMap).
Proof.
  revert resultMap. induction conversations as [|cv rest IH]; intros resultMap; simpl.
  - quiet.
  - quiet; apply IH.
Qed.

Lemma sameCore_historyPictures W id cs : evolves sameCore (historyPictures W id cs).
Proof.
  induction cs as [|c rest IH]; simpl.
  - quiet.
  - quiet. apply sameCore_getPic_logged.
Qed.

Lemma sameCore_convertContactHistorySync W id event conversations :
  evolves sameCore (convertContactHistorySync W id event conversations).
Proof.
  unfold convertContactHistorySync.
  quiet; first [ apply sameCore_historyPushnames
               | apply sameCore_historyConversations
               | apply sameCore_historyPictures ].
Qed.

Lemma sameCore_uploadMessageFile W instance client fileMessage mimetype fileName :
  evolves sameCore (uploadMessageFile W instance client fileMessage mimetype fileName).
Proof. unfold uploadMessageFile. quiet. Qed.

Lemma sameCore_convertEventMessage W id instance evt :
  evolves sameCore (convertEventMessage W id instance evt).
Proof.
  unfold convertEventMessage. quiet; apply sameCore_uploadMessageFile.
Qed.

#[local] Instance emits_preorder P : PreOrder (emits P).
Proof.
  split.
  - intros s. exists []. by rewrite app_nil_r.
  - intros a b c (q1 & H1 & F1) (q2 & H2 & F2). exists (q1 ++ q2).
    split; [by rewrite H2, H1, app_assoc|]. by apply Forall_app.
Qed.

Lemma sameCore_emits P s s' : sameCore s s' -> emits P s s'.
Proof. intros (H & _). exists []. by rewrite app_nil_r. Qed.

Lemma emits_quiet P {A} (m : M A) : evolves sameCore m -> evolves (emits P) m.
Proof. apply evolves_weaken, sameCore_emits. Qed.

Lemma emits_emit (P : emitter -> Prop) body url_ :
  P (mkEmitter url_ body) -> evolves (emits P) (emit body url_).
Proof. intros H s. exists [mkEmitter url_ body]. split; [done|]. by constructor. Qed.

Lemma emits_go P g : evolves (emits P) (go g).
Proof. intros s. exists []. by rewrite app_nil_r. Qed.

Lemma approved_intro instance k body :
  eventMap_get (make_eventMap (Events (Webhook instance))) (subscriptionKey k) = true ->
  WEvent body = k -> WInstance body = ID instance ->
  approved instance k (mkEmitter (Url (Webhook instance)) body).
Proof.
  intros H%eventMap_get_subscribed Hk Hi. by repeat split.
Qed.

(** Walk through a handler: conversions are quiet, and an [emit] must be
    shown to carry an approved task. *)
Ltac routed :=
  repeat first
    [ apply emits_quiet; first
        [ apply sameCore_zap | apply sameCore_convertEventMessage
        | apply sameCore_convertBusinessName | apply sameCore_convertContact
        | apply sameCore_convertPicture | apply sameCore_convertContactHistorySync
        | apply sameCore_convertGroupInfo | apply sameCore_convertPushName ]
    | apply emits_go
    | apply emits_emit; apply approved_intro;
        [ match goal with
          | H : negb ?b = false |- _ => apply negb_false_iff in H; exact H
          end
        | reflexivity | reflexivity ]
    | evolve_step ].

Section Handlers.
Context (W : World) (id : string) (instance : Instance).
Let eventMap := make_eventMap (Events (Webhook instance)).

Lemma handleMessageEvent_emits e :
  evolves (emits (approved instance WookMessagesUpsert))
          (handleMessageEvent W id instance e eventMap).
Proof. unfold handleMessageEvent. routed. Qed.

Lemma handleReceiptEvent_emits e :
  evolves (emits (approved instance WookMessagesUpdate))
          (handleReceiptEvent W id instance e eventMap).
Proof. unfold handleReceiptEvent. routed. Qed.

Lemma handleBusinessNameEvent_emits e :
  evolves (emits (approved instance WookContactsUpsert))
          (handleBusinessNameEvent W id instance e eventMap).
Proof. unfold handleBusinessNameEvent, emitContact. routed. Qed.

Lemma handleContactEvent_emits e :
  evolves (emits (approved instance WookContactsUpsert))
          (handleContactEvent W id instance e eventMap).
Proof. unfold handleContactEvent, emitContact. routed. Qed.

Lemma handlePictureEvent_emits e :
  evolves (emits (approved instance WookContactsUpsert))
          (handlePictureEvent W id instance e eventMap).
Proof. unfold handlePictureEvent, emitContact. routed. Qed.

Lemma handleHistorySyncEvent_emits e :
  evolves (emits (approved instance WookContactsUpsert))
          (handleHistorySyncEvent W id instance e eventMap).
Proof. unfold handleHistorySyncEvent. routed. Qed.

Lemma handleGroupInfoEvent_emits e :
  evolves (emits (approved instance WookContactsUpsert))
          (handleGroupInfoEvent W id instance e eventMap).
Proof. unfold handleGroupInfoEvent, emitContact. routed. Qed.

Lemma handlePushNameEvent_emits e :
  evolves (emits (approved instance WookContactsUpsert))
          (handlePushNameEvent W id instance e eventMap).
Proof. unfold handlePushNameEvent, emitContact. routed. Qed.
End Handlers.

Lemma emits_modify_other P f :
  (∀ s, emitter_chan (f s) = emitter_chan s) -> evolves (emits P) (modify f).
Proof. intros H s. exists []. simpl. by rewrite H, app_nil_r. Qed.

Lemma getInstanceCached_emits P W id : evolves (emits P) (getInstanceCached W id).
Proof.
  unfold getInstanceCached.
  repeat first [ apply emits_quiet; first [apply sameCore_zap | apply sameCore_call]
               | apply emits_modify_other; done
               | evolve_step ].
Qed.

(** What [emitConnectionUpdate] does once the instance is resolved. *)
Lemma emitConnectionUpdate_known W id status instance s1 :
  getInstanceCached W id s1 = Ok (Some instance) s1 ->
  emits (approved instance WookConnectionUpdate) s1
        (final (emitConnectionUpdate W id status s1)).
Proof.
  intros H. unfold emitConnectionUpdate. rewrite (bind_Ok _ _ _ _ _ H).
  match goal with |- emits ?P s1 (final (?m s1)) => cut (evolves (emits P) m) end.
  { intros Hm. apply Hm. }
  routed.
Qed.

Lemma handleLoggedOut_known W id instance s1 :
  getInstanceCached W id s1 = Ok (Some instance) s1 ->
  emits (approved instance WookConnectionUpdate) s1
        (final (handleLoggedOut W id s1)).
Proof.
  intros H. unfold handleLoggedOut.
  pose proof (emitConnectionUpdate_known W id "close" instance s1 H) as He.
  unfold mbind at 1, M_bind at 1.
  destruct (emitConnectionUpdate W id "close" s1) as [[] s2|why s2]; simpl in He;
    [|exact He].
  etransitivity; [exact He|].
  match goal with |- emits ?P s2 (final (?m s2)) => cut (evolves (emits P) m) end.
  { intros Hm. apply Hm. }
  repeat first [ apply emits_quiet; first [apply sameCore_zap | apply sameCore_call]
               | apply emits_modify_other; done
               | evolve_step ].
Qed.

(** C1: whatever the event and the state, the tasks [Handle] adds to the
    delivery channel all come from an instance it resolved for the id, are
    of the kind that belongs to the raw event, and that kind is one the
    instance's webhook subscribed to; when no instance is resolved, or the
    kind is not subscribed, nothing is added. *)
Theorem Handle_only_subscribed W id evt s :
  ∃ q,
    emitter_chan (final (Handle W id evt s)) = emitter_chan s ++ q ∧
    ∀ task, task ∈ q ->
      ∃ instance s1 k,
        getInstanceCached W id s = Ok (Some instance) s1 ∧
        kindOf evt = Some k ∧
        WEvent (data task) = k ∧
        subscriptionKey k ∈ Events (Webhook instance) ∧
        url task = Url (Webhook instance).
Proof.
  unfold Handle. unfold mbind at 1, M_bind at 1.
  pose proof (getInstanceCached_emits (fun _ => False) W id s) as (q0 & Hq0 & F0).
  assert (q0 = []) as -> by (destruct q0; [done|by inversion F0]).
  rewrite app_nil_r in Hq0. clear F0.
  destruct (getInstanceCached W id s) as [[instance|] s1|why s1] eqn:Hget;
    simpl in Hq0.
  - assert (Hkind : ∀ k, kindOf evt = Some k ->
              emits (approved instance k) s1
                (final (match evt with
                        | events.LoggedOut => handleLoggedOut W id
                        | events.EvMessage e =>
                            handleMessageEvent W id instance e
                              (make_eventMap (Events (Webhook instance)))
                        | events.EvReceipt e =>
                            handleReceiptEvent W id instance e
                              (make_eventMap (Events (Webhook instance)))
                        | events.EvBusinessName e =>
                            handleBusinessNameEvent W id instance e
                              (make_eventMap (Events (Webhook instance)))
                        | events.EvContact e =>
                            handleContactEvent W id instance e
                              (make_eventMap (Events (Webhook instance)))
                        | events.EvPicture e =>
                            handlePictureEvent W id instance e
                              (make_eventMap (Events (Webhook instance)))
                        | events.EvHistorySync e =>
                            handleHistorySyncEvent W id instance e
                              (make_eventMap (Events (Webhook instance)))
                        | events.EvGroupInfo e =>
                            handleGroupInfoEvent W id instance e
                              (make_eventMap (Events (Webhook instance)))
                        | events.EvPushName e =>
                            handlePushNameEvent W id instance e
                              (make_eventMap (Events (Webhook instance)))
                        | events.EvUnknown _ => zap Debug "unknown event"
                        end s1))).
    { intros k Hk. destruct evt; simpl in Hk; inversion Hk; subst k.
      - apply handleLoggedOut_known. by eapply getInstanceCached_again.
      - apply handleMessageEvent_emits.
      - apply handleReceiptEvent_emits.
      - apply handleBusinessNameEvent_emits.
      - apply handleContactEvent_emits.
      - apply handlePictureEvent_emits.
      - apply handleHistorySyncEvent_emits.
      - apply handleGroupInfoEvent_emits.
      - apply handlePushNameEvent_emits. }
    destruct (kindOf evt) as [k|] eqn:Hk.
    + destruct (Hkind k eq_refl) as (q & Hq & Fq).
      exists q. split; [by rewrite Hq, Hq0|].
      intros task Hin. rewrite Forall_forall in Fq.
      destruct (Fq task Hin) as (Ha & Hb & Hc & _).
      by exists instance, s1, k.
    + destruct evt; try discriminate. simpl. exists [].
      split; [by rewrite Hq0, app_nil_r|]. by intros task ?%elem_of_nil.
  - simpl. exists []. split; [by rewrite Hq0, app_nil_r|].
    by intros task ?%elem_of_nil.
  - simpl. exists []. split; [by rewrite Hq0, app_nil_r|].
    by intros task ?%elem_of_nil.
Qed.

Lemma getInstanceCached_queues W id s :
  emitter_chan (final (getInstanceCached W id s)) = emitter_chan s ∧
  goroutines (final (getInstanceCached W id s)) = goroutines s ∧
  clients (final (getInstanceCached W id s)) = clients s ∧
  alwaysOnlineIDs (final (getInstanceCached W id s)) = alwaysOnlineIDs s ∧
  clock (final (getInstanceCached W id s)) = clock s.
Proof.
  destruct (cache.Get (instanceCache s) id (clock s)) as [i|] eqn:Hg.
  - by rewrite (getInstanceCached_hit _ _ _ _ Hg).
  - destruct (repo_List W id) as [[|r0 rest]|err] eqn:Hr.
    + by rewrite (getInstanceCached_miss_empty _ _ _ Hg Hr).
    + by rewrite (getInstanceCached_miss_found _ _ _ _ _ Hg Hr).
    + by rewrite (getInstanceCached_miss_failure _ _ _ _ Hg Hr).
Qed.

(** On the source alone, whatever the policy helpers answer: a self-sent
    message never starts a receipt goroutine. *)
Lemma handleMessageEvent_own_no_receipts W id instance e eventMap s :
  events.IsFromMe (events.Info e) = true ->
  goroutines (final (handleMessageEvent W id instance e eventMap s)) = goroutines s.
Proof.
  intros Hme.
  cut (evolves (fun a b => goroutines b = goroutines a)
               (handleMessageEvent W id instance e eventMap)).
  { intros H. apply H. }
  assert (PreOrder (fun a b : State => goroutines b = goroutines a)).
  { split; [by intros ?|]. intros a b c H1 H2. by rewrite H2. }
  unfold handleMessageEvent. rewrite Hme. simpl. rewrite andb_false_r.
  repeat first
    [ eapply evolves_weaken;
        [|first [apply sameCore_zap | apply sameCore_convertEventMessage]];
        by intros ? ? (?&?&?)
    | apply evolves_modify; done
    | evolve_step ].
Qed.

(** C5: with the content policy as the specification words it, a message
    marked from-me that reaches the handler of an instance whose
    own-message-skip flag is set is dropped on the spot: the handler leaves
    the state as it found it, so no task is put on the channel and neither
    receipt goroutine is started; the same holds for the whole of [Handle]
    once the instance is resolved. *)
Theorem handleMessageEvent_skips_own W id instance e :
  events.IsFromMe (events.Info e) = true ->
  SkipOwnMessages instance = true ->
  (∀ eventMap s,
     handleMessageEvent (withSpecPolicy W) id instance e eventMap s = Ok tt s) ∧
  (∀ s s1,
     getInstanceCached (withSpecPolicy W) id s = Ok (Some instance) s1 ->
     Handle (withSpecPolicy W) id (events.EvMessage e) s = Ok tt s1 ∧
     emitter_chan s1 = emitter_chan s ∧
     goroutines s1 = goroutines s).
Proof.
  intros Hme Hskip.
  assert (Hdrop : ∀ eventMap s,
            handleMessageEvent (withSpecPolicy W) id instance e eventMap s = Ok tt s).
  { intros eventMap s. unfold handleMessageEvent.
    destruct (negb (eventMap_get eventMap "MESSAGES_UPSERT")); [done|].
    simpl. unfold canIgnoreGroup_spec. rewrite Hme, Hskip. simpl.
    by rewrite orb_true_r. }
  split; [exact Hdrop|].
  intros s s1 Hget. unfold Handle. rewrite (bind_Ok _ _ _ _ _ Hget).
  split; [apply Hdrop|].
  pose proof (getInstanceCached_queues (withSpecPolicy W) id s) as (H1 & H2 & _).
  rewrite Hget in H1, H2. simpl in H1, H2. done.
Qed.

Lemma handleMessageEvent_skips_own_witness :
  handleMessageEvent (withSpecPolicy quietWorld) "acme" acmeSkipOwn
    (helloFrom true) (make_eventMap allEvents) oneSession = Ok tt oneSession.
Proof.
  apply (handleMessageEvent_skips_own quietWorld "acme" acmeSkipOwn (helloFrom true));
    reflexivity.
Defined.

(** The goroutines report nothing to whoever started them: they end
    without panic whatever [MarkRead] answers, a failure only leaves a
    debug entry in the log, and the delivery channel is not touched. *)
Lemma run_goroutine_absorbs W g s :
  ∃ s', run_goroutine W g s = Ok tt s' ∧
        emitter_chan s' = emitter_chan s ∧
        goroutines s' = goroutines s ∧
        clients s' = clients s.
Proof.
  destruct g as [id e|id e delay]; simpl.
  - unfold sendDeliveryReceipt, gets, mbind, M_bind. simpl.
    destruct (clients s !! id) as [[c|]|]; try (by eexists).
    simpl. destruct (rt_MarkRead W _ _ _ _ _); by eexists.
  - unfold markAsReadAfterDelay, Sleep, gets, now, gets, call, modify, mbind, M_bind.
    simpl. destruct (clients s !! id) as [[c|]|]; try (by eexists).
    simpl. destruct (rt_MarkRead W _ _ _ _ _); by eexists.
Qed.

(** C6, as the source has it: when [handleMessageEvent] forwards a message
    (it returns with the channel changed), the channel grew by exactly one
    message-upsert task, and the goroutines started are those of
    [receiptsFor]: the delivery receipt when the message is neither
    from-me nor in a broadcast chat, whatever the flags of the instance,
    and the read receipt delayed by 8s when moreover [ReadMessages] is
    set.  The task is on the channel while the goroutines are still
    waiting to run, and running them cannot fail the caller. *)
Theorem handleMessageEvent_receipts W id instance e eventMap s s' :
  handleMessageEvent W id instance e eventMap s = Ok tt s' ->
  emitter_chan s' ≠ emitter_chan s ->
  (∃ task, emitter_chan s' = emitter_chan s ++ [task] ∧
           WEvent (data task) = WookMessagesUpsert) ∧
  goroutines s' = goroutines s ++ receiptsFor id instance e ∧
  (∀ g st, g ∈ goroutines s' ->
     ∃ st', run_goroutine W g st = Ok tt st' ∧ emitter_chan st' = emitter_chan st).
Proof.
  intros Hrun Hgrew.
  assert (Hmain :
    (∃ task, emitter_chan s' = emitter_chan s ++ [task] ∧
             WEvent (data task) = WookMessagesUpsert) ∧
    goroutines s' = goroutines s ++ receiptsFor id instance e).
  { unfold handleMessageEvent in Hrun.
    destruct (negb (eventMap_get eventMap "MESSAGES_UPSERT"));
      [inversion Hrun; by subst|].
    destruct (canIgnoreGroup W (events.EvMessage e) instance);
      [inversion Hrun; by subst|].
    destruct (canIgnoreMessage W e); [inversion Hrun; by subst|].
    pose proof (sameCore_convertEventMessage W id instance e s) as (Hq & Hg & _).
    unfold mbind at 1, M_bind at 1 in Hrun.
    destruct (convertEventMessage W id instance e s) as [[md|] s0|why s0];
      simpl in Hq, Hg; [| |discriminate].
    - unfold receiptsFor.
      destruct (negb (events.IsFromMe (events.Info e)) &&
                negb (Server (events.Chat (events.Info e)) =? "broadcast")%string);
        destruct (ReadMessages instance); simpl in Hrun;
        inversion Hrun; subst s'; simpl; rewrite Hq, Hg;
        (split; [by eexists|]); rewrite <- ?app_assoc; simpl;
        by rewrite ?app_nil_r.
    - inversion Hrun; subst s'. simpl in Hgrew. by rewrite Hq in Hgrew. }
  destruct Hmain as [Ht Hg]. split; [exact Ht|]. split; [exact Hg|].
  intros g st _. destruct (run_goroutine_absorbs W g st) as (st' & H1 & H2 & _).
  by exists st'.
Qed.

Lemma handleMessageEvent_receipts_witness :
  ∃ s',
    handleMessageEvent quietWorld "acme" (acme allEvents) (helloFrom false)
                       (make_eventMap allEvents) oneSession = Ok tt s' ∧
    goroutines s' = [GoSendDeliveryReceipt "acme" (helloFrom false)].
Proof.
  set (r := handleMessageEvent quietWorld "acme" (acme allEvents) (helloFrom false)
              (make_eventMap allEvents) oneSession).
  assert (Hr : r = Ok tt (final r)) by (vm_compute; reflexivity).
  exists (final r). split; [exact Hr|].
  assert (Hgrew : emitter_chan (final r) ≠ emitter_chan oneSession)
    by (vm_compute; discriminate).
  exact (proj1 (proj2 (handleMessageEvent_receipts quietWorld "acme"
           (acme allEvents) (helloFrom false) (make_eventMap allEvents)
           oneSession (final r) Hr Hgrew))).
Defined.

(** C6, as stated, fails: an instance whose auto-receipt flag is off (and
    every other flag too) still gets a delivery receipt scheduled for an
    inbound message it is notified of. *)
Lemma delivery_receipt_ignores_policy :
  ¬ (∀ W id instance e eventMap s s',
       events.IsFromMe (events.Info e) = false ->
       Server (events.Chat (events.Info e)) ≠ "broadcast" ->
       handleMessageEvent W id instance e eventMap s = Ok tt s' ->
       emitter_chan s' ≠ emitter_chan s ->
       (GoSendDeliveryReceipt id e ∈ goroutines s' -> AutoReceipt instance = true) ∧
       (GoMarkAsReadAfterDelay id e (8 * time.Second)%Z ∈ goroutines s' ->
        ReadMessages instance = true)).
Proof.
  intros H.
  set (r := handleMessageEvent quietWorld "acme" (acme allEvents) (helloFrom false)
              (make_eventMap allEvents) oneSession).
  assert (Hr : r = Ok tt (final r)) by (vm_compute; reflexivity).
  destruct (H quietWorld "acme" (acme allEvents) (helloFrom false)
              (make_eventMap allEvents) oneSession (final r) eq_refl
              ltac:(discriminate) Hr) as [Hd _].
  - vm_compute. discriminate.
  - assert (AutoReceipt (acme allEvents) = true) as Hf; [|discriminate Hf].
    apply Hd. vm_compute. by left.
Qed.

(** ** Logged-out events *)

Lemma emitConnectionUpdate_run W id status instance s s1 :
  getInstanceCached W id s = Ok (Some instance) s1 ->
  ∃ s2,
    emitConnectionUpdate W id status s = Ok tt s2 ∧
    emitter_chan s2 =
      emitter_chan s ++
      (if decide ("CONNECTION_UPDATE" ∈ Events (Webhook instance))
       then [connectionNotice instance status (clock s)] else []) ∧
    clients s2 = clients s ∧ calls s2 = calls s1 ∧
    goroutines s2 = goroutines s ∧
    alwaysOnlineIDs s2 = alwaysOnlineIDs s.
Proof.
  intros Hget.
  pose proof (getInstanceCached_queues W id s) as (Hq & Hg & Hc & Ha & Ht).
  rewrite Hget in Hq, Hg, Hc, Ha, Ht. simpl in Hq, Hg, Hc, Ha, Ht.
  unfold emitConnectionUpdate. rewrite (bind_Ok _ _ _ _ _ Hget).
  pose proof (eventMap_get_subscribed (Events (Webhook instance)) "CONNECTION_UPDATE")
    as Hsub.
  destruct (eventMap_get (make_eventMap (Events (Webhook instance)))
                         "CONNECTION_UPDATE") eqn:Hm; simpl.
  - rewrite decide_True by (by apply Hsub).
    eexists. split; [reflexivity|]. simpl. unfold connectionNotice.
    by rewrite Hq, Hg, Hc, Ha, Ht.
  - rewrite decide_False by (intros Hin; apply Hsub in Hin; discriminate).
    eexists. split; [reflexivity|]. by rewrite app_nil_r.
Qed.

(** C7, as the source has it: for a logged-out event of a known instance,
    the connection notice with status "close" is put on the channel exactly
    when the instance subscribed to CONNECTION_UPDATE; then, when a session
    handle is registered for the id, deletion of its device is requested
    once, and when that deletion succeeds, or when no handle is registered,
    the id is no longer in the registry afterwards; a failed deletion is
    written to the log as an error and is not asked for again. *)
Theorem handleLoggedOut_effects W id instance s s1 :
  getInstanceCached W id s = Ok (Some instance) s1 ->
  ∃ s',
    handleLoggedOut W id s = Ok tt s' ∧
    emitter_chan s' =
      emitter_chan s ++
      (if decide ("CONNECTION_UPDATE" ∈ Events (Webhook instance))
       then [connectionNotice instance "close" (clock s)] else []) ∧
    match clients s !! id with
    | None => calls s' = calls s1 ∧ clients s' !! id = None
    | Some client =>
        calls s' = calls s1 ++ [CallDeleteDevice client] ∧
        match deleteDeviceIfExists W client with
        | None => clients s' = delete id (clients s)
        | Some err =>
            last (logs s') = Some (mkLog Error_ "failed to delete device for instance")
        end
    end.
Proof.
  intros Hget.
  destruct (emitConnectionUpdate_run W id "close" instance s s1 Hget)
    as (s2 & Hrun & Hq & Hc & Hcalls & _).
  unfold handleLoggedOut. rewrite (bind_Ok _ _ _ _ _ Hrun).
  unfold gets, mbind, M_bind. rewrite Hc.
  destruct (clients s !! id) as [client|] eqn:Hcl.
  - unfold call, modify. simpl.
    destruct (deleteDeviceIfExists W client) as [err|] eqn:Hdel; simpl.
    + eexists. split; [reflexivity|]. simpl.
      split; [done|]. split; [by rewrite Hcalls|]. by rewrite last_snoc.
    + eexists. split; [reflexivity|]. simpl.
      split; [done|]. split; [by rewrite Hcalls|]. by rewrite Hc.
  - unfold modify. simpl. eexists. split; [reflexivity|]. simpl.
    split; [done|]. split; [done|]. by rewrite lookup_delete_eq.
Qed.

Lemma handleLoggedOut_effects_witness :
  ∃ s',
    handleLoggedOut (withRepo (fun _ => Success [acme allEvents]) quietWorld)
                    "acme" oneSession = Ok tt s' ∧
    emitter_chan s' = [connectionNotice (acme allEvents) "close" 0%Z].
Proof.
  set (W := withRepo (fun _ => Success [acme allEvents]) quietWorld).
  set (r := getInstanceCached W "acme" oneSession).
  assert (Hr : r = Ok (Some (acme allEvents)) (final r)) by (vm_compute; reflexivity).
  destruct (handleLoggedOut_effects W "acme" (acme allEvents) oneSession (final r) Hr)
    as (s' & Hrun & Hq & _).
  exists s'. split; [exact Hrun|]. exact Hq.
Defined.

(** C7, as stated, fails: a known instance that did not subscribe to
    CONNECTION_UPDATE is sent no notice when it is logged out. *)
Lemma handleLoggedOut_respects_subscription :
  ¬ (∀ W id instance s s1,
       getInstanceCached W id s = Ok (Some instance) s1 ->
       ∃ task, task ∈ emitter_chan (final (handleLoggedOut W id s)) ∧
               WData (data task) = DataConnection "close").
Proof.
  intros H.
  set (W := withRepo (fun _ => Success [acme ["MESSAGES_UPSERT"]]) quietWorld).
  set (r := getInstanceCached W "acme" oneSession).
  assert (Hr : r = Ok (Some (acme ["MESSAGES_UPSERT"])) (final r))
    by (vm_compute; reflexivity).
  destruct (H W "acme" _ oneSession (final r) Hr) as (task & Hin & _).
  vm_compute in Hin. by apply elem_of_nil in Hin.
Qed.

(** When the runtime fails to delete the device, [handleLoggedOut] returns
    before it reaches [s.clients.Delete]: the handle stays registered. *)
Lemma handleLoggedOut_failed_deletion_keeps_handle :
  clients (final (handleLoggedOut
                    (withStuckDevice
                       (withRepo (fun _ => Success [acme allEvents]) quietWorld))
                    "acme" oneSession)) !! "acme" = Some (Some phone).
Proof. vm_compute. reflexivity. Qed.

(** ** Contact conversions *)

Lemma length_zero_eqb (x : string) : (String.length x =? 0)%nat = (x =? "")%string.
Proof. by destruct x. Qed.

Lemma getPic_logged_Ok W id jid s :
  ∃ r s', getPic_logged W id jid s = Ok r s'.
Proof.
  unfold getPic_logged, getPic, gets, mbind, M_bind, call, zap, modify. simpl.
  destruct (clients s !! id) as [[c|]|]; simpl; try (by do 2 eexists).
  destruct (rt_GetProfilePictureInfo W (Some c) jid) as [[u|]|]; simpl;
    try (by do 2 eexists).
  destruct (http_Get W u); simpl; by do 2 eexists.
Qed.

(** Contact source: the name emitted is the first non-empty candidate, and
    a name that is a chat identifier is never emitted. *)
Lemma convertContact_name W id evt s c s' :
  convertContact W id evt s = Ok (Some c) s' ->
  CPushName c = firstNonEmpty (contactCandidates evt) ∧
  CPushName c ≠ "" ∧ isChatIdentifier (CPushName c) = false.
Proof.
  unfold convertContact. unfold mbind at 1, M_bind at 1.
  destruct (getPic_logged W id (events.CJID evt) s) as [[u b] s0|]; [|done].
  unfold contactCandidates. simpl.
  destruct (events.FirstName evt =? "")%string eqn:E1;
    destruct (events.FullName evt =? "")%string eqn:E2;
    destruct (events.Username evt =? "")%string eqn:E3;
    rewrite ?E1, ?E2, ?E3; simpl; try done;
    match goal with
    | |- context [isChatIdentifier ?n] =>
        destruct (isChatIdentifier n) eqn:Hc; [done|];
        destruct (GetJidLid W id (events.CJID evt))
    end;
    intros [= <- <-]; simpl; repeat split; try done;
    intros Hn; rewrite Hn in *; discriminate.
Qed.

Lemma convertBusinessName_name W id evt s c s' :
  convertBusinessName W id evt s = Ok (Some c) s' ->
  CPushName c = firstNonEmpty (businessCandidates evt) ∧
  isChatIdentifier (CPushName c) = false.
Proof.
  unfold convertBusinessName. unfold mbind at 1, M_bind at 1.
  destruct (getPic_logged W id (events.BJID evt) s) as [[u b] s0|]; [|done].
  unfold businessCandidates. simpl.
  destruct (events.BMessage evt) as [[pn [[[v|]]|]]|];
    destruct (events.NewBusinessName evt =? "")%string eqn:E1;
    destruct (events.OldBusinessName evt =? "")%string eqn:E2;
    simpl; rewrite ?E1, ?E2; simpl;
    try (destruct (pn =? "")%string eqn:E3; simpl; rewrite ?E1, ?E2, ?E3; simpl);
    try (destruct (v =? "")%string eqn:E4; simpl);
    match goal with
    | |- context [isChatIdentifier ?n] =>
        destruct (isChatIdentifier n) eqn:Hc; [done|];
        destruct (GetJidLid W id (events.BJID evt))
    end;
    intros [= <- <-]; simpl; split; try done;
    repeat match goal with
           | H : (?x =? "")%string = true |- _ => apply String.eqb_eq in H; subst
           end; done.
Qed.

Lemma convertGroupInfo_name W id evt s c s' :
  convertGroupInfo W id evt s = Ok (Some c) s' ->
  events.GName evt = Some (CPushName c) ∧
  CPushName c ≠ "" ∧ isChatIdentifier (CPushName c) = false.
Proof.
  unfold convertGroupInfo. unfold mbind at 1, M_bind at 1.
  destruct (getPic_logged W id (events.GJID evt) s) as [[u b] s0|]; [|done].
  destruct (events.GName evt) as [g|]; [|done].
  rewrite length_zero_eqb.
  destruct (g =? "")%string eqn:E1; [done|].
  destruct (isChatIdentifier g) eqn:Hc; [done|].
  destruct (GetJidLid W id (events.GJID evt)).
  intros [= <- <-]; simpl; repeat split; try done.
  intros ->. discriminate.
Qed.

Lemma conversationName_first cv :
  conversationName cv = firstNonEmpty (conversationCandidates cv).
Proof.
  unfold conversationName, conversationCandidates. cbn [firstNonEmpty].
  rewrite length_zero_eqb.
  destruct (events.CvName cv =? "")%string eqn:E1;
    rewrite length_zero_eqb, ?E1; [|done].
  destruct (events.CvDisplayName cv =? "")%string eqn:E2; [|done].
  destruct (events.CvUsername cv =? "")%string eqn:E3; [|done].
  by apply String.eqb_eq in E3.
Qed.

(** Push-name source: whenever a contact comes out, the name it carries is
    [NewPushName], also when that one is empty and the name that passed
    the checks was [OldPushName]. *)
Lemma convertPushName_name W id evt s c s' :
  convertPushName W id evt s = Ok (Some c) s' ->
  CPushName c = events.NewPushName evt ∧
  firstNonEmpty (pushNameCandidates evt) ≠ "".
Proof.
  unfold convertPushName. unfold mbind at 1, M_bind at 1.
  destruct (getPic_logged W id (events.PNJID evt) s) as [[u b] s0|]; [|done].
  unfold pushNameCandidates. simpl. rewrite length_zero_eqb.
  destruct (events.NewPushName evt =? "")%string eqn:E1;
    destruct (events.OldPushName evt =? "")%string eqn:E2;
    rewrite ?E1, ?E2; simpl; try done;
    match goal with
    | |- context [isChatIdentifier ?n] =>
        destruct (isChatIdentifier n) eqn:Hc; [done|];
        destruct (GetJidLid W id (events.PNJID evt))
    end;
    intros [= <- <-]; simpl; split; try done;
    intros Hn; rewrite Hn in *; discriminate.
Qed.

(** C8 at the push-name source: for an event whose new name is empty and
    whose old name is "Alice", the first non-empty candidate is "Alice",
    yet the contact put on the channel carries the empty name. *)
Theorem convertPushName_drops_fallback :
  firstNonEmpty (pushNameCandidates renamedAway) = "Alice" ∧
  ∃ task c,
    emitter_chan
      (final (Handle (withRepo (fun _ => Success [acme allEvents]) quietWorld)
                     "acme" (events.EvPushName renamedAway) oneSession)) = [task] ∧
    WData (data task) = DataContacts [c] ∧
    CPushName c = "".
Proof.
  split; [reflexivity|]. do 2 eexists. vm_compute. done.
Qed.

(** The rejection test looks for exactly one "@": a group identifier is
    rejected, a name with two "@" is not. *)
Lemma isChatIdentifier_examples :
  isChatIdentifier "120363@g.us" = true ∧
  isChatIdentifier "5511999990000@s.whatsapp.net" = true ∧
  isChatIdentifier "status@broadcast" = false ∧
  isChatIdentifier "a@b@g.us" = false ∧
  isChatIdentifier "Alice" = false.
Proof. vm_compute. done. Qed.

(** ** Presence scheduler *)

Lemma elem_of_alwaysOnlineBatch (m : gmap string bool) id :
  id ∈ alwaysOnlineBatch m <-> m !! id = Some true.
Proof.
  unfold alwaysOnlineBatch. rewrite list_elem_of_fmap. split.
  - intros ([k v] & -> & Hin). apply list_elem_of_filter in Hin as [Hv Hin].
    simpl in *. subst v. by apply elem_of_map_to_list in Hin.
  - intros H. exists (id, true). split; [done|].
    apply list_elem_of_filter. split; [done|]. by apply elem_of_map_to_list.
Qed.

#[local] Instance batchStep_preorder ids : PreOrder (batchStep ids).
Proof.
  split.
  - intros s. split; [done|]. split; [by left|].
    exists []. by rewrite app_nil_r.
  - intros a b c (Hc1 & Hf1 & q1 & Hq1 & F1) (Hc2 & Hf2 & q2 & Hq2 & F2).
    split; [congruence|]. split.
    + intros id. destruct (Hf2 id) as [He|(Hn & Hin & Hg)].
      * rewrite He. apply Hf1.
      * right. split; [done|]. split; [done|].
        unfold sessionGone in *. by rewrite <- Hc1.
    + exists (q1 ++ q2). split; [by rewrite Hq2, Hq1, app_assoc|].
      apply Forall_app. split; [done|].
      eapply Forall_impl; [exact F2|]. simpl.
      intros c' (id & client & ? & ? & Hcl & ?). exists id, client.
      by rewrite <- Hc1.
Qed.

Lemma evolves_forM_In (R : relation State) `{!PreOrder R} {A}
    (l : list A) (f : A -> M unit) :
  (∀ a, a ∈ l -> evolves R (f a)) -> evolves R (forM_ l f).
Proof.
  induction l as [|x l IH]; intros Hf; simpl.
  - by apply evolves_ret.
  - apply evolves_bind; [done| |].
    + apply Hf. by left.
    + intros _. apply IH. intros a Ha. apply Hf. by right.
Qed.

(** One worker: it always returns, and what it did is a [batchStep] of its
    own id. *)
Lemma alwaysOnlineWorker_step W ids id s :
  id ∈ ids ->
  ∃ s', alwaysOnlineWorker W id s = Ok tt s' ∧ batchStep ids s s' ∧
        (sessionGone s id -> alwaysOnlineIDs s' !! id = None ∧ calls s' = calls s).
Proof.
  intros Hin. unfold alwaysOnlineWorker, gets, mbind, M_bind.
  assert (Hgone : ∀ s0, sessionGone s id ->
            clients s0 = clients s ->
            batchStep ids s (set_alwaysOnlineIDs (delete id (alwaysOnlineIDs s)) s)).
  { intros s0 Hg _. split; [done|]. split.
    - intros id'. simpl. destruct (decide (id' = id)) as [->|Hne].
      + right. by rewrite lookup_delete_eq.
      + left. by rewrite lookup_delete_ne.
    - exists []. by rewrite app_nil_r. }
  destruct (clients s !! id) as [[client|]|] eqn:Hcl.
  - destruct (negb (IsConnected client) || negb (IsLoggedIn client)) eqn:Hconn.
    + eexists. split; [reflexivity|]. split.
      * split; [done|]. split; [by left|]. exists []. by rewrite app_nil_r.
      * intros [Hg|Hg]; rewrite Hcl in Hg; discriminate.
    + apply orb_false_iff in Hconn as [Hc1 Hc2].
      apply negb_false_iff in Hc1, Hc2.
      unfold call, modify. simpl.
      assert (Hstep : ∀ lg, batchStep ids s
                (set_logs lg (set_calls (calls s ++ [CallSendPresence (Some client)]) s))).
      { intros lg. split; [done|]. split; [by left|].
        exists [CallSendPresence (Some client)]. split; [done|].
        constructor; [|done]. by exists id, client. }
      destruct (rt_SendPresence W (Some client)); simpl.
      * eexists. split; [reflexivity|]. split; [apply Hstep|].
        intros [Hg|Hg]; rewrite Hcl in Hg; discriminate.
      * eexists. split; [reflexivity|]. split.
        -- specialize (Hstep (logs s)). by destruct s.
        -- intros [Hg|Hg]; rewrite Hcl in Hg; discriminate.
  - eexists. split; [reflexivity|]. split; [apply (Hgone s); [by right|done]|].
    intros _. simpl. by rewrite lookup_delete_eq.
  - eexists. split; [reflexivity|]. split; [apply (Hgone s); [by left|done]|].
    intros _. simpl. by rewrite lookup_delete_eq.
Qed.

Lemma alwaysOnlineWorker_evolves W ids id :
  id ∈ ids -> evolves (batchStep ids) (alwaysOnlineWorker W id).
Proof.
  intros Hin s. destruct (alwaysOnlineWorker_step W ids id s Hin) as (s' & -> & H & _).
  exact H.
Qed.

Lemma batch_evolves W ids :
  evolves (batchStep ids) (forM_ ids (alwaysOnlineWorker W)).
Proof.
  apply evolves_forM_In; [tc_solve|]. intros id Hin.
  by apply alwaysOnlineWorker_evolves.
Qed.

(** A flag the batch has to clear is cleared by the end of the batch. *)
Lemma batch_clears W all ids id s :
  ids ⊆ all -> id ∈ ids -> sessionGone s id ->
  alwaysOnlineIDs (final (forM_ ids (alwaysOnlineWorker W) s)) !! id = None.
Proof.
  revert s. induction ids as [|x ids IH]; intros s Hsub Hin Hgone.
  - by apply elem_of_nil in Hin.
  - simpl. unfold mbind, M_bind.
    destruct (alwaysOnlineWorker_step W all x s ltac:(apply Hsub; by left))
      as (s1 & -> & (Hc & _) & Hx).
    destruct (decide (x = id)) as [->|Hne].
    + destruct (Hx Hgone) as [Hnone _].
      assert (Hrest : evolves (batchStep all) (forM_ ids (alwaysOnlineWorker W))).
      { apply evolves_forM_In; [tc_solve|]. intros a Ha.
        apply alwaysOnlineWorker_evolves. apply Hsub. by right. }
      destruct (Hrest s1) as (_ & Hf & _).
      destruct (Hf id) as [He|(Hn & _)]; [by rewrite He|done].
    + apply IH.
      * intros a Ha. apply Hsub. by right.
      * apply elem_of_cons in Hin as [?|?]; [congruence|done].
      * unfold sessionGone in *. by rewrite Hc.
Qed.

Lemma processAlwaysOnlineInstances_step W s :
  batchStep (alwaysOnlineBatch (alwaysOnlineIDs s)) s
            (final (processAlwaysOnlineInstances W s)).
Proof.
  unfold processAlwaysOnlineInstances. unfold gets, mbind at 1, M_bind at 1.
  generalize (batch_evolves W (alwaysOnlineBatch (alwaysOnlineIDs s))).
  generalize (alwaysOnlineBatch (alwaysOnlineIDs s)) as ids. intros ids Hb.
  assert (Hlog : ∀ l m, evolves (batchStep ids) (zap l m)).
  { intros l m s0. split; [done|]. split; [by left|]. exists [].
    by rewrite app_nil_r. }
  destruct ids as [|i ids]; [simpl; reflexivity|].
  match goal with
  | |- batchStep _ s (final (?m s)) => cut (evolves (batchStep (i :: ids)) m)
  end.
  { intros Hm. apply Hm. }
  repeat first [ apply Hlog | exact Hb | evolve_step ].
Qed.

(** *** The other operations leave the flags alone *)

#[local] Instance sameFlags_preorder : PreOrder sameFlags.
Proof.
  split; [by intros ?|]. intros a b c H1 H2. unfold sameFlags in *. congruence.
Qed.

Lemma sameCore_sameFlags s s' : sameCore s s' -> sameFlags s s'.
Proof. by intros (_&_&_&?&_). Qed.

Create HintDb quiet.
#[local] Hint Resolve sameCore_zap sameCore_call sameCore_Sleep
  sameCore_convertEventMessage sameCore_convertBusinessName
  sameCore_convertContact sameCore_convertPicture
  sameCore_convertContactHistorySync sameCore_convertGroupInfo
  sameCore_convertPushName : quiet.

(** Walk through a computation that may touch anything but the flags. *)
Ltac flags :=
  repeat first
    [ assumption
    | apply evolves_modify; by intros
    | refine (evolves_weaken sameCore _ _ sameCore_sameFlags _);
        solve [auto with quiet]
    | evolve_step ].

Lemma sameFlags_getInstanceCached W id : evolves sameFlags (getInstanceCached W id).
Proof. intros s. by destruct (getInstanceCached_queues W id s) as (_&_&_&?&_). Qed.

Lemma sameFlags_Handle W id evt : evolves sameFlags (Handle W id evt).
Proof.
  pose proof (sameFlags_getInstanceCached W id).
  unfold Handle, handleLoggedOut, emitConnectionUpdate, handleMessageEvent,
    handleReceiptEvent, handleBusinessNameEvent, handleContactEvent,
    handlePictureEvent, handleHistorySyncEvent, handleGroupInfoEvent,
    handlePushNameEvent, emitContact.
  flags.
Qed.

Lemma sameFlags_retryLoop W remaining attempt url_ body le lc :
  evolves sameFlags (retryLoop W remaining attempt url_ body le lc).
Proof.
  revert attempt le lc. induction remaining as [|r IH]; intros; simpl.
  - apply evolves_ret; tc_solve.
  - unfold Sleep. flags; apply IH.
Qed.

Lemma sameFlags_startEmitter_turn W : evolves sameFlags (startEmitter_turn W).
Proof.
  unfold startEmitter_turn, sendWebhookWithRetry.
  flags; apply sameFlags_retryLoop.
Qed.

Lemma sameCore_run_goroutine W g : evolves sameCore (run_goroutine W g).
Proof.
  destruct g; simpl; unfold sendDeliveryReceipt, markAsReadAfterDelay; quiet.
Qed.

Lemma sameFlags_run_goroutines W : evolves sameFlags (run_goroutines W).
Proof.
  unfold run_goroutines. flags.
  refine (evolves_weaken sameCore _ _ sameCore_sameFlags _).
  apply sameCore_run_goroutine.
Qed.

(** No command touches anything but the audit trail. *)
Lemma sameCore_runCommand W c : evolves sameCore (runCommand W c).
Proof.
  destruct c; simpl;
    unfold SendText, SendAudio, SendImage, SendVideo, SendDocument,
      SendReaction, SendMissedCall, ReadMessage, ChatPresence, DeleteChat,
      ArchiveChat, sendMessage, upload, fetch, deref;
    quiet.
Qed.

(** C9: (1) an id enabled and then disabled is unset and is not part of
    the batch a tick collects; (2) at a tick, an enabled id whose session
    handle is gone has its flag cleared, and the only calls the tick makes
    are presence commands to registered, connected sessions of enabled ids,
    so none goes to the id without a handle; (3) whatever operation runs, a
    flag only changes by [enableAlwaysOnline] (to enabled), by
    [disableAlwaysOnline] (to unset), or at a tick for an enabled id whose
    session is gone (to unset). *)
Theorem alwaysOnline_state_machine W :
  (∀ s id,
     let s2 := final (disableAlwaysOnline id (final (enableAlwaysOnline id s))) in
     alwaysOnlineIDs s2 !! id = None ∧
     id ∉ alwaysOnlineBatch (alwaysOnlineIDs s2)) ∧
  (∀ s id,
     alwaysOnlineIDs s !! id = Some true -> sessionGone s id ->
     let s' := final (processAlwaysOnlineInstances W s) in
     alwaysOnlineIDs s' !! id = None ∧
     ∃ added, calls s' = calls s ++ added ∧ Forall (isPresenceFor s) added) ∧
  (∀ op s id,
     let before := alwaysOnlineIDs s !! id in
     let after := alwaysOnlineIDs (step W op s) !! id in
     after ≠ before ->
     (op = OpEnableAlwaysOnline id ∧ after = Some true) ∨
     (op = OpDisableAlwaysOnline id ∧ after = None) ∨
     (op = OpSchedulerTick ∧ before = Some true ∧ sessionGone s id ∧ after = None)).
Proof.
  split; [|split].
  - intros s id. simpl. rewrite lookup_delete_eq. split; [done|].
    rewrite elem_of_alwaysOnlineBatch. by rewrite lookup_delete_eq.
  - intros s id Hon Hgone s'.
    pose proof (processAlwaysOnlineInstances_step W s) as (Hc & Hf & q & Hq & Fq).
    fold s' in Hc, Hf, Hq. split.
    + subst s'. unfold processAlwaysOnlineInstances.
      unfold gets, mbind at 1, M_bind at 1.
      assert (Hin : id ∈ alwaysOnlineBatch (alwaysOnlineIDs s))
        by (by apply elem_of_alwaysOnlineBatch).
      pose proof (batch_clears W _ _ id
                    (set_logs (logs s ++ [mkLog Info "Processing AlwaysOnline batch"]) s)
                    (reflexivity (alwaysOnlineBatch (alwaysOnlineIDs s))) Hin Hgone)
        as Hclear.
      destruct (alwaysOnlineBatch (alwaysOnlineIDs s)) as [|i ids] eqn:Hb;
        [by apply elem_of_nil in Hin|].
      unfold mbind, M_bind, zap, modify in *. simpl in *.
      match type of Hclear with
      | context [final ?r] => destruct r as [[] ?|? ?]; simpl in *; done
      end.
    + exists q. split; [done|]. eapply Forall_impl; [exact Fq|]. simpl.
      intros c (id' & client & -> & Hin & Hcl & ? & ?).
      exists id', client. by rewrite <- elem_of_alwaysOnlineBatch.
  - intros op s id before after Hchg.
    destruct op as [hid evt| | |eid|did| |c|t]; simpl in *.
    + exfalso. apply Hchg. subst before after.
      by rewrite (sameFlags_Handle W hid evt s).
    + exfalso. apply Hchg. subst before after.
      by rewrite (sameFlags_startEmitter_turn W s).
    + exfalso. apply Hchg. subst before after.
      by rewrite (sameFlags_run_goroutines W s).
    + left. subst before after. simpl in *.
      destruct (decide (eid = id)) as [->|Hne].
      * by rewrite lookup_insert_eq.
      * exfalso. apply Hchg. by rewrite lookup_insert_ne.
    + right; left. subst before after. simpl in *.
      destruct (decide (did = id)) as [->|Hne].
      * by rewrite lookup_delete_eq.
      * exfalso. apply Hchg. by rewrite lookup_delete_ne.
    + right; right.
      pose proof (processAlwaysOnlineInstances_step W s) as (_ & Hf & _).
      destruct (Hf id) as [He|(Hn & Hin & Hg)]; [done|].
      split; [done|]. split; [by apply elem_of_alwaysOnlineBatch|]. done.
    + exfalso. apply Hchg. subst before after.
      by destruct (sameCore_runCommand W c s) as (_&_&_&->&_).
    + done.
Qed.

Lemma alwaysOnline_state_machine_witness :
  alwaysOnlineIDs twoFlags !! "acme" = Some true ∧
  sessionGone twoFlags "acme" ∧
  alwaysOnlineIDs (final (processAlwaysOnlineInstances quietWorld twoFlags))
    !! "acme" = None.
Proof.
  assert (Hon : alwaysOnlineIDs twoFlags !! "acme" = Some true)
    by (vm_compute; reflexivity).
  assert (Hgone : sessionGone twoFlags "acme") by (left; vm_compute; reflexivity).
  split; [exact Hon|]. split; [exact Hgone|].
  destruct (alwaysOnline_state_machine quietWorld) as (_ & Htick & _).
  destruct (Htick twoFlags "acme" Hon Hgone) as [Hcleared _].
  exact Hcleared.
Defined.

(** The session that is there is refreshed, the flag without a session is
    dropped: one tick on [twoFlags]. *)
Lemma tick_on_twoFlags :
  calls (final (processAlwaysOnlineInstances quietWorld twoFlags))
    = [CallSendPresence (Some office)] ∧
  map_to_list (alwaysOnlineIDs (final (processAlwaysOnlineInstances quietWorld twoFlags)))
    = [("globex", true)].
Proof. vm_compute. done. Qed.

(** ** Commands *)

(** C10: each of the eleven commands, called for an instance id that has
    no session handle in the registry, returns [ErrClientIsNil] to its
    caller and leaves the state untouched: no call reaches a session
    runtime or any other collaborator, nothing is logged or queued. *)
Theorem commands_without_session W c s :
  clients s !! instanceOf c = None ->
  runCommand W c s = Ok (Some ErrClientIsNil) s.
Proof.
  intros Hnone.
  destruct c; simpl in *;
    unfold SendText, SendAudio, SendImage, SendVideo, SendDocument,
      SendReaction, SendMissedCall, ReadMessage, ChatPresence, DeleteChat,
      ArchiveChat, gets, mbind, M_bind;
    by rewrite Hnone.
Qed.

Lemma commands_without_session_witness :
  runCommand quietWorld textToNobody oneSession = Ok (Some ErrClientIsNil) oneSession.
Proof.
  apply (commands_without_session quietWorld textToNobody oneSession).
  vm_compute. reflexivity.
Defined.

(** With a session registered the same command reaches the runtime. *)
Lemma SendText_with_session :
  calls (final (runCommand quietWorld
                  (CmdSendText (mkSendText "hi" "acme" (Some alice) "" ""))
                  oneSession))
    = [CallSendMessage (Some phone) alice (OutText "hi" false)].
Proof. vm_compute. reflexivity. Qed.

(** The functions behind the commands, one by one. *)
Lemma SendText_without_session W d s :
  clients s !! st_InstanceID d = None -> SendText W d s = Ok (Failure ErrClientIsNil) s.
Proof. intros H. unfold SendText, gets, mbind, M_bind. by rewrite H. Qed.

Lemma ReadMessage_without_session W d s :
  clients s !! rm_InstanceID d = None -> ReadMessage W d s = Ok (Some ErrClientIsNil) s.
Proof. intros H. unfold ReadMessage, gets, mbind, M_bind. by rewrite H. Qed.

(** ** Routing, on an example *)

Lemma Handle_only_subscribed_witness :
  ∃ q,
    emitter_chan
      (final (Handle (withRepo (fun _ => Success [acme ["MESSAGES_UPDATE"]]) quietWorld)
                     "acme" (events.EvMessage (helloFrom false)) oneSession))
      = emitter_chan oneSession ++ q ∧
    ∀ task, task ∈ q -> WEvent (data task) = WookMessagesUpsert ∧
                        "MESSAGES_UPSERT" ∈ ["MESSAGES_UPDATE"].
Proof.
  destruct (Handle_only_subscribed
              (withRepo (fun _ => Success [acme ["MESSAGES_UPDATE"]]) quietWorld)
              "acme" (events.EvMessage (helloFrom false)) oneSession)
    as (q & Hq & Hall).
  exists q. split; [exact Hq|].
  intros task Hin.
  destruct (Hall task Hin) as (instance & s1 & k & Hget & Hk & He & Hsub & _).
  vm_compute in Hget. injection Hget as <- _.
  injection Hk as <-. split; [exact He|exact Hsub].
Defined.

(** An instance subscribed to message updates only is sent nothing for a
    message, and the notice for a receipt. *)
Lemma Handle_filters_example :
  emitter_chan
    (final (Handle (withRepo (fun _ => Success [acme ["MESSAGES_UPDATE"]]) quietWorld)
                   "acme" (events.EvMessage (helloFrom false)) oneSession)) = [] ∧
  length (emitter_chan
    (final (Handle (withRepo (fun _ => Success [acme ["MESSAGES_UPDATE"]]) quietWorld)
                   "acme"
                   (events.EvReceipt
                      (events.mkReceipt alice alice false ["MSG1"; "MSG2"] 0%Z
                                        events.ReceiptTypeRead))
                   oneSession))) = 2%nat.
Proof. vm_compute. done. Qed.

(** Nothing between the repository and the event loop recovers the panic
    of a failed lookup: it leaves [Handle] as it left the cache. *)
Lemma Handle_lookup_failure_panics W id evt s err :
  cache.Get (instanceCache s) id (clock s) = None ->
  repo_List W id = Failure err ->
  ∃ why s', Handle W id evt s = Panicked why s'.
Proof.
  intros Hmiss Hfail. unfold Handle.
  rewrite (bind_Panicked _ _ _ _ _ (getInstanceCached_miss_failure W id s err Hmiss Hfail)).
  by do 2 eexists.
Qed.


(** * Further properties of the package *)

(** ** The chat-identifier test *)

Lemma Split_not_nil s sep : Split s sep ≠ [].
Proof.
  destruct s as [|c s]; simpl; [done|].
  destruct (Ascii.eqb c sep); [done|]. by destruct (Split s sep).
Qed.

Lemma Join_String c p ps sep :
  Join (String c p :: ps) sep = String c (Join (p :: ps) sep).
Proof. by destruct ps. Qed.

Lemma Join_Split s sep : Join (Split s sep) (String sep "") = s.
Proof.
  induction s as [|c s IH]; [done|]. cbn [Split].
  pose proof (Split_not_nil s sep) as Hne.
  destruct (Split s sep) as [|p ps]; [done|].
  destruct (Ascii.eqb c sep) eqn:E.
  - apply Ascii.eqb_eq in E as ->.
    change (Join ("" :: p :: ps) (String sep ""))
      with (String sep (Join (p :: ps) (String sep ""))).
    by rewrite IH.
  - by rewrite Join_String, IH.
Qed.

Lemma Split_parts_clean s sep :
  Forall (fun p => contains sep p = false) (Split s sep).
Proof.
  induction s as [|c s IH]; simpl; [by constructor|].
  destruct (Ascii.eqb c sep) eqn:E.
  - by constructor.
  - destruct (Split s sep) as [|p ps]; [by repeat constructor; simpl; rewrite E|].
    inversion IH; subst. constructor; [|done]. simpl. by rewrite E.
Qed.

Lemma Split_clean s sep : contains sep s = false -> Split s sep = [s].
Proof.
  induction s as [|c s IH]; [done|]. simpl.
  intros [E Hs]%orb_false_iff. rewrite E. by rewrite (IH Hs).
Qed.

Lemma Split_app_sep u rest sep :
  contains sep u = false ->
  Split (u ++ String sep rest) sep = u :: Split rest sep.
Proof.
  induction u as [|c u IH]; simpl.
  - intros _. by rewrite Ascii.eqb_refl.
  - intros [E Hu]%orb_false_iff. rewrite E, (IH Hu). done.
Qed.

(** X1: the test the contact conversions apply to a name accepts exactly
    the strings made of a part without "@" followed by "@g.us" or by
    "@s.whatsapp.net": one "@", and the server after it spelled out in
    full. *)
Theorem isChatIdentifier_iff name :
  isChatIdentifier name = true <->
  ∃ user, contains "@"%char user = false ∧
          (name = (user ++ "@g.us")%string ∨
           name = (user ++ "@s.whatsapp.net")%string).
Proof.
  unfold isChatIdentifier. split.
  - pose proof (Join_Split name "@"%char) as Hj.
    pose proof (Split_parts_clean name "@"%char) as Hc.
    destruct (Split name "@"%char) as [|u [|d [|x xs]]]; try done.
    intros [E|E]%orb_true_iff; apply String.eqb_eq in E; subst d;
      exists u; (split; [by inversion Hc|]); cbn [Join] in Hj; rewrite <- Hj;
      [by left|by right].
  - intros (u & Hu & [->| ->]).
    + change (u ++ "@g.us")%string with (u ++ String "@"%char "g.us")%string.
      by rewrite (Split_app_sep _ _ _ Hu).
    + change (u ++ "@s.whatsapp.net")%string
        with (u ++ String "@"%char "s.whatsapp.net")%string.
      by rewrite (Split_app_sep _ _ _ Hu).
Qed.

(** ** Receipts *)

Lemma forM_emit {A} (l : list A) (f : A -> WookEvent) url_ s :
  forM_ l (fun x => emit (f x) url_) s =
  Ok tt (set_emitter_chan
           (emitter_chan s ++ ((fun x => mkEmitter url_ (f x)) <$> l)) s).
Proof.
  revert s. induction l as [|x l IH]; intros s; simpl.
  - rewrite app_nil_r. by destruct s.
  - unfold mbind, M_bind. simpl. rewrite IH. simpl.
    by rewrite <- app_assoc.
Qed.

(** X2: a receipt event that passes the subscription and the group filter
    puts one message-update task on the channel per message id, in the
    order of the ids, each carrying the id as message id and key id, the
    status of the receipt type and the receipt's timestamp; a receipt of
    a type other than read or delivered puts nothing.  Nothing else in the
    state changes. *)
Theorem handleReceiptEvent_tasks W id instance e eventMap s :
  eventMap_get eventMap "MESSAGES_UPDATE" = true ->
  canIgnoreGroup W (events.EvReceipt e) instance = false ->
  ∃ updates,
    handleReceiptEvent W id instance e eventMap s =
      Ok tt (set_emitter_chan
               (emitter_chan s ++
                ((fun u => mkEmitter (Url (Webhook instance))
                             (mkWookEvent (ID instance) (DataMessageUpdate u)
                                          (events.RTimestamp e) WookMessagesUpdate))
                   <$> updates)) s) ∧
    match receiptStatus (events.Type_ e) with
    | None => updates = []
    | Some status =>
        UMessageId <$> updates = events.MessageIDs e ∧
        UKeyId <$> updates = events.MessageIDs e ∧
        Forall (fun u => UStatus u = status ∧ UInstanceId u = id ∧
                         UFromMe u = events.RIsFromMe e) updates
    end.
Proof.
  intros Hsub Hgrp. unfold handleReceiptEvent. rewrite Hsub, Hgrp. simpl.
  exists (convertEventReceipt W id e). split; [apply forM_emit|].
  unfold convertEventReceipt, receiptStatus.
  destruct (events.Type_ e); try done;
    destruct (GetJidLid W id (events.RChat e)) as [cj cl];
    destruct (GetJidLid W id (events.RSender e)) as [pj pl];
    rewrite <- !list_fmap_compose; simpl;
    (split; [apply list_fmap_id|]); (split; [apply list_fmap_id|]);
    apply Forall_fmap, Forall_true; done.
Qed.

Lemma handleReceiptEvent_tasks_witness :
  ∃ s',
    handleReceiptEvent quietWorld "acme" (acme allEvents)
      (events.mkReceipt alice alice false ["MSG1"; "MSG2"] 7%Z events.ReceiptTypeRead)
      (make_eventMap allEvents) oneSession = Ok tt s' ∧
    length (emitter_chan s') = 2%nat.
Proof.
  destruct (handleReceiptEvent_tasks quietWorld "acme" (acme allEvents)
              (events.mkReceipt alice alice false ["MSG1"; "MSG2"] 7%Z
                                events.ReceiptTypeRead)
              (make_eventMap allEvents) oneSession)
    as (updates & Hrun & Hids & _).
  - vm_compute. reflexivity.
  - reflexivity.
  - eexists. split; [exact Hrun|]. simpl.
    apply (f_equal length) in Hids. rewrite length_fmap in Hids.
    rewrite length_fmap. exact Hids.
Defined.

(** ** Profile pictures *)

(** X3: [getPic] never panics and never touches the queues or the
    registry.  Without a session handle it reports an error and calls no
    collaborator; an error of the runtime's picture lookup is swallowed
    (empty result, nil error); a non-empty URL is returned only when the
    runtime gave that URL and fetching it succeeded, after exactly these
    two calls, together with the encoded body and a nil error. *)
Theorem getPic_outcomes W id jid s :
  ∃ u b e s',
    getPic W id jid s = Ok (u, b, e) s' ∧
    sameCore s s' ∧
    (sessionGone s id -> u = "" ∧ b = "" ∧ e ≠ None ∧ calls s' = calls s) ∧
    (∀ client err,
       clients s !! id = Some (Some client) ->
       rt_GetProfilePictureInfo W (Some client) jid = Failure err ->
       u = "" ∧ b = "" ∧ e = None) ∧
    (u ≠ "" ->
     e = None ∧
     ∃ client picRaw,
       clients s !! id = Some (Some client) ∧
       rt_GetProfilePictureInfo W (Some client) jid = Success (Some u) ∧
       http_Get W u = Success picRaw ∧
       b = EncodeToString W picRaw ∧
       calls s' = calls s ++ [CallGetProfilePictureInfo (Some client) jid;
                              CallHttpGet u]).
Proof.
  pose proof (sameCore_getPic W id jid s) as Hcore.
  unfold getPic, gets, mbind, M_bind, call, zap, modify in *. simpl in *.
  unfold sessionGone.
  destruct (clients s !! id) as [[client|]|] eqn:Hcl; simpl in *.
  - destruct (rt_GetProfilePictureInfo W (Some client) jid) as [[u|]|err0] eqn:Hrt;
      simpl in *.
    + destruct (http_Get W u) as [raw|err1] eqn:Hget; simpl in *.
      * do 4 eexists. split; [reflexivity|]. split; [exact Hcore|].
        split; [by intros [?|?]|]. split; [intros ? ? [= <-] ?; congruence|].
        intros Hu. split; [done|]. exists client, raw. simpl.
        by rewrite <- app_assoc.
      * do 4 eexists. split; [reflexivity|]. split; [exact Hcore|].
        split; [by intros [?|?]|]. split; [intros ? ? [= <-] ?; congruence|]. done.
    + do 4 eexists. split; [reflexivity|]. split; [exact Hcore|].
      split; [by intros [?|?]|]. done.
    + do 4 eexists. split; [reflexivity|]. split; [exact Hcore|].
      split; [by intros [?|?]|]. done.
  - do 4 eexists. split; [reflexivity|]. split; [exact Hcore|]. done.
  - do 4 eexists. split; [reflexivity|]. split; [exact Hcore|]. done.
Qed.

Lemma getPic_logged_run W id jid s :
  ∃ u b s', getPic_logged W id jid s = Ok (u, b) s' ∧ sameCore s s' ∧
            (sessionGone s id -> u = "").
Proof.
  pose proof (sameCore_getPic_logged W id jid s) as Hcore.
  unfold getPic_logged, getPic, gets, mbind, M_bind, call, zap, modify in *.
  simpl in *. unfold sessionGone.
  destruct (clients s !! id) as [[client|]|]; simpl in *;
    try (do 3 eexists; split; [reflexivity|]; split; [exact Hcore|]; done).
  destruct (rt_GetProfilePictureInfo W (Some client) jid) as [[u|]|]; simpl in *;
    try (do 3 eexists; split; [reflexivity|]; split; [exact Hcore|];
         by intros [?|?]).
  destruct (http_Get W u); simpl in *;
    do 3 eexists; (split; [reflexivity|]); (split; [exact Hcore|]);
    by intros [?|?].
Qed.



(** ** Names of contacts *)

(** X5: [convertContact] always returns; it gives a contact exactly when
    the first non-empty of first name, full name and username exists and
    is not a chat identifier, and the contact then carries that name, the
    id of the instance and the pair [GetJidLid] gives for the JID. *)
Theorem convertContact_result W id evt s :
  let name := firstNonEmpty (contactCandidates evt) in
  ∃ r s',
    convertContact W id evt s = Ok r s' ∧ sameCore s s' ∧
    match r with
    | Some c =>
        name ≠ "" ∧ isChatIdentifier name = false ∧
        CPushName c = name ∧ CInstanceId c = id ∧
        (RemoteJid c, RemoteLid c) = GetJidLid W id (events.CJID evt)
    | None => name = "" ∨ isChatIdentifier name = true
    end.
Proof.
  intros name. pose proof (sameCore_convertContact W id evt s) as Hcore.
  unfold convertContact in *. unfold mbind at 1, M_bind at 1 in Hcore.
  unfold mbind at 1, M_bind at 1.
  destruct (getPic_logged_run W id (events.CJID evt) s) as (u & b & s1 & Hrun & _).
  rewrite Hrun in *. subst name. unfold contactCandidates. simpl.
  destruct (events.FirstName evt =? "")%string eqn:E1;
    [destruct (events.FullName evt =? "")%string eqn:E2;
     [destruct (events.Username evt =? "")%string eqn:E3|]|];
    rewrite ?E1, ?E2, ?E3 in *; simpl in *;
    try (do 2 eexists; split; [reflexivity|]; split; [exact Hcore|]; by left);
    match goal with
    | |- context [isChatIdentifier ?n] =>
        destruct (isChatIdentifier n) eqn:Hc;
        [do 2 eexists; split; [reflexivity|]; split; [exact Hcore|]; by right|];
        destruct (GetJidLid W id (events.CJID evt)) eqn:Hj;
        do 2 eexists; split; [reflexivity|]; split; [exact Hcore|];
        repeat split; try done; intros Hn; rewrite Hn in *; discriminate
    end.
Qed.

(** X6: [convertBusinessName] has no test for an empty name: it gives no
    contact only when the resolved name is a chat identifier, so a business
    event none of whose candidates is set still yields a contact, with the
    empty name. *)
Theorem convertBusinessName_result W id evt s :
  let name := firstNonEmpty (businessCandidates evt) in
  ∃ r s',
    convertBusinessName W id evt s = Ok r s' ∧ sameCore s s' ∧
    match r with
    | Some c =>
        isChatIdentifier name = false ∧ CPushName c = name ∧ CInstanceId c = id
    | None => isChatIdentifier name = true
    end.
Proof.
  intros name. pose proof (sameCore_convertBusinessName W id evt s) as Hcore.
  unfold convertBusinessName in *. unfold mbind at 1, M_bind at 1 in Hcore.
  unfold mbind at 1, M_bind at 1.
  destruct (getPic_logged_run W id (events.BJID evt) s) as (u & b & s1 & Hrun & _).
  rewrite Hrun in *. subst name. unfold businessCandidates. simpl.
  destruct (events.BMessage evt) as [[pn [[[v|]]|]]|];
    destruct (events.NewBusinessName evt =? "")%string eqn:E1;
    destruct (events.OldBusinessName evt =? "")%string eqn:E2;
    simpl in *; rewrite ?E1, ?E2 in *; simpl in *;
    try (destruct (pn =? "")%string eqn:E3; simpl in *;
         rewrite ?E1, ?E2, ?E3 in *; simpl in *);
    try (destruct (v =? "")%string eqn:E4; simpl in *);
    match goal with
    | |- context [isChatIdentifier ?n] =>
        destruct (isChatIdentifier n) eqn:Hc;
        [ do 2 eexists; split; [reflexivity|]; split; [exact Hcore|]
        | destruct (GetJidLid W id (events.BJID evt)) eqn:Hj;
          do 2 eexists; split; [reflexivity|]; split; [exact Hcore|];
          simpl; repeat split ]
    end;
    repeat match goal with
           | H : (?x =? "")%string = true |- _ => apply String.eqb_eq in H
           end;
    try done; congruence.
Qed.

(** ** History sync *)

Lemma historyPushnames_run W id event (m : gmap string WookContact) s :
  ∃ r s',
    historyPushnames W id event m s = Ok r s' ∧
    (map_Forall (fun _ c => presentable id c) m ->
     ∀ m', r = Some m' -> map_Forall (fun _ c => presentable id c) m') ∧
    (Exists (fun pn => isChatIdentifier (events.PnPushname pn) = true) event ->
     r = None).
Proof.
  revert m s. induction event as [|pn rest IH]; intros m s; simpl.
  - do 2 eexists. split; [reflexivity|]. split; [by intros ? ? [= <-]|].
    by intros ?%Exists_nil.
  - rewrite length_zero_eqb.
    destruct (events.PnPushname pn =? "")%string eqn:E.
    + destruct (IH m s) as (r & s' & Hrun & Hinv & Hbad).
      exists r, s'. split; [done|]. split; [done|].
      intros [Hhd|Htl]%Exists_cons; [|by apply Hbad].
      apply String.eqb_eq in E. rewrite E in Hhd. discriminate.
    + destruct (isChatIdentifier (events.PnPushname pn)) eqn:Hc.
      * do 2 eexists. split; [reflexivity|]. done.
      * destruct (ParseJID W (events.PnID pn)) as [jid|err].
        -- destruct (GetJidLid W id jid) as [jp lid].
           destruct (IH (<[jp := mkWookContact jp lid (events.PnPushname pn) "" "" id]> m) s)
             as (r & s' & Hrun & Hinv & Hbad).
           exists r, s'. split; [done|]. split.
           ++ intros Hm. apply Hinv. apply map_Forall_insert_2; [|done].
              repeat split; try done. simpl. intros Hn. rewrite Hn in E. discriminate.
           ++ intros [Hhd|Htl]%Exists_cons; [congruence|by apply Hbad].
        -- do 2 eexists. split; [reflexivity|]. done.
Qed.

Lemma historyConversations_run W id conversations (m : gmap string WookContact) s :
  ∃ r s',
    historyConversations W id conversations m s = Ok r s' ∧
    (map_Forall (fun _ c => presentable id c) m ->
     ∀ m', r = Some m' -> map_Forall (fun _ c => presentable id c) m') ∧
    (Exists (fun cv => isChatIdentifier (conversationName cv) = true) conversations ->
     r = None).
Proof.
  revert m s. induction conversations as [|cv rest IH]; intros m s; simpl.
  - do 2 eexists. split; [reflexivity|]. split; [by intros ? ? [= <-]|].
    by intros ?%Exists_nil.
  - rewrite length_zero_eqb.
    destruct (conversationName cv =? "")%string eqn:E.
    + destruct (IH m s) as (r & s' & Hrun & Hinv & Hbad).
      exists r, s'. split; [done|]. split; [done|].
      intros [Hhd|Htl]%Exists_cons; [|by apply Hbad].
      apply String.eqb_eq in E. rewrite E in Hhd. discriminate.
    + destruct (isChatIdentifier (conversationName cv)) eqn:Hc.
      * do 2 eexists. split; [reflexivity|]. done.
      * destruct (ParseJID W (events.CvID cv)) as [jid|err].
        -- destruct (GetJidLid W id jid) as [jp lid].
           destruct (IH (<[events.CvID cv :=
                            mkWookContact jp lid (conversationName cv) "" "" id]> m) s)
             as (r & s' & Hrun & Hinv & Hbad).
           exists r, s'. split; [done|]. split.
           ++ intros Hm. apply Hinv. apply map_Forall_insert_2; [|done].
              repeat split; try done. simpl. intros Hn. rewrite Hn in E. discriminate.
           ++ intros [Hhd|Htl]%Exists_cons; [congruence|by apply Hbad].
        -- do 2 eexists. split; [reflexivity|]. done.
Qed.

Lemma historyPictures_run W id cs s :
  ∃ res s',
    historyPictures W id cs s = Ok res s' ∧
    (Forall (presentable id) cs -> Forall (presentable id) res).
Proof.
  revert s. induction cs as [|c rest IH]; intros s; simpl.
  - do 2 eexists. split; [reflexivity|]. done.
  - destruct (ParseJID W (RemoteJid c)) as [jid|err].
    + destruct (getPic_logged_run W id jid s) as (u & b & s1 & Hrun & _).
      unfold mbind, M_bind. rewrite Hrun.
      destruct (IH s1) as (res & s2 & Hrest & Hinv). rewrite Hrest.
      do 2 eexists. split; [reflexivity|].
      intros [Hc Hr]%Forall_cons. constructor; [|by apply Hinv].
      destruct Hc as (?&?&?). by repeat split.
    + destruct (IH s) as (res & s2 & Hrest & Hinv).
      exists res, s2. split; [done|].
      intros [Hc Hr]%Forall_cons. by apply Hinv.
Qed.

(** X7: [convertContactHistorySync] always returns.  Every contact it
    returns has a non-empty name that is not a chat identifier and carries
    the id of the instance; entries without a name are skipped; and one
    push name or conversation name that is a chat identifier, wherever it
    stands in the batch, makes the result empty: the whole batch is
    dropped, not the one entry. *)
Theorem convertContactHistorySync_result W id event conversations s :
  ∃ res s',
    convertContactHistorySync W id event conversations s = Ok res s' ∧
    sameCore s s' ∧
    Forall (presentable id) res ∧
    (Exists (fun pn => isChatIdentifier (events.PnPushname pn) = true) event ∨
     Exists (fun cv => isChatIdentifier (conversationName cv) = true) conversations ->
     res = []).
Proof.
  pose proof (sameCore_convertContactHistorySync W id event conversations s) as Hcore.
  unfold convertContactHistorySync in *. unfold mbind, M_bind in *.
  destruct (historyPushnames_run W id event ∅ s) as (r1 & s1 & H1 & Hinv1 & Hbad1).
  rewrite H1 in *.
  destruct r1 as [m1|].
  - destruct (historyConversations_run W id conversations m1 s1)
      as (r2 & s2 & H2 & Hinv2 & Hbad2).
    rewrite H2 in *. destruct r2 as [m2|].
    + destruct (historyPictures_run W id (snd <$> map_to_list m2) s2)
        as (res & s3 & H3 & Hinv3).
      rewrite H3 in *. exists res, s3. split; [done|]. split; [exact Hcore|]. split.
      * apply Hinv3.
        assert (Hm2 : map_Forall (fun _ c => presentable id c) m2).
        { apply (Hinv2 (Hinv1 (map_Forall_empty _) m1 eq_refl) m2 eq_refl). }
        apply Forall_fmap. apply map_Forall_to_list in Hm2.
        eapply Forall_impl; [exact Hm2|]. by intros [k c].
      * intros [Hb|Hb]; [by specialize (Hbad1 Hb)|by specialize (Hbad2 Hb)].
    + do 2 eexists. split; [reflexivity|]. split; [exact Hcore|]. done.
  - do 2 eexists. split; [reflexivity|]. split; [exact Hcore|]. done.
Qed.

(** The batch is dropped: two good names and one chat identifier give no
    notification at all. *)
Lemma history_batch_dropped :
  emitter_chan
    (final (Handle (withRepo (fun _ => Success [acme allEvents]) quietWorld) "acme"
              (events.EvHistorySync
                 (events.mkHistorySync
                    [ events.mkPushname "5511@s.whatsapp.net" "Bob";
                      events.mkPushname "5512@s.whatsapp.net" "120363@g.us";
                      events.mkPushname "5513@s.whatsapp.net" "Carol" ] []))
              oneSession)) = [].
Proof. vm_compute. reflexivity. Qed.

(** ** Receipt goroutines *)

(** X8: what the two receipt goroutines do.  [sendDeliveryReceipt] makes
    one [MarkRead] call of type delivered, stamped with the time of the
    message, when a non-nil session handle is registered, and none
    otherwise.  [markAsReadAfterDelay] always sleeps first; the handle is
    looked up after the sleep, and the read receipt (no receipt type) is
    stamped with the time after the delay.  Neither panics, neither
    returns anything, whatever the runtime answers. *)
Theorem receipt_goroutines W id e delay s :
  (∃ s1,
     sendDeliveryReceipt W id e s = Ok tt s1 ∧ sameCore s s1 ∧
     clock s1 = clock s ∧
     calls s1 = calls s ++
       match clients s !! id with
       | Some (Some c) => [deliveryReceiptCall (Some c) e]
       | _ => []
       end) ∧
  (∃ s2,
     markAsReadAfterDelay W id e delay s = Ok tt s2 ∧ sameCore s s2 ∧
     clock s2 = (clock s + delay)%Z ∧
     calls s2 = calls s ++ CallSleep delay ::
       match clients s !! id with
       | Some (Some c) => [readReceiptCall (Some c) e (clock s + delay)%Z]
       | _ => []
       end).
Proof.
  split.
  - pose proof (sameCore_run_goroutine W (GoSendDeliveryReceipt id e) s) as Hcore.
    simpl in Hcore.
    unfold sendDeliveryReceipt, gets, mbind, M_bind, call, zap, modify in *.
    simpl in *. unfold deliveryReceiptCall.
    destruct (clients s !! id) as [[c|]|]; simpl in *;
      try (eexists; split; [reflexivity|]; split; [exact Hcore|];
           by rewrite app_nil_r).
    destruct (rt_MarkRead W _ _ _ _ _); simpl in *;
      eexists; (split; [reflexivity|]); (split; [exact Hcore|]); done.
  - pose proof (sameCore_run_goroutine W (GoMarkAsReadAfterDelay id e delay) s)
      as Hcore.
    simpl in Hcore.
    unfold markAsReadAfterDelay, Sleep, now, gets, mbind, M_bind, call, zap, modify
      in *.
    simpl in *. unfold readReceiptCall.
    destruct (clients s !! id) as [[c|]|]; simpl in *;
      try (eexists; split; [reflexivity|]; split; [exact Hcore|]; done).
    destruct (rt_MarkRead W _ _ _ _ _); simpl in *;
      eexists; (split; [reflexivity|]); (split; [exact Hcore|]);
      by rewrite <- app_assoc.
Qed.

(** ** Media relay *)

(** X9: [uploadMessageFile] panics exactly when the temporary file cannot
    be created, before any call.  Otherwise it returns; a failed download
    gives two empty results after the download call alone; an inlined body
    is returned only if the instance's webhook asks for base64, a URL only
    if a file storage is configured and the download succeeded, and
    without a file storage nothing is uploaded. *)
Theorem uploadMessageFile_outcomes W instance client fileMessage mimetype fileName s :
  (CreateTemp_ok W = false ->
   ∃ why, uploadMessageFile W instance client fileMessage mimetype fileName s
          = Panicked why s) ∧
  (CreateTemp_ok W = true ->
   ∃ u b s',
     uploadMessageFile W instance client fileMessage mimetype fileName s
       = Ok (u, b) s' ∧
     sameCore s s' ∧
     (∀ err, rt_DownloadToFile W client fileMessage = Failure err ->
             u = "" ∧ b = "" ∧
             calls s' = calls s ++ [CallDownload client mimetype]) ∧
     (b ≠ "" -> Base64 (Webhook instance) = Some true) ∧
     (u ≠ "" -> fileStorage W ≠ None ∧
                ∃ content, rt_DownloadToFile W client fileMessage = Success content) ∧
     (fileStorage W = None ->
      u = "" ∧ List.filter isStorageUpload (calls s')
               = List.filter isStorageUpload (calls s))).
Proof.
  split.
  - intros Htmp. unfold uploadMessageFile. rewrite Htmp. by eexists.
  - intros Htmp.
    pose proof (sameCore_uploadMessageFile W instance client fileMessage mimetype
                  fileName s) as Hcore.
    unfold uploadMessageFile in *. rewrite Htmp in *. simpl in *.
    unfold gets, mbind, M_bind, call, zap, modify in *. simpl in *.
    destruct (rt_DownloadToFile W client fileMessage) as [content|err0]; simpl in *.
    + destruct (fileStorage W) as [up|] eqn:Hfs; simpl in *.
      * destruct (up _ mimetype content) as [url_|err1]; simpl in *;
          do 3 eexists; (split; [reflexivity|]); (split; [exact Hcore|]);
          (split; [done|]);
          (split; [by destruct (Base64 (Webhook instance)) as [[]|]|]);
          (split; [intros _; split; [done|by eexists]|]); done.
      * do 3 eexists. split; [reflexivity|]. split; [exact Hcore|].
        split; [done|].
        split; [by destruct (Base64 (Webhook instance)) as [[]|]|].
        split; [done|]. intros _. split; [done|]. simpl.
        rewrite List.filter_app. simpl. by rewrite app_nil_r.
    + do 3 eexists. split; [reflexivity|]. split; [exact Hcore|].
      split; [done|]. split; [done|]. split; [done|].
      intros _. split; [done|]. simpl.
      rewrite List.filter_app. simpl. by rewrite app_nil_r.
Qed.

(** ** Message conversion *)

Lemma parseWAMessage_known W m : (parseWAMessage W m).1.1 ∈ messageTypes.
Proof.
  unfold parseWAMessage, messageTypes. destruct m as [wm|]; simpl;
    [|repeat constructor].
  destruct (events.ReactionMessage wm), (events.ListResponseMessage wm),
    (events.ImageMessage wm), (events.AudioMessage wm),
    (events.DocumentMessage wm), (events.VideoMessage wm),
    (events.ContactMessage wm), (events.ContactsArrayMessage wm);
    simpl; try (solve [repeat constructor]).
  destruct (negb (TrimSpace W (events.Conversation wm) =? "")%string);
    [repeat constructor|].
  destruct (events.ExtendedTextMessage wm) as [[text ci]|]; [|repeat constructor].
  destruct (0 <? String.length text)%nat; repeat constructor.
Qed.

(** X10: the type [parseWAMessage] answers is one of ten names; a reaction
    wins over everything else the message carries; and a media type is
    answered only when the part of that name is present, so the upload
    step that follows always finds the part it asks for. *)
Theorem parseWAMessage_type W m :
  let t := (parseWAMessage W m).1.1 in
  t ∈ messageTypes ∧
  (∀ wm r, m = Some wm -> events.ReactionMessage wm = Some r ->
           t = "reactionMessage") ∧
  (t = "imageMessage" -> ∃ wm x, m = Some wm ∧ events.ImageMessage wm = Some x) ∧
  (t = "audioMessage" -> ∃ wm x, m = Some wm ∧ events.AudioMessage wm = Some x) ∧
  (t = "documentMessage" ->
   ∃ wm x, m = Some wm ∧ events.DocumentMessage wm = Some x) ∧
  (t = "videoMessage" -> ∃ wm x, m = Some wm ∧ events.VideoMessage wm = Some x) ∧
  (m = None -> t = "unknown").
Proof.
  unfold parseWAMessage, messageTypes. destruct m as [wm|]; simpl.
  - destruct (events.ReactionMessage wm) eqn:E1;
      [|destruct (events.ListResponseMessage wm) eqn:E2;
        [|destruct (events.ImageMessage wm) eqn:E3;
          [|destruct (events.AudioMessage wm) eqn:E4;
            [|destruct (events.DocumentMessage wm) eqn:E5;
              [|destruct (events.VideoMessage wm) eqn:E6;
                [|destruct (events.ContactMessage wm) eqn:E7;
                  [|destruct (events.ContactsArrayMessage wm) eqn:E8;
                    [|destruct (negb (TrimSpace W (events.Conversation wm) =? "")%string);
                      [|destruct (events.ExtendedTextMessage wm) as [[text ci]|];
                        [destruct (0 <? String.length text)%nat|]]]]]]]]]];
      simpl;
      (split; [set_solver|]);
      (split; [intros ? ? [= <-] ?; congruence|]);
      repeat split;
      first [ by intros [=] | (intros _; do 2 eexists; split; [reflexivity|eassumption]) ].
  - split; [set_solver|]. repeat split; first [ by intros [=] | done ].
Qed.

Lemma mediaType_eqb t :
  t ∉ mediaTypes ->
  (t =? "imageMessage")%string = false ∧ (t =? "audioMessage")%string = false ∧
  (t =? "documentMessage")%string = false ∧ (t =? "videoMessage")%string = false.
Proof.
  intros Hn. repeat split; apply String.eqb_neq; intros ->; apply Hn;
    unfold mediaTypes; set_solver.
Qed.

(** X11: [convertEventMessage] gives nothing when no session is registered
    for the id (a warning is logged) or when the event has no message, and
    in both cases calls no collaborator.  When it gives a message, the
    status is "sent" for a from-me message and "received" otherwise, the
    key repeats the from-me mark and the message id of the unwrapped
    event, the source is "whatsapp", the type is one of the ten names, and
    a message with an external ad reply is always typed "conversation".
    Media is only fetched for the four media types. *)
Theorem convertEventMessage_result W id instance evt s :
  (clients s !! id = None ->
   ∃ s', convertEventMessage W id instance evt s = Ok None s' ∧
         calls s' = calls s ∧ sameCore s s') ∧
  (events.Message_ evt = None ->
   ∃ s', convertEventMessage W id instance evt s = Ok None s' ∧
         calls s' = calls s) ∧
  (∀ md s',
     convertEventMessage W id instance evt s = Ok (Some md) s' ->
     let e := UnwrapRaw W evt in
     Status md = (if events.IsFromMe (events.Info e) then "sent" else "received") ∧
     KFromMe (Key md) = events.IsFromMe (events.Info e) ∧
     KId (Key md) = events.MsgID (events.Info e) ∧
     MDInstanceId md = id ∧ Source md = "whatsapp" ∧
     MessageType md ∈ messageTypes ∧
     (HasAdReply md = true -> MessageType md = "conversation") ∧
     MessageTimestamp md = default (clock s) (events.Timestamp (events.Info e)) ∧
     ((parseWAMessage W (events.Message_ e)).1.1 ∉ mediaTypes ->
      calls s' = calls s)).
Proof.
  split; [|split].
  - intros Hnone. unfold convertEventMessage, gets, mbind, M_bind. rewrite Hnone.
    eexists. split; [reflexivity|]. done.
  - intros Hnil. unfold convertEventMessage, gets, mbind, M_bind. rewrite Hnil.
    destruct (clients s !! id); eexists; (split; [reflexivity|]); done.
  - intros md s' Hrun e.
    pose proof (parseWAMessage_known W (events.Message_ e)) as Hty.
    unfold convertEventMessage, gets, now, gets in Hrun.
    unfold mbind at 1, M_bind at 1 in Hrun.
    destruct (clients s !! id) as [client|]; [|done].
    destruct (events.Message_ evt) as [wm0|]; [|done].
    destruct (GetJidLid W id (events.Chat (events.Info evt))) as [jid lid].
    destruct (GetJidLid W id (events.Sender (events.Info evt))) as [sj sl].
    fold e in Hrun. unfold mbind at 1, M_bind at 1 in Hrun.
    destruct (parseWAMessage W (events.Message_ e)) as [[t raw] ci] eqn:Hp.
    simpl in Hty.
    match type of Hrun with
    | (mbind _ ?X) _ = _ => set (up := X) in *
    end.
    assert (Hquiet : t ∉ mediaTypes -> up s = Ok (MediaURL raw, RawBase64 raw) s).
    { intros Hn. subst up. destruct (mediaType_eqb t Hn) as (-> & -> & -> & ->).
      by destruct (events.Message_ e). }
    clearbody up.
    unfold mbind, M_bind in Hrun.
    destruct (up s) as [[u b] s1|] eqn:HX; [|done].
    injection Hrun as <- <-. simpl.
    repeat split; try done.
    + destruct ci as [[sid []]|]; simpl; [|done|done].
      unfold messageTypes. repeat constructor.
    + by destruct ci as [[sid []]|].
    + intros Hn. specialize (Hquiet Hn). by injection Hquiet as _ _ <-.
Qed.

(** ** Lookups *)

(** X12: [getInstance] does not read the cache: it asks the repository on
    every call, also when a snapshot is cached, and a successful answer
    replaces what the cache held, so that [getInstanceCached] right after
    returns the fresh snapshot without another lookup. *)
Theorem getInstance_refreshes W id s r0 rest :
  repo_List W id = Success (r0 :: rest) ->
  ∃ s1,
    getInstance W id s = Ok (Some r0) s1 ∧
    lookups s1 = S (lookups s) ∧
    getInstanceCached W id s1 = Ok (Some r0) s1.
Proof.
  intros Hrepo. unfold getInstance, now, gets, call, modify, mbind, M_bind.
  simpl. rewrite Hrepo. simpl. eexists. split; [reflexivity|]. split.
  - unfold lookups. simpl. rewrite List.filter_app, length_app. simpl. lia.
  - apply getInstanceCached_hit. simpl. apply cache_Get_Set.
Qed.

Lemma getInstance_refreshes_witness :
  cache.Get (instanceCache staleCache) "acme" 0%Z = Some (acme []) ∧
  ∃ s1,
    getInstance (withRepo (fun _ => Success [acme allEvents]) quietWorld)
                "acme" staleCache = Ok (Some (acme allEvents)) s1 ∧
    lookups s1 = 1%nat ∧
    getInstanceCached (withRepo (fun _ => Success [acme allEvents]) quietWorld)
                      "acme" s1 = Ok (Some (acme allEvents)) s1.
Proof.
  split; [vm_compute; reflexivity|].
  apply (getInstance_refreshes
           (withRepo (fun _ => Success [acme allEvents]) quietWorld)
           "acme" staleCache (acme allEvents) []).
  reflexivity.
Defined.

(** X13: an id the repository does not know is not remembered.  An event
    for it is dropped (nothing queued, no goroutine, registry and cache
    untouched, a warning logged) at the price of one lookup, and the next
    event for the same id misses the cache again and pays the same
    price. *)
Theorem Handle_unknown_instance W id evt s :
  cache.Get (instanceCache s) id (clock s) = None ->
  repo_List W id = Success [] ->
  ∃ s',
    Handle W id evt s = Ok tt s' ∧ sameCore s s' ∧
    lookups s' = S (lookups s) ∧
    clock s' = clock s ∧
    cache.Get (instanceCache s') id (clock s') = None ∧
    ∀ evt', ∃ s'', Handle W id evt' s' = Ok tt s'' ∧
                   lookups s'' = S (S (lookups s)).
Proof.
  intros Hmiss Hrepo.
  assert (Hone : ∀ e0 s0,
            cache.Get (instanceCache s0) id (clock s0) = None ->
            ∃ s1, Handle W id e0 s0 = Ok tt s1 ∧ sameCore s0 s1 ∧
                  lookups s1 = S (lookups s0) ∧ clock s1 = clock s0 ∧
                  cache.Get (instanceCache s1) id (clock s1) = None).
  { intros e0 s0 Hm. unfold Handle.
    rewrite (bind_Ok _ _ _ _ _ (getInstanceCached_miss_empty W id s0 Hm Hrepo)).
    eexists. split; [reflexivity|]. split; [done|]. split; [|done].
    unfold lookups. simpl. rewrite List.filter_app, length_app. simpl. lia. }
  destruct (Hone evt s Hmiss) as (s' & Hrun & Hcore & Hl & Hc & Hm').
  exists s'. repeat split; try done; try apply Hcore.
  intros evt'. destruct (Hone evt' s' Hm') as (s'' & Hrun' & _ & Hl' & _).
  exists s''. split; [done|]. by rewrite Hl', Hl.
Qed.

Lemma Handle_unknown_instance_witness :
  ∃ s',
    Handle quietWorld "ghost" (events.EvMessage (helloFrom false)) oneSession
      = Ok tt s' ∧
    lookups s' = 1%nat.
Proof.
  destruct (Handle_unknown_instance quietWorld "ghost"
              (events.EvMessage (helloFrom false)) oneSession)
    as (s' & Hrun & _ & Hl & _).
  - vm_compute. reflexivity.
  - reflexivity.
  - exists s'. split; [exact Hrun|exact Hl].
Defined.

(** ** After a logout *)

Lemma runCommand_no_session W c s :
  clients s !! instanceOf c = None ->
  runCommand W c s = Ok (Some ErrClientIsNil) s.
Proof.
  intros Hnone.
  destruct c; simpl in *;
    unfold SendText, SendAudio, SendImage, SendVideo, SendDocument,
      SendReaction, SendMissedCall, ReadMessage, ChatPresence, DeleteChat,
      ArchiveChat, gets, mbind, M_bind;
    by rewrite Hnone.
Qed.

Lemma tick_clears W s id :
  alwaysOnlineIDs s !! id = Some true -> sessionGone s id ->
  alwaysOnlineIDs (final (processAlwaysOnlineInstances W s)) !! id = None.
Proof.
  intros Hon Hgone. unfold processAlwaysOnlineInstances.
  unfold gets, mbind at 1, M_bind at 1.
  assert (Hin : id ∈ alwaysOnlineBatch (alwaysOnlineIDs s))
    by (by apply elem_of_alwaysOnlineBatch).
  pose proof (batch_clears W _ _ id
                (set_logs (logs s ++ [mkLog Info "Processing AlwaysOnline batch"]) s)
                (reflexivity (alwaysOnlineBatch (alwaysOnlineIDs s))) Hin Hgone)
    as Hclear.
  destruct (alwaysOnlineBatch (alwaysOnlineIDs s)) as [|i ids] eqn:Hb;
    [by apply elem_of_nil in Hin|].
  unfold mbind, M_bind, zap, modify in *. simpl in *.
  match type of Hclear with
  | context [final ?r] => destruct r as [[] ?|? ?]; simpl in *; done
  end.
Qed.

(** X14: after a logged-out event whose device deletion succeeds, the id
    has no session handle, so every command addressed to it fails with
    [ErrClientIsNil] without reaching a runtime.  The logout itself leaves
    the always-online table alone: a flag that was set is still set, and
    it is the next tick of the scheduler that clears it. *)
Theorem logout_then W id instance client s s1 :
  getInstanceCached W id s = Ok (Some instance) s1 ->
  clients s !! id = Some client ->
  deleteDeviceIfExists W client = None ->
  ∃ s',
    Handle W id events.LoggedOut s = Ok tt s' ∧
    clients s' !! id = None ∧
    (∀ c, instanceOf c = id -> runCommand W c s' = Ok (Some ErrClientIsNil) s') ∧
    alwaysOnlineIDs s' = alwaysOnlineIDs s ∧
    (alwaysOnlineIDs s !! id = Some true ->
     alwaysOnlineIDs (final (processAlwaysOnlineInstances W s')) !! id = None).
Proof.
  intros Hget Hcl Hdel.
  pose proof (getInstanceCached_queues W id s) as (_ & _ & Hc1 & Ha1 & _).
  rewrite Hget in Hc1, Ha1. simpl in Hc1, Ha1.
  destruct (emitConnectionUpdate_run W id "close" instance s1 s1
              (getInstanceCached_again W id s instance s1 Hget))
    as (s2 & Hemit & _ & Hc2 & _ & _ & Ha2).
  assert (Hrun : Handle W id events.LoggedOut s =
                 Ok tt (set_clients (delete id (clients s2))
                          (set_calls (calls s2 ++ [CallDeleteDevice client]) s2))).
  { unfold Handle. rewrite (bind_Ok _ _ _ _ _ Hget). unfold handleLoggedOut.
    rewrite (bind_Ok _ _ _ _ _ Hemit). unfold gets, mbind, M_bind.
    rewrite Hc2, Hc1, Hcl. unfold call, modify. simpl. rewrite Hdel. simpl. by rewrite Hc2, Hc1. }
  eexists. split; [exact Hrun|].
  assert (Hnone : clients (set_clients (delete id (clients s2))
                    (set_calls (calls s2 ++ [CallDeleteDevice client]) s2)) !! id = None)
    by (simpl; apply lookup_delete_eq).
  split; [exact Hnone|]. split; [|split].
  - intros c <-. by apply runCommand_no_session.
  - simpl. by rewrite Ha2, Ha1.
  - intros Hon. apply tick_clears; [|by left].
    simpl. by rewrite Ha2, Ha1.
Qed.

Lemma logout_then_witness :
  ∃ s',
    Handle (withRepo (fun _ => Success [acme allEvents]) quietWorld) "acme"
           events.LoggedOut acmeOnline = Ok tt s' ∧
    clients s' !! "acme" = None ∧
    alwaysOnlineIDs (final (processAlwaysOnlineInstances
                              (withRepo (fun _ => Success [acme allEvents]) quietWorld)
                              s')) !! "acme" = None.
Proof.
  set (W := withRepo (fun _ => Success [acme allEvents]) quietWorld).
  set (r := getInstanceCached W "acme" acmeOnline).
  assert (Hr : r = Ok (Some (acme allEvents)) (final r)) by (vm_compute; reflexivity).
  assert (Hcl : clients acmeOnline !! "acme" = Some (Some phone))
    by (vm_compute; reflexivity).
  destruct (logout_then W "acme" (acme allEvents) (Some phone) acmeOnline (final r)
              Hr Hcl eq_refl) as (s' & Hrun & Hnone & _ & _ & Htick).
  exists s'. split; [exact Hrun|]. split; [exact Hnone|].
  apply Htick. vm_compute. reflexivity.
Defined.

(** ** One tick of the presence scheduler *)




(** A registered session that is not connected: no presence command, and
    the flag stays. *)
Lemma tick_keeps_offline_flag :
  calls (final (processAlwaysOnlineInstances quietWorld globexOffline)) = [] ∧
  alwaysOnlineIDs (final (processAlwaysOnlineInstances quietWorld globexOffline))
    !! "globex" = Some true.
Proof. vm_compute. done. Qed.

(** ** Bounds of a delivery *)

Lemma retryLoop_run W url_ body remaining attempt le lc s :
  (attempt + remaining <= 4)%nat ->
  ∃ r s' added,
    retryLoop W remaining attempt url_ body le lc s = Ok r s' ∧
    calls s' = calls s ++ added ∧
    Forall (isDeliveryCall url_ body) added ∧
    (length (List.filter isHttpPost added) <= remaining)%nat ∧
    (length (List.filter isSleep added) +
       (if (attempt =? 0)%nat then Nat.min 1 remaining else 0)
     <= remaining)%nat ∧
    (NewRequest_ok W url_ = false -> List.filter isHttpPost added = []) ∧
    emitter_chan s' = emitter_chan s ∧ goroutines s' = goroutines s ∧
    clients s' = clients s.
Proof.
  revert attempt le lc s. induction remaining as [|r IH]; intros attempt le lc s Hb.
  - simpl. exists (Exhausted le lc), s, []. rewrite app_nil_r. simpl.
    repeat split; try done. destruct (attempt =? 0)%nat; lia.
  - cbn [retryLoop]. replace (Nat.min 1 (S r)) with 1%nat by lia.
    assert (Hpre : ∃ pre s0,
      (if (0 <? attempt)%nat
       then match retryDelays !! (attempt - 1)%nat with
            | Some delay => zap Warn "retrying webhook after delay";; Sleep delay
            | None => panic "index out of range"
            end
       else mret ()) s = Ok tt s0 ∧
      calls s0 = calls s ++ pre ∧ Forall (isDeliveryCall url_ body) pre ∧
      List.filter isHttpPost pre = [] ∧
      (length (List.filter isSleep pre) + (if (attempt =? 0)%nat then 1 else 0)
         = 1)%nat ∧
      emitter_chan s0 = emitter_chan s ∧ goroutines s0 = goroutines s ∧
      clients s0 = clients s).
    { destruct attempt as [|a]; simpl.
      - exists [], s. rewrite app_nil_r. by repeat split.
      - rewrite Nat.sub_0_r.
        destruct (retryDelays !! a) as [d|] eqn:Hd.
        + exists [CallSleep d]. eexists. split; [reflexivity|]. simpl.
          repeat split; try done.
          constructor; [|done]. right. exists d. split; [done|].
          by eapply list_elem_of_lookup_2.
        + apply lookup_ge_None in Hd. unfold retryDelays in Hd. simpl in Hd. lia. }
    destruct Hpre as (pre & s0 & Hpre & Hc0 & Fpre & Hp0 & Hs0 & Hq0 & Hg0 & Hcl0).
    unfold mbind at 1, M_bind at 1. rewrite Hpre.
    assert (Hnext : ∀ le' lc' (lg : list LogEntry) mid,
      Forall (isDeliveryCall url_ body) mid ->
      (length (List.filter isHttpPost mid) <= 1)%nat ->
      List.filter isSleep mid = [] ->
      (NewRequest_ok W url_ = false -> List.filter isHttpPost mid = []) ->
      ∃ r0 s' added,
        retryLoop W r (S attempt) url_ body le' lc'
          (set_logs lg (set_calls (calls s0 ++ mid) s0)) = Ok r0 s' ∧
        calls s' = calls s ++ added ∧
        Forall (isDeliveryCall url_ body) added ∧
        (length (List.filter isHttpPost added) <= S r)%nat ∧
        (length (List.filter isSleep added) + (if (attempt =? 0)%nat then 1 else 0)
           <= S r)%nat ∧
        (NewRequest_ok W url_ = false -> List.filter isHttpPost added = []) ∧
        emitter_chan s' = emitter_chan s ∧ goroutines s' = goroutines s ∧
        clients s' = clients s).
    { intros le' lc' lg mid Fmid Hpm Hsm Hnr.
      destruct (IH (S attempt) le' lc'
                  (set_logs lg (set_calls (calls s0 ++ mid) s0)) ltac:(lia))
        as (r0 & s' & rest & Hrun & Hcalls & Frest & Hpr & Hsr & Hnrr & Hq & Hg & Hcl).
      exists r0, s', (pre ++ mid ++ rest). split; [exact Hrun|].
      simpl in *. split; [by rewrite Hcalls, Hc0, <- !app_assoc|].
      split; [by repeat apply Forall_app_2|].
      rewrite !List.filter_app, !length_app, Hp0, Hsm. simpl.
      split; [lia|]. split; [lia|]. split; [|by rewrite Hq, Hg, Hcl].
      intros Hno. by rewrite (Hnr Hno), (Hnrr Hno). }
    assert (Hstop : ∀ (lg : list LogEntry) mid (res : Delivery),
      Forall (isDeliveryCall url_ body) mid ->
      (length (List.filter isHttpPost mid) <= 1)%nat ->
      List.filter isSleep mid = [] ->
      (NewRequest_ok W url_ = false -> List.filter isHttpPost mid = []) ->
      ∃ r0 s' added,
        Ok res (set_logs lg (set_calls (calls s0 ++ mid) s0)) = Ok r0 s' ∧
        calls s' = calls s ++ added ∧
        Forall (isDeliveryCall url_ body) added ∧
        (length (List.filter isHttpPost added) <= S r)%nat ∧
        (length (List.filter isSleep added) + (if (attempt =? 0)%nat then 1 else 0)
           <= S r)%nat ∧
        (NewRequest_ok W url_ = false -> List.filter isHttpPost added = []) ∧
        emitter_chan s' = emitter_chan s ∧ goroutines s' = goroutines s ∧
        clients s' = clients s).
    { intros lg mid res Fmid Hpm Hsm Hnr.
      exists res, (set_logs lg (set_calls (calls s0 ++ mid) s0)), (pre ++ mid).
      split; [done|]. simpl. split; [by rewrite Hc0, <- app_assoc|].
      split; [by apply Forall_app_2|].
      rewrite !List.filter_app, !length_app, Hp0, Hsm. simpl.
      split; [lia|]. split; [lia|]. split; [|done].
      intros Hno. by rewrite (Hnr Hno). }
    destruct (NewRequest_ok W url_) eqn:Hreq; simpl.
    + unfold mbind, M_bind, call, zap, modify. simpl.
      assert (Fpost : Forall (isDeliveryCall url_ body) [CallHttpPost url_ body])
        by (constructor; [by left|done]).
      assert (Hm1 : (length (List.filter isHttpPost [CallHttpPost url_ body]) <= 1)%nat)
        by (simpl; lia).
      assert (Hm2 : List.filter isSleep [CallHttpPost url_ body] = []) by done.
      assert (Hm3 : true = false -> List.filter isHttpPost [CallHttpPost url_ body] = [])
        by done.
      destruct (http_Do W url_ body attempt) as [resp|err]; simpl.
      * destruct (StatusCode resp =? StatusOK)%Z; simpl.
        -- destruct (0 <? attempt)%nat; simpl.
           ++ exact (Hstop _ _ Delivered Fpost Hm1 Hm2 Hm3).
           ++ destruct (Hstop (logs s0) _ Delivered Fpost Hm1 Hm2 Hm3)
                as (r0 & s' & added & Heq & Hrest).
              exists r0, s', added. split; [|exact Hrest].
              rewrite <- Heq. by destruct s0.
        -- exact (Hnext _ _ _ _ Fpost Hm1 Hm2 Hm3).
      * exact (Hnext _ _ _ _ Fpost Hm1 Hm2 Hm3).
    + unfold mbind, M_bind, zap, modify. simpl.
      assert (Hm1 : (length (List.filter isHttpPost []) <= 1)%nat) by (simpl; lia).
      destruct (Hnext (Some "failed to create request") lc
                  (logs s0 ++ [mkLog Error_ "webhook request creation failed"]) []
                  (Forall_nil_2 _) Hm1 eq_refl (fun _ => eq_refl))
        as (r0 & s' & added & Hrun & Hrest).
      rewrite app_nil_r in Hrun.
      exists r0, s', added. split; [|exact Hrest].
      rewrite <- Hrun. f_equal; by destruct s0.
Qed.

Lemma sendWebhookWithRetry_run W event s :
  ∃ r s' added,
    sendWebhookWithRetry W event s = Ok r s' ∧
    calls s' = calls s ++ added ∧
    (length (List.filter isHttpPost added) <= 4)%nat ∧
    (length (List.filter isSleep added) <= 3)%nat ∧
    emitter_chan s' = emitter_chan s ∧ goroutines s' = goroutines s ∧
    clients s' = clients s ∧
    (∀ err, json_Marshal W (data event) = Failure err ->
            r = NotMarshalled ∧ added = []) ∧
    (NewRequest_ok W (url event) = false -> List.filter isHttpPost added = []) ∧
    (∀ body, json_Marshal W (data event) = Success body ->
             Forall (isDeliveryCall (url event) body) added).
Proof.
  unfold sendWebhookWithRetry.
  destruct (json_Marshal W (data event)) as [body|err].
  - destruct (retryLoop_run W (url event) body (S maxRetries) 0 None 0%Z s
                ltac:(unfold maxRetries; lia))
      as (r & s' & added & Hrun & Hcalls & Fall & Hp & Hs & Hnr & Hq & Hg & Hcl).
    unfold mbind, M_bind. rewrite Hrun. unfold maxRetries in *. simpl in Hs.
    destruct r; simpl;
      do 3 eexists; (split; [reflexivity|]); simpl;
      (split; [exact Hcalls|]); (split; [lia|]); (split; [lia|]);
      repeat split; first [ done | by intros ? [= <-] ].
  - exists NotMarshalled. eexists. exists []. split; [reflexivity|]. simpl.
    rewrite app_nil_r. repeat split; first [ done | lia | by intros ? [=] ].
Qed.

(** X16: whatever the destination and the collaborators do, one delivery
    ends without panic after at most four POSTs and three pauses, every
    POST going to the task's URL with the serialised payload and every
    pause being one of the retry delays; it never touches the channel, the
    goroutines or the registry.  A payload that cannot be serialised is
    given up without any call, and a URL no request can be built for is
    never posted to. *)
Theorem sendWebhookWithRetry_bounded W event s :
  ∃ r s' added,
    sendWebhookWithRetry W event s = Ok r s' ∧
    calls s' = calls s ++ added ∧
    (length (List.filter isHttpPost added) <= 4)%nat ∧
    (length (List.filter isSleep added) <= 3)%nat ∧
    emitter_chan s' = emitter_chan s ∧ goroutines s' = goroutines s ∧
    clients s' = clients s ∧
    (∀ err, json_Marshal W (data event) = Failure err ->
            r = NotMarshalled ∧ added = []) ∧
    (NewRequest_ok W (url event) = false -> List.filter isHttpPost added = []) ∧
    (∀ body, json_Marshal W (data event) = Success body ->
             Forall (isDeliveryCall (url event) body) added).
Proof.
  unfold sendWebhookWithRetry.
  destruct (json_Marshal W (data event)) as [body|err].
  - destruct (retryLoop_run W (url event) body (S maxRetries) 0 None 0%Z s
                ltac:(unfold maxRetries; lia))
      as (r & s' & added & Hrun & Hcalls & Fall & Hp & Hs & Hnr & Hq & Hg & Hcl).
    unfold mbind, M_bind. rewrite Hrun. unfold maxRetries in *. simpl in Hs.
    destruct r; simpl;
      do 3 eexists; (split; [reflexivity|]); simpl;
      (split; [exact Hcalls|]); (split; [lia|]); (split; [lia|]);
      repeat split; first [ done | by intros ? [= <-] ].
  - exists NotMarshalled. eexists. exists []. split; [reflexivity|]. simpl.
    rewrite app_nil_r. repeat split; first [ done | lia | by intros ? [=] ].
Qed.

(** X17: the worker serves the channel first in, first out.  [emit] puts
    a task behind all that wait; a turn on an empty channel does nothing;
    a turn on a non-empty channel removes the oldest task and only that
    one, whatever the outcome of its delivery, and every POST of the turn
    carries that task's serialised payload to that task's URL. *)
Theorem startEmitter_turn_fifo W s :
  (∀ body url_, emit body url_ s =
                Ok tt (set_emitter_chan (emitter_chan s ++ [mkEmitter url_ body]) s)) ∧
  (emitter_chan s = [] -> startEmitter_turn W s = Ok None s) ∧
  (∀ event rest,
     emitter_chan s = event :: rest ->
     ∃ r s' added,
       startEmitter_turn W s = Ok (Some r) s' ∧
       emitter_chan s' = rest ∧
       calls s' = calls s ++ added ∧
       ∀ u b, CallHttpPost u b ∈ added ->
              u = url event ∧ json_Marshal W (data event) = Success b).
Proof.
  split; [done|]. split.
  - intros Hq. unfold startEmitter_turn, gets, mbind, M_bind. by rewrite Hq.
  - intros event rest Hq.
    unfold startEmitter_turn, gets. unfold mbind at 1, M_bind at 1. rewrite Hq.
    unfold mbind at 1, M_bind at 1. simpl.
    destruct (sendWebhookWithRetry_run W event (set_emitter_chan rest s))
      as (r & s' & added & Hrun & Hcalls & _ & _ & Hch & _ & _ & Hnm & _ & Hall).
    unfold mbind, M_bind. rewrite Hrun.
    exists r, s', added. split; [done|]. split; [done|]. split; [done|].
    intros u b Hin.
    destruct (json_Marshal W (data event)) as [body|err] eqn:Hm.
    + specialize (Hall body eq_refl). rewrite Forall_forall in Hall.
      destruct (Hall _ Hin) as [[= -> ->]|(d & [=] & _)]. done.
    + destruct (Hnm err eq_refl) as [_ ->]. by apply elem_of_nil in Hin.
Qed.

Lemma startEmitter_turn_fifo_witness :
  ∃ r s',
    startEmitter_turn (withDestination okOnSecond quietWorld)
                      (set_emitter_chan [closeNotice] emptyState) = Ok (Some r) s' ∧
    emitter_chan s' = [].
Proof.
  destruct (startEmitter_turn_fifo (withDestination okOnSecond quietWorld)
              (set_emitter_chan [closeNotice] emptyState)) as (_ & _ & Hturn).
  destruct (Hturn closeNotice [] eq_refl) as (r & s' & added & Hrun & Hq & _).
  exists r, s'. split; [exact Hrun|exact Hq].
Defined.

(** ** Commands that send *)

Ltac run_command :=
  unfold SendText, SendAudio, SendImage, SendVideo, SendDocument, SendReaction,
    SendMissedCall, ReadMessage, ChatPresence, DeleteChat, ArchiveChat,
    sendMessage, upload, fetch, deref, errorOf, gets, now, gets, call, modify,
    panic, mbind, M_bind, mret, M_ret in *;
  simpl in *.



(** X19: a reaction reaches the runtime only when it is well formed.
    Whatever [SendReaction] hands to the runtime is a single reaction
    message, for a request with a non-empty reaction and a non-empty
    message id, through a session that is registered and paired; the
    reaction is keyed to the paired device itself when the request says the
    target message is the account's own, and to the chat otherwise. *)
Theorem SendReaction_validated W d s :
  ∃ added,
    calls (final (SendReaction W d s)) = calls s ++ added ∧
    (length added <= 1)%nat ∧
    ∀ x, x ∈ added ->
         sr_Reaction d ≠ "" ∧ sr_MessageID d ≠ "" ∧
         ∃ c own to,
           clients s !! sr_InstanceID d = Some (Some c) ∧
           Store c = Some (mkDevice (Some own)) ∧
           sr_RemoteJID d = Some to ∧
           x = CallSendMessage (Some c) to
                 (OutReaction to (if sr_FromMe d then own else to)
                              (sr_MessageID d) (sr_Reaction d)).
Proof.
  run_command.
  repeat match goal with
         | |- context [match ?x with _ => _ end] =>
           lazymatch x with
           | context [match _ with _ => _ end] => fail
           | _ => destruct x eqn:?; simpl in *
           end
         end.
  all: first [ (eexists; split; [reflexivity|])
             | (exists []; split; [by rewrite app_nil_r|]) ].
  all: simpl; (split; [lia|]).
  all: intros x Hx;
    repeat (apply elem_of_cons in Hx as [->|Hx]); try by apply elem_of_nil in Hx.
  all: repeat split;
    try (intros E; rewrite E in *; discriminate);
    try (do 3 eexists; repeat split; first [reflexivity | eassumption]).
Qed.

(** ** The HTTP controllers *)

Ltac run_controller :=
  unfold controllers.serve, controllers.SendText, controllers.SendAudio,
    controllers.SendMedia, controllers.SendDocument, controllers.SendImage,
    controllers.SendVideo, controllers.SendReaction, controllers.SendMissedCall,
    controllers.sendDocument, controllers.sendImage, controllers.sendVideo,
    controllers.sent, time_Sleep, zap in *;
  run_command.

Ltac split_cases :=
  repeat match goal with
         | H : ?x = _ |- context [match ?x with _ => _ end] => rewrite H; simpl in *
         | |- context [match ?x with _ => _ end] =>
           lazymatch x with
           | context [match _ with _ => _ end] => fail
           | _ => destruct x eqn:?; simpl in *
           end
         end.

Ltac trail :=
  rewrite <- ?app_assoc; simpl;
  first [ (eexists; split; [reflexivity|])
        | (exists []; split; [by rewrite app_nil_r|]) ].

(** X20: what the compatibility endpoint [SendMedia] sends.  Every
    message it hands to the runtime is of the kind the media type names:
    for "image" an image message whose mimetype is "image/png" whatever
    mimetype the request gave, for "video" a video message that keeps the
    mimetype of the request when there is one, and for anything else a
    document with the mimetype, file name and caption of the request. *)
Theorem SendMedia_kinds W n2j Sm request s :
  let r := controllers.SendMedia W n2j Sm (Success request) s in
  let d := dto.Document request in
  ∃ added,
    calls (final r) = calls s ++ added ∧
    ∀ client to m, CallSendMessage client to m ∈ added ->
      if (dto.Mediatype request =? "image")%string then
        ∃ url, m = OutImage url "image/png" (dto.doc_Caption d) (dto.doc_ViewOnce d)
      else if (dto.Mediatype request =? "video")%string then
        ∃ url mimetype,
          m = OutVideo url mimetype (dto.doc_Caption d) (dto.doc_ViewOnce d) ∧
          (dto.doc_Mimetype d ≠ "" -> mimetype = dto.doc_Mimetype d)
      else
        ∃ url, m = OutDocument url (dto.doc_Mimetype d) (dto.doc_FileName d)
                               (dto.doc_Caption d).
Proof.
  intros r d; subst r d.
  run_controller. unfold controllers.withMimetype.
  split_cases.
  all: trail.
  all: intros client to m Hin;
    repeat (apply elem_of_cons in Hin as [Hin|Hin]; [try discriminate Hin|]);
    try by apply elem_of_nil in Hin.
  all: injection Hin as -> -> ->.
  all: try solve [eexists; reflexivity].
  all: do 2 eexists; (split; [reflexivity|]); intros Hne; try done.
  all: exfalso; apply Hne; by apply String.eqb_eq.
Qed.

(** X21: what an endpoint answers.  Whatever the request, an endpoint
    answers 200, 400, 422 or 500.  An answer of 400 or 422 is given before
    anything is asked of the session runtime, the network or the clock.  An
    answer of 200 is given only after a message was handed to the runtime
    as the last call and accepted by it, and it carries the id the runtime
    gave that message, marked as sent by the account.  No endpoint hands
    more than one message to the runtime, and none changes the registry of
    sessions, the cache, the flags, the webhook queue or the goroutines. *)
Theorem serve_replies W n2j St Sa Sm Sd Sv Sr Sc emoji e s :
  let r := controllers.serve W n2j St Sa Sm Sd Sv Sr Sc emoji e s in
  ∃ added,
    calls (final r) = calls s ++ added ∧
    sameCore s (final r) ∧
    (length (List.filter isSendMessage added) <= 1)%nat ∧
    ∀ reply s', r = Ok reply s' ->
      statusOf reply ∈ [StatusOK; StatusBadRequest; StatusUnprocessableEntity;
                        StatusInternalServerError] ∧
      (statusOf reply = StatusBadRequest ∨
       statusOf reply = StatusUnprocessableEntity -> added = []) ∧
      (statusOf reply = StatusOK ->
       ∃ client to m resp body,
         reply = JSON StatusOK body ∧
         last added = Some (CallSendMessage client to m) ∧
         rt_SendMessage W client to m = Success resp ∧
         dto.KeyID body = RespID resp ∧
         dto.KeyFromMe body = true ∧ dto.Status body = "sent").
Proof.
  intros r; subst r.
  destruct e as [[]|[]|[]|[]|[]|[]|[]|[]]; run_controller.
  all: split_cases.
  all: trail.
  all: (split; [done|]).
  all: simpl; (split; [lia|]).
  all: intros reply s' [= <- <-]; simpl.
  all: unfold StatusOK, StatusBadRequest, StatusUnprocessableEntity,
    StatusInternalServerError.
  all: (split; [solve [repeat constructor]|]).
  all: (split; [first [ done | by intros [?|?] ]|]).
  all: first [ by intros ? | intros _ ].
  all: do 5 eexists; (split; [reflexivity|]); (split; [reflexivity|]);
    (split; [eassumption|]); done.
Qed.



(** ** Commands without a chat *)

(** X23: a nil chat JID never passes.  A command addressed to a
    registered session whose request names no chat never reports success:
    it returns an error or panics on the nil pointer.  Before that it has
    called nothing but downloads and uploads of media, so no message,
    receipt, presence or chat patch is issued; and a chat command
    ([ReadMessage], [ChatPresence], [DeleteChat], [ArchiveChat]) panics at
    once, before any call. *)
Theorem nil_chat_never_passes W c s client :
  clients s !! instanceOf c = Some client ->
  remoteOf c = None ->
  (∀ s', runCommand W c s ≠ Ok None s') ∧
  ∃ added,
    calls (final (runCommand W c s)) = calls s ++ added ∧
    (∀ x, x ∈ added -> isTransfer x = true) ∧
    (isSendCommand c = false -> added = [] ∧ ∃ why, runCommand W c s = Panicked why s).
Proof.
  intros Hclient Hnil.
  destruct c; simpl in *; run_command; rewrite Hclient, ?Hnil; simpl.
  all: split_cases.
  all: (split; [by intros s'|]).
  all: trail.
  all: (split;
        [ intros x Hx;
          repeat (apply elem_of_cons in Hx as [->|Hx]; [done|]);
          by apply elem_of_nil in Hx |]).
  all: first [ by intros ? | intros _; split; [done|]; eexists; reflexivity ].
Qed.

Lemma nil_chat_never_passes_witness :
  ∃ added,
    calls (final (runCommand quietWorld textToNoChat oneSession)) =
      calls oneSession ++ added ∧
    (∀ x, x ∈ added -> isTransfer x = true) ∧
    (isSendCommand textToNoChat = false ->
     added = [] ∧
     ∃ why, runCommand quietWorld textToNoChat oneSession = Panicked why oneSession).
Proof.
  assert (Hclient : clients oneSession !! instanceOf textToNoChat = Some (Some phone))
    by (vm_compute; reflexivity).
  exact (proj2 (nil_chat_never_passes quietWorld textToNoChat oneSession
                  (Some phone) Hclient eq_refl)).
Defined.

(** ** Pictures of named contacts *)

(** X24: the conversions that name a contact ([convertContact],
    [convertGroupInfo], [convertPushName]) look the picture up first and
    examine the name afterwards: each always returns, in the state the
    picture lookup left, so the lookup is paid for also when no contact
    results.  A contact they give carries the URL of the lookup but never
    the encoded picture the lookup returned with it, together with the id
    of the instance and the pair [GetJidLid] gives for the JID. *)
Theorem name_conversions_lookup_first W id s :
  ∀ conv jid,
    ((∃ evt, conv = convertContact W id evt ∧ jid = events.CJID evt) ∨
     (∃ evt, conv = convertGroupInfo W id evt ∧ jid = events.GJID evt) ∨
     (∃ evt, conv = convertPushName W id evt ∧ jid = events.PNJID evt)) ->
    ∃ url b64 s1 r,
      getPic_logged W id jid s = Ok (url, b64) s1 ∧
      conv s = Ok r s1 ∧
      ∀ c, r = Some c ->
           ProfilePicUrl c = url ∧ Base64Pic c = "" ∧ CInstanceId c = id ∧
           (RemoteJid c, RemoteLid c) = GetJidLid W id jid.
Proof.
  intros conv jid Hconv.
  destruct (getPic_logged_run W id jid s) as (u & b & s1 & Hrun & _).
  exists u, b, s1.
  destruct Hconv as [(evt & -> & ->)|[(evt & -> & ->)|(evt & -> & ->)]];
    unfold convertContact, convertGroupInfo, convertPushName;
    unfold mbind at 1, M_bind at 1; rewrite Hrun; simpl.
  all: repeat match goal with
              | |- context [match ?x with _ => _ end] =>
                lazymatch x with
                | context [match _ with _ => _ end] => fail
                | _ => destruct x eqn:?; simpl in *
                end
              end.
  all: eexists; (split; [reflexivity|]); (split; [reflexivity|]).
  all: intros c [= <-]; simpl; done.
Qed.

Lemma name_conversions_lookup_first_witness :
  ∃ url b64 s1 r,
    getPic_logged quietWorld "acme" (events.GJID groupTouched) oneSession =
      Ok (url, b64) s1 ∧
    convertGroupInfo quietWorld "acme" groupTouched oneSession = Ok r s1 ∧
    ∀ c, r = Some c ->
         ProfilePicUrl c = url ∧ Base64Pic c = "" ∧ CInstanceId c = "acme" ∧
         (RemoteJid c, RemoteLid c) =
           GetJidLid quietWorld "acme" (events.GJID groupTouched).
Proof.
  apply (name_conversions_lookup_first quietWorld "acme" oneSession).
  right. left. exists groupTouched. split; reflexivity.
Defined.
